(** * Quality scorer of content-split: a shallow embedding and its properties

    The development follows [src/scorer/quality_scorer.py]: the format
    detector, the five dimension scorers, the aggregator and the batch
    runner, with the parts of Python's library they call.

    Modelling decisions, stated once:
    - a Python [str] is a list of Unicode code points ([pystr]);
    - a Python [float] score is an exact rational ([Q]); [round(x, 3)] is
      rounding to the nearest multiple of 1/1000, ties to even.  Python
      agrees with it except where the binary representation of a sum
      decides a tie at the fourth decimal, by 0.001 on the rounded score;
    - an exception is a value of [exn] carried by the error monad [result];
    - [json.loads] and the pattern compiler of [re] are written out (the
      interpreter's recursion limit apart); what depends on the Unicode
      database, the matching engine of [re] with its character classes and
      [str.lower], is an interface, [Engine], with a reference instance.
      Every property is proved for every engine;
    - the limits of the interpreter are not part of the functions: past
      its recursion limit Python raises [RecursionError] in [json.loads]
      and in [get_dict_depth], and [json.loads] raises [ValueError] on an
      integer of more than 4300 digits.  The statements that such an error
      would change are made for the submissions [within_limits] (module
      [Limits]), which stay far from both. *)

From Stdlib Require Import String Ascii List NArith ZArith QArith Qminmax Bool Lia Lqa.
Import ListNotations.

#[global] Set Warnings "-register-all".

Local Open Scope string_scope.
Local Open Scope list_scope.

(** ** Python strings *)

Module PyStr.

Definition pychar := N.
Definition pystr := list pychar.

(** A literal of the source, as code points. *)
Definition py (s : string) : pystr := map N_of_ascii (list_ascii_of_string s).

(** A literal in which every apostrophe stands for a double quote (U+0022);
    used to write JSON documents. *)
Definition jq (s : string) : pystr :=
  map (fun c => if N.eqb c 39 then 34%N else c) (py s).

Definition NL : pychar := 10%N.

Fixpoint eqb (a b : pystr) : bool :=
  match a, b with
  | [], [] => true
  | x :: a', y :: b' => N.eqb x y && eqb a' b'
  | _, _ => false
  end.

(** [str.isspace] on one character: the code points Python treats as
    whitespace. *)
Definition isspace (c : pychar) : bool :=
  ((9 <=? c) && (c <=? 13) || (28 <=? c) && (c <=? 32)
   || (c =? 133) || (c =? 160) || (c =? 5760)
   || (8192 <=? c) && (c <=? 8202)
   || (c =? 8232) || (c =? 8233) || (c =? 8239) || (c =? 8287)
   || (c =? 12288))%N.

Fixpoint lstrip (s : pystr) : pystr :=
  match s with
  | c :: t => if isspace c then lstrip t else s
  | [] => []
  end.

Definition rstrip (s : pystr) : pystr := rev (lstrip (rev s)).

(** [s.strip()] *)
Definition strip (s : pystr) : pystr := rstrip (lstrip s).

(** [s.startswith(prefix)] *)
Fixpoint startswith (prefix s : pystr) : bool :=
  match prefix, s with
  | [], _ => true
  | p :: prefix', c :: s' => N.eqb p c && startswith prefix' s'
  | _ :: _, [] => false
  end.

(** [sub in s] *)
Fixpoint contains (sub s : pystr) : bool :=
  startswith sub s || match s with [] => false | _ :: t => contains sub t end.

(** [s.find(sub)], [-1] when absent. *)
Fixpoint find_from (sub s : pystr) (i : Z) : Z :=
  if startswith sub s then i
  else match s with [] => (-1)%Z | _ :: t => find_from sub t (i + 1) end.

Definition find (sub s : pystr) : Z := find_from sub s 0.

(** [s[a:]] with Python's reading of a negative start. *)
Definition slice_from (a : Z) (s : pystr) : pystr :=
  let n := Z.of_nat (length s) in
  let a' := if (a <? 0)%Z then Z.max 0 (n + a) else a in
  skipn (Z.to_nat a') s.

(** [s.split(sep)] for a non-empty separator; [skip] counts the characters
    of a separator still to be passed over. *)
Fixpoint split_aux (sep : pystr) (skip : nat) (cur s : pystr) : list pystr :=
  match s with
  | [] => [rev cur]
  | c :: t =>
      match skip with
      | S k => split_aux sep k cur t
      | O => if startswith sep s
             then rev cur :: split_aux sep (length sep - 1) [] t
             else split_aux sep 0 (c :: cur) t
      end
  end.

Definition split (sep s : pystr) : list pystr := split_aux sep 0 [] s.

(** [s.count(sub)]: non-overlapping occurrences of a non-empty [sub]. *)
Fixpoint count_aux (sub : pystr) (skip : nat) (s : pystr) : nat :=
  match s with
  | [] => 0
  | _ :: t =>
      match skip with
      | S k => count_aux sub k t
      | O => if startswith sub s
             then S (count_aux sub (length sub - 1) t)
             else count_aux sub 0 t
      end
  end.

Definition count (sub s : pystr) : nat := count_aux sub 0 s.

(** [s.split()]: maximal runs of non-whitespace. *)
Fixpoint split_ws_aux (cur : pystr) (s : pystr) : list pystr :=
  match s with
  | [] => match cur with [] => [] | _ => [rev cur] end
  | c :: t =>
      if isspace c
      then match cur with
           | [] => split_ws_aux [] t
           | _ => rev cur :: split_ws_aux [] t
           end
      else split_ws_aux (c :: cur) t
  end.

Definition split_ws (s : pystr) : list pystr := split_ws_aux [] s.

(** [sep.join(parts)] *)
Fixpoint join (sep : pystr) (parts : list pystr) : pystr :=
  match parts with
  | [] => []
  | [p] => p
  | p :: rest => p ++ sep ++ join sep rest
  end.

(** [str(n)] for a non-negative integer. *)
Fixpoint digits_aux (fuel : nat) (n : N) (acc : pystr) : pystr :=
  match fuel with
  | O => acc
  | S f =>
      let acc' := (48 + n mod 10)%N :: acc in
      if (n <? 10)%N then acc' else digits_aux f (n / 10)%N acc'
  end.

Definition str_of_nat (n : nat) : pystr :=
  digits_aux (S n) (N.of_nat n) [].

(** [repr] of a list of plain identifiers, as an f-string prints it. *)
Definition repr_list (l : list pystr) : pystr :=
  py "[" ++ join (py ", ") (map (fun s => py "'" ++ s ++ py "'") l) ++ py "]".

(** [len(set(words))] *)
Fixpoint distinct (l : list pystr) : list pystr :=
  match l with
  | [] => []
  | x :: t => if existsb (eqb x) t then distinct t else x :: distinct t
  end.

(** The last character, for [l[-1]]. *)
Definition last_char (s : pystr) : option pychar :=
  match rev s with c :: _ => Some c | [] => None end.

End PyStr.
Export PyStr.

(** ** Numbers: scores as exact rationals *)

Module PyNum.

Local Open Scope Q_scope.

Definition qn (n : nat) : Q := inject_Z (Z.of_nat n).

(** [a < b] on scores *)
Definition Qltb (a b : Q) : bool := negb (Qle_bool b a).

(** [min(a, b)] and [max(a, b)] as Python computes them: the first argument
    unless the second is strictly smaller (larger). *)
Definition pymin (a b : Q) : Q := if Qltb b a then b else a.
Definition pymax (a b : Q) : Q := if Qltb a b then b else a.

(** The integer nearest to [n / d], ties to the even one. *)
Definition round_half_even (n : Z) (d : positive) : Z :=
  let fl := (n / Zpos d)%Z in
  let r := (n mod Zpos d)%Z in
  match (2 * r ?= Zpos d)%Z with
  | Lt => fl
  | Gt => (fl + 1)%Z
  | Eq => if Z.even fl then fl else (fl + 1)%Z
  end.

(** [round(q, 3)] *)
Definition round3 (q : Q) : Q :=
  Qred (round_half_even (Qnum q * 1000) (Qden q) # 1000).

(** [sum(1 for x in l if f x)] and [sum(d.values())] over booleans *)
Definition count_true (l : list bool) : nat :=
  List.length (filter (fun b => b) l).

End PyNum.
Export PyNum.

(** ** Exceptions *)

Inductive exn : Type :=
| JSONDecodeError (msg : pystr) (lineno colno pos : nat)
| ReError (msg : pystr) (pos : nat)
| KeyError (key : pystr).

(** [str(e)] *)
Definition exn_str (e : exn) : pystr :=
  match e with
  | JSONDecodeError msg lineno colno pos =>
      msg ++ py ": line " ++ str_of_nat lineno ++ py " column "
          ++ str_of_nat colno ++ py " (char " ++ str_of_nat pos ++ py ")"
  | ReError msg pos => msg ++ py " at position " ++ str_of_nat pos
  | KeyError key => py "'" ++ key ++ py "'"
  end.

Inductive result (A : Type) : Type :=
| Ok (a : A)
| Raise (e : exn).

Arguments Ok {A} a.
Arguments Raise {A} e.

Definition bind {A B : Type} (m : result A) (k : A -> result B) : result B :=
  match m with
  | Ok a => k a
  | Raise e => Raise e
  end.

Declare Scope py_scope.
Delimit Scope py_scope with pyres.
Notation "x <- m ;; k" := (bind m (fun x => k))
  (at level 61, m at next level, right associativity) : py_scope.
Notation "' pat <- m ;; k" := (bind m (fun x => match x with pat => k end))
  (at level 61, pat pattern, m at next level, right associativity) : py_scope.

Definition is_ok {A : Type} (m : result A) : bool :=
  match m with Ok _ => true | Raise _ => false end.

(** ** [json.loads]

    The decoder of Python's [json] package on a [str]: the scanner's grammar,
    its error messages and positions.  Numbers keep the exact value of their
    literal; no scorer reads it.  The interpreter's recursion limit is not
    modelled. *)

Module Json.

Local Open Scope nat_scope.

Inductive pyfloat : Type :=
| FDec (mantissa exponent : Z)   (* mantissa * 10 ^ exponent *)
| FNaN
| FInf (negative : bool).

Inductive json : Type :=
| JNull
| JBool (b : bool)
| JInt (z : Z)
| JFloat (f : pyfloat)
| JStr (s : pystr)
| JList (items : list json)
| JDict (pairs : list (pystr * json)).

(** A [dict] keeps one entry per key, in the order of first insertion. *)
Fixpoint dict_set {V : Type} (k : pystr) (v : V) (d : list (pystr * V))
  : list (pystr * V) :=
  match d with
  | [] => [(k, v)]
  | (k', v') :: t =>
      if eqb k k' then (k', v) :: t else (k', v') :: dict_set k v t
  end.

(** [k in d] *)
Definition dict_has {V : Type} (k : pystr) (d : list (pystr * V)) : bool :=
  existsb (fun kv => eqb k (fst kv)) d.

(** [d.values()] *)
Definition dict_values {V : Type} (d : list (pystr * V)) : list V :=
  map snd d.

(** A scan either fails with a message at a position, or yields a value,
    the unread text and its position. *)
Definition scan (A : Type) : Type := (pystr * nat) + (A * pystr * nat).

Definition is_ws (c : pychar) : bool :=
  ((c =? 32) || (c =? 9) || (c =? 10) || (c =? 13))%N.

Fixpoint skip_ws (s : pystr) (pos : nat) : pystr * nat :=
  match s with
  | c :: t => if is_ws c then skip_ws t (S pos) else (s, pos)
  | [] => ([], pos)
  end.

Definition is_digit (c : pychar) : bool := ((48 <=? c) && (c <=? 57))%N.

Definition hexval (c : pychar) : option N :=
  if is_digit c then Some (c - 48)%N
  else if ((97 <=? c) && (c <=? 102))%N then Some (c - 87)%N
  else if ((65 <=? c) && (c <=? 70))%N then Some (c - 55)%N
  else None.

(** Four hexadecimal digits. *)
Definition hex4 (s : pystr) : option N :=
  match s with
  | a :: b :: c :: d :: _ =>
      match hexval a, hexval b, hexval c, hexval d with
      | Some a, Some b, Some c, Some d =>
          Some (((a * 16 + b) * 16 + c) * 16 + d)%N
      | _, _, _, _ => None
      end
  | _ => None
  end.

Definition escape_char (c : pychar) : option pychar :=
  (if c =? 34 then Some 34 else if c =? 92 then Some 92
   else if c =? 47 then Some 47 else if c =? 98 then Some 8
   else if c =? 102 then Some 12 else if c =? 110 then Some 10
   else if c =? 114 then Some 13 else if c =? 116 then Some 9
   else None)%N.

(** The body of a string literal; [s] starts after the opening quote, which
    is at [begin]. *)
Fixpoint scanstring (fuel : nat) (s : pystr) (pos begin : nat) (acc : pystr)
  : scan pystr :=
  match fuel with
  | O => inl (py "Unterminated string starting at", begin)
  | S f =>
      match s with
      | [] => inl (py "Unterminated string starting at", begin)
      | c :: t =>
          if (c =? 34)%N then inr (rev acc, t, S pos)
          else if (c =? 92)%N then
            match t with
            | [] => inl (py "Unterminated string starting at", begin)
            | e :: t' =>
                if (e =? 117)%N then
                  if Nat.leb (List.length t') 4
                  then inl (py "Invalid \uXXXX escape", S pos)
                  else
                    match hex4 t' with
                    | None => inl (py "Invalid \uXXXX escape", S pos)
                    | Some u =>
                        let t4 := skipn 4 t' in
                        let high := ((55296 <=? u) && (u <=? 56319))%N in
                        if high && Nat.ltb 6 (List.length t4)
                           && startswith (py "\u") t4
                        then
                          match hex4 (skipn 2 t4) with
                          | None => inl (py "Invalid \uXXXX escape", pos + 7)
                          | Some u2 =>
                              if ((56320 <=? u2) && (u2 <=? 57343))%N
                              then scanstring f (skipn 6 t4) (pos + 12) begin
                                     ((65536 + (u - 55296) * 1024
                                       + (u2 - 56320))%N :: acc)
                              else scanstring f t4 (pos + 6) begin (u :: acc)
                          end
                        else scanstring f t4 (pos + 6) begin (u :: acc)
                    end
                else
                  match escape_char e with
                  | Some x => scanstring f t' (pos + 2) begin (x :: acc)
                  | None => inl (py "Invalid \escape", pos)
                  end
            end
          else if (c <=? 31)%N
          then inl (py "Invalid control character at", pos)
          else scanstring f t (S pos) begin (c :: acc)
      end
  end.

Fixpoint take_digits (s : pystr) (acc : pystr) : pystr * pystr :=
  match s with
  | c :: t => if is_digit c then take_digits t (c :: acc) else (rev acc, s)
  | [] => (rev acc, [])
  end.

Definition digits_value (ds : pystr) : Z :=
  fold_left (fun a c => (a * 10 + Z.of_N (c - 48))%Z) ds 0%Z.

(** A number literal: integer part, optional fraction, optional exponent
    (an exponent without digits is not read). *)
Definition match_number (s : pystr) (pos : nat) : scan json :=
  let '(neg, s1) :=
    match s with
    | c :: t => if (c =? 45)%N then (true, t) else (false, s)
    | [] => (false, s)
    end in
  let int_part : option (pystr * pystr) :=
    match s1 with
    | c :: t =>
        if (c =? 48)%N then Some ([c], t)
        else if is_digit c then Some (take_digits s1 [])
        else None
    | [] => None
    end in
  match int_part with
  | None => inl (py "Expecting value", pos)
  | Some (ids, s2) =>
      let '(fds, s3) :=
        match s2 with
        | c :: d :: _ =>
            if (c =? 46)%N && is_digit d
            then take_digits (skipn 1 s2) []
            else ([], s2)
        | _ => ([], s2)
        end in
      let '(has_exp, eneg, eds, s4) :=
        match s3 with
        | c :: t =>
            if ((c =? 101) || (c =? 69))%N then
              let '(eneg, t1) :=
                match t with
                | sg :: (_ :: _) as t1 =>
                    if (sg =? 45)%N then (true, t1)
                    else if (sg =? 43)%N then (false, t1)
                    else (false, t)
                | _ => (false, t)
                end in
              let '(eds, t2) := take_digits t1 [] in
              match eds with
              | [] => (false, false, [], s3)
              | _ => (true, eneg, eds, t2)
              end
            else (false, false, [], s3)
        | [] => (false, false, [], s3)
        end in
      let sign := if neg then (-1)%Z else 1%Z in
      let consumed := (List.length s - List.length s4)%nat in
      match fds, has_exp with
      | [], false => inr (JInt (sign * digits_value ids), s4, pos + consumed)
      | _, _ =>
          let e := digits_value eds in
          inr (JFloat (FDec (sign * digits_value (ids ++ fds))
                            ((if eneg then - e else e)
                             - Z.of_nat (List.length fds))),
               s4, pos + consumed)
      end
  end.

(** A named constant [name] at the head of [s], when more text follows it
    or it ends the text. *)
Definition keyword (name : string) (v : json) (s : pystr) (pos : nat)
  : option (scan json) :=
  let n := py name in
  if startswith n s
  then Some (inr (v, skipn (List.length n) s, pos + List.length n))
  else None.

Fixpoint scan_once (fuel : nat) (s : pystr) (pos : nat) {struct fuel}
  : scan json :=
  match fuel with
  | O => inl (py "Expecting value", pos)
  | S f =>
      match s with
      | [] => inl (py "Expecting value", pos)
      | c :: t =>
          if (c =? 34)%N then
            match scanstring (List.length t) t (S pos) pos [] with
            | inl e => inl e
            | inr (str, rest, p) => inr (JStr str, rest, p)
            end
          else if (c =? 123)%N then
            let '(s1, p1) := skip_ws t (S pos) in
            match s1 with
            | c1 :: t1 =>
                if (c1 =? 125)%N then inr (JDict [], t1, S p1)
                else object_loop f [] s1 p1
            | [] => object_loop f [] s1 p1
            end
          else if (c =? 91)%N then
            let '(s1, p1) := skip_ws t (S pos) in
            match s1 with
            | c1 :: t1 =>
                if (c1 =? 93)%N then inr (JList [], t1, S p1)
                else array_loop f [] s1 p1
            | [] => array_loop f [] s1 p1
            end
          else
            match keyword "null" JNull s pos with Some r => r | None =>
            match keyword "true" (JBool true) s pos with Some r => r | None =>
            match keyword "false" (JBool false) s pos with Some r => r | None =>
            match keyword "NaN" (JFloat FNaN) s pos with Some r => r | None =>
            match keyword "Infinity" (JFloat (FInf false)) s pos
            with Some r => r | None =>
            match keyword "-Infinity" (JFloat (FInf true)) s pos
            with Some r => r | None => match_number s pos
            end end end end end end
      end
  end

(** The members of an object, [s] at a key. *)
with object_loop (fuel : nat) (d : list (pystr * json)) (s : pystr)
       (pos : nat) {struct fuel} : scan json :=
  match fuel with
  | O => inl (py "Expecting value", pos)
  | S f =>
      match s with
      | c :: t =>
          if (c =? 34)%N then
            match scanstring (List.length t) t (S pos) pos [] with
            | inl e => inl e
            | inr (key, s1, p1) =>
                let '(s2, p2) := skip_ws s1 p1 in
                match s2 with
                | c2 :: t2 =>
                    if (c2 =? 58)%N then
                      let '(s3, p3) := skip_ws t2 (S p2) in
                      match scan_once f s3 p3 with
                      | inl e => inl e
                      | inr (v, s4, p4) =>
                          let d' := dict_set key v d in
                          let '(s5, p5) := skip_ws s4 p4 in
                          match s5 with
                          | c5 :: t5 =>
                              if (c5 =? 125)%N then inr (JDict d', t5, S p5)
                              else if (c5 =? 44)%N then
                                let '(s6, p6) := skip_ws t5 (S p5) in
                                object_loop f d' s6 p6
                              else inl (py "Expecting ',' delimiter", p5)
                          | [] => inl (py "Expecting ',' delimiter", p5)
                          end
                      end
                    else inl (py "Expecting ':' delimiter", p2)
                | [] => inl (py "Expecting ':' delimiter", p2)
                end
            end
          else inl (py "Expecting property name enclosed in double quotes",
                    pos)
      | [] => inl (py "Expecting property name enclosed in double quotes",
                   pos)
      end
  end

(** The items of an array, [s] at an item; [acc] holds the items read, last
    first. *)
with array_loop (fuel : nat) (acc : list json) (s : pystr) (pos : nat)
       {struct fuel} : scan json :=
  match fuel with
  | O => inl (py "Expecting value", pos)
  | S f =>
      match scan_once f s pos with
      | inl e => inl e
      | inr (v, s1, p1) =>
          let '(s2, p2) := skip_ws s1 p1 in
          match s2 with
          | c2 :: t2 =>
              if (c2 =? 93)%N then inr (JList (rev (v :: acc)), t2, S p2)
              else if (c2 =? 44)%N then
                let '(s3, p3) := skip_ws t2 (S p2) in
                array_loop f (v :: acc) s3 p3
              else inl (py "Expecting ',' delimiter", p2)
          | [] => inl (py "Expecting ',' delimiter", p2)
          end
      end
  end.

(** Line and column of a position, as [JSONDecodeError] reports them. *)
Definition decode_error (msg doc : pystr) (pos : nat) : exn :=
  let before := firstn pos doc in
  let lineno := S (count [NL] before) in
  let colno :=
    match split [NL] before with
    | [] => S pos
    | parts => S (List.length (last parts []))
    end in
  JSONDecodeError msg lineno colno pos.

(** [json.loads(doc)], the scanner running on [fuel]. *)
Definition json_loads_with (fuel : nat) (doc : pystr) : result json :=
  if startswith [65279%N] doc
  then Raise (decode_error
                (py "Unexpected UTF-8 BOM (decode using utf-8-sig)") doc 0)
  else
    let '(s0, p0) := skip_ws doc 0 in
    match scan_once fuel s0 p0 with
    | inl (msg, pos) => Raise (decode_error msg doc pos)
    | inr (v, s1, p1) =>
        let '(s2, p2) := skip_ws s1 p1 in
        match s2 with
        | [] => Ok v
        | _ :: _ => Raise (decode_error (py "Extra data") doc p2)
        end
    end.

(** [json.loads(doc)]: twice the length of the text is fuel enough
    ([json_loads_fuel] below). *)
Definition json_loads (doc : pystr) : result json :=
  json_loads_with (2 * List.length doc + 2) doc.

End Json.
Export Json.

(** ** [re]: patterns and their compilation

    [sre_parse] is the pattern compiler for the syntax that the patterns of
    the source use: literals, [.], [^], [$], escapes, character sets, plain
    groups, alternation and the repeat operators.  It decides whether a call
    of [re] raises [re.error] before any matching takes place.  Group
    extensions [(?...)] and numeric escapes, which no pattern of the source
    contains, are reported as errors. *)

Module Re.

Local Open Scope nat_scope.
Local Open Scope py_scope.

Inductive category : Type := CatSpace | CatDigit | CatWord.

Inductive set_item : Type :=
| SChar (c : pychar)
| SRange (lo hi : pychar)
| SCat (negated : bool) (k : category).

Inductive regex : Type :=
| REmpty
| RLit (c : pychar)
| RAny
| RCat (negated : bool) (k : category)
| RSet (negated : bool) (items : list set_item)
| RBol
| REol
| RBoundary (negated : bool)
| RGroup (r : regex)
| RSeq (r1 r2 : regex)
| RAlt (r1 r2 : regex)
| RRepeat (lo : nat) (hi : option nat) (greedy : bool) (r : regex).

Record re_flags : Type := { MULTILINE : bool; IGNORECASE : bool }.

Definition no_flags : re_flags := {| MULTILINE := false; IGNORECASE := false |}.
Definition flag_M : re_flags := {| MULTILINE := true; IGNORECASE := false |}.
Definition flag_MI : re_flags := {| MULTILINE := true; IGNORECASE := true |}.

Definition chr (s : string) : pychar :=
  match py s with c :: _ => c | [] => 0%N end.

Definition is_char (s : string) (c : pychar) : bool := N.eqb c (chr s).

Definition is_ascii_letter (c : pychar) : bool :=
  ((65 <=? c) && (c <=? 90) || (97 <=? c) && (c <=? 122))%N.

Definition category_escape (e : pychar) : option (bool * category) :=
  if is_char "s" e then Some (false, CatSpace)
  else if is_char "S" e then Some (true, CatSpace)
  else if is_char "d" e then Some (false, CatDigit)
  else if is_char "D" e then Some (true, CatDigit)
  else if is_char "w" e then Some (false, CatWord)
  else if is_char "W" e then Some (true, CatWord)
  else None.

Definition control_escape (e : pychar) : option pychar :=
  if is_char "n" e then Some 10%N else if is_char "t" e then Some 9%N
  else if is_char "r" e then Some 13%N else if is_char "f" e then Some 12%N
  else if is_char "v" e then Some 11%N else if is_char "a" e then Some 7%N
  else None.

(** An escape outside a character set; [pos] is the backslash. *)
Definition escape (e : pychar) (pos : nat) : result regex :=
  match category_escape e with
  | Some (neg, k) => Ok (RCat neg k)
  | None =>
      if is_char "b" e then Ok (RBoundary false)
      else if is_char "B" e then Ok (RBoundary true)
      else match control_escape e with
           | Some c => Ok (RLit c)
           | None =>
               if is_ascii_letter e || is_digit e
               then Raise (ReError (py "bad escape \" ++ [e]) pos)
               else Ok (RLit e)
           end
  end.

(** An escape inside a character set. *)
Definition class_escape (e : pychar) (pos : nat) : result set_item :=
  match category_escape e with
  | Some (neg, k) => Ok (SCat neg k)
  | None =>
      if is_char "b" e then Ok (SChar 8%N)
      else match control_escape e with
           | Some c => Ok (SChar c)
           | None =>
               if is_ascii_letter e || is_digit e
               then Raise (ReError (py "bad escape \" ++ [e]) pos)
               else Ok (SChar e)
           end
  end.

(** One member of a set: a character or an escape. *)
Definition set_member (s : pystr) (pos start : nat)
  : result (set_item * pystr * nat) :=
  match s with
  | [] => Raise (ReError (py "unterminated character set") start)
  | c :: t =>
      if is_char "\" c then
        match t with
        | [] => Raise (ReError (py "bad escape (end of pattern)") pos)
        | e :: t' => it <- class_escape e pos ;; Ok (it, t', pos + 2)
        end
      else Ok (SChar c, t, S pos)
  end.

(** The members of a set up to its closing bracket; [start] is the opening
    bracket. *)
Fixpoint parse_set (fuel : nat) (acc : list set_item) (s : pystr)
  (pos start : nat) : result (list set_item * pystr * nat) :=
  match fuel with
  | O => Raise (ReError (py "unterminated character set") start)
  | S f =>
      match s, acc with
      | [], _ => Raise (ReError (py "unterminated character set") start)
      | c :: t, _ :: _ =>
          if is_char "]" c then Ok (rev acc, t, S pos)
          else parse_set_item f acc s pos start
      | _ :: _, [] => parse_set_item f acc s pos start
      end
  end
with parse_set_item (fuel : nat) (acc : list set_item) (s : pystr)
  (pos start : nat) : result (list set_item * pystr * nat) :=
  match fuel with
  | O => Raise (ReError (py "unterminated character set") start)
  | S f =>
      '(code1, s1, p1) <- set_member s pos start ;;
      match s1 with
      | d :: t1 =>
          if is_char "-" d then
            match t1 with
            | [] => Raise (ReError (py "unterminated character set") start)
            | c2 :: t2 =>
                if is_char "]" c2
                then Ok (rev (SChar (chr "-") :: code1 :: acc), t2, p1 + 2)
                else
                  '(code2, s2, p2) <- set_member t1 (S p1) start ;;
                  match code1, code2 with
                  | SChar lo, SChar hi =>
                      if (hi <? lo)%N
                      then Raise (ReError (py "bad character range") pos)
                      else parse_set f (SRange lo hi :: acc) s2 p2 start
                  | _, _ => Raise (ReError (py "bad character range") pos)
                  end
            end
          else parse_set f (code1 :: acc) s1 p1 start
      | [] => parse_set f (code1 :: acc) s1 p1 start
      end
  end.

Definition seq_of (items : list regex) : regex :=
  match items with
  | [] => REmpty
  | r :: rest => fold_left RSeq rest r
  end.

(** The bounds of a [{m,n}] operator, [s] after the brace; [None] when the
    text is not such an operator and the brace stands for itself. *)
Definition repeat_bounds (s : pystr)
  : option (nat * option nat * pystr * nat) :=
  match s with
  | c :: _ =>
      if is_char "}" c then None
      else
        let '(lo, s1) := take_digits s [] in
        let '(hi, s2, has_comma) :=
          match s1 with
          | c1 :: t1 =>
              if is_char "," c1
              then let '(hi, s2) := take_digits t1 [] in (hi, s2, true)
              else (lo, s1, false)
          | [] => (lo, s1, false)
          end in
        match s2 with
        | c2 :: t2 =>
            if is_char "}" c2 then
              let mn := match lo with
                        | [] => 0
                        | _ => Z.to_nat (digits_value lo)
                        end in
              let mx := match hi with
                        | [] => None
                        | _ => Some (Z.to_nat (digits_value hi))
                        end in
              Some (mn, mx, t2, List.length s - List.length t2)
            else None
        | [] => None
        end
  | [] => None
  end.

(** Apply a repeat operator to the last item read. *)
Definition repeat_last (lo : nat) (hi : option nat) (greedy : bool)
  (acc : list regex) (pos : nat) : result (list regex) :=
  match acc with
  | [] => Raise (ReError (py "nothing to repeat") pos)
  | RBol :: _ | REol :: _ | RBoundary _ :: _ =>
      Raise (ReError (py "nothing to repeat") pos)
  | RRepeat _ _ _ _ :: _ => Raise (ReError (py "multiple repeat") pos)
  | item :: rest =>
      match hi with
      | Some h =>
          if Nat.ltb h lo
          then Raise (ReError (py "min repeat greater than max repeat") pos)
          else Ok (RRepeat lo hi greedy item :: rest)
      | None => Ok (RRepeat lo hi greedy item :: rest)
      end
  end.

(** A trailing [?] makes the operator lazy. *)
Definition lazy_mark (s : pystr) (pos : nat) : bool * pystr * nat :=
  match s with
  | c :: t => if is_char "?" c then (false, t, S pos) else (true, s, pos)
  | [] => (true, s, pos)
  end.

(** An alternation, read up to a closing parenthesis or the end. *)
Fixpoint parse_sub (fuel : nat) (s : pystr) (pos : nat) {struct fuel}
  : result (regex * pystr * nat) :=
  match fuel with
  | O => Raise (ReError (py "pattern nesting too deep") pos)
  | S f =>
      '(r, s1, p1) <- parse_items f [] s pos ;;
      match s1 with
      | c :: t =>
          if is_char "|" c
          then '(r2, s2, p2) <- parse_sub f t (S p1) ;; Ok (RAlt r r2, s2, p2)
          else Ok (r, s1, p1)
      | [] => Ok (r, s1, p1)
      end
  end

(** A sequence of items; [acc] holds the items read, last first. *)
with parse_items (fuel : nat) (acc : list regex) (s : pystr) (pos : nat)
  {struct fuel} : result (regex * pystr * nat) :=
  match fuel with
  | O => Raise (ReError (py "pattern nesting too deep") pos)
  | S f =>
      match s with
      | [] => Ok (seq_of (rev acc), s, pos)
      | c :: t =>
          if is_char "|" c || is_char ")" c then Ok (seq_of (rev acc), s, pos)
          else if is_char "\" c then
            match t with
            | [] => Raise (ReError (py "bad escape (end of pattern)") pos)
            | e :: t' =>
                item <- escape e pos ;; parse_items f (item :: acc) t' (pos + 2)
            end
          else if is_char "[" c then
            let '(neg, s0, p0) :=
              match t with
              | x :: t0 => if is_char "^" x then (true, t0, pos + 2)
                           else (false, t, S pos)
              | [] => (false, t, S pos)
              end in
            '(items, s1, p1) <- parse_set (S (2 * List.length s0)) [] s0 p0 pos ;;
            parse_items f (RSet neg items :: acc) s1 p1
          else if is_char "*" c || is_char "+" c || is_char "?" c then
            let '(greedy, s1, p1) := lazy_mark t (S pos) in
            let lo := if is_char "+" c then 1 else 0 in
            let hi := if is_char "?" c then Some 1 else None in
            acc' <- repeat_last lo hi greedy acc pos ;;
            parse_items f acc' s1 p1
          else if is_char "{" c then
            match repeat_bounds t with
            | None => parse_items f (RLit c :: acc) t (S pos)
            | Some (lo, hi, t1, n) =>
                let '(greedy, s1, p1) := lazy_mark t1 (S pos + n) in
                acc' <- repeat_last lo hi greedy acc pos ;;
                parse_items f acc' s1 p1
            end
          else if is_char "." c then parse_items f (RAny :: acc) t (S pos)
          else if is_char "^" c then parse_items f (RBol :: acc) t (S pos)
          else if is_char "$" c then parse_items f (REol :: acc) t (S pos)
          else if is_char "(" c then
            match t with
            | q :: _ =>
                if is_char "?" q
                then Raise (ReError (py "unknown extension") (S pos))
                else
                  '(r, s1, p1) <- parse_sub f t (S pos) ;;
                  match s1 with
                  | c1 :: t1 =>
                      if is_char ")" c1
                      then parse_items f (RGroup r :: acc) t1 (S p1)
                      else Raise (ReError
                             (py "missing ), unterminated subpattern") pos)
                  | [] => Raise (ReError
                            (py "missing ), unterminated subpattern") pos)
                  end
            | [] => Raise (ReError
                      (py "missing ), unterminated subpattern") pos)
            end
          else parse_items f (RLit c :: acc) t (S pos)
      end
  end.

(** Compile a pattern: the whole text must be read. *)
Definition sre_parse (pattern : string) : result regex :=
  let s := py pattern in
  '(r, rest, pos) <- parse_sub (2 * List.length s + 2) s 0 ;;
  match rest with
  | [] => Ok r
  | _ :: _ => Raise (ReError (py "unbalanced parenthesis") pos)
  end.

(** Number of capturing groups. *)
Fixpoint groups (r : regex) : nat :=
  match r with
  | RGroup r1 => S (groups r1)
  | RSeq r1 r2 | RAlt r1 r2 => groups r1 + groups r2
  | RRepeat _ _ _ r1 => groups r1
  | _ => 0
  end.

(** What matching needs from the Unicode database and the matching engine.
    [engine_match] and [engine_search] tell whether [re.match] and
    [re.search] find a match; [engine_findall] and [engine_split] are the
    lists [re.findall] and [re.split] return (for a pattern with one group,
    the text of that group). *)
Class Engine : Type := {
  engine_match : regex -> re_flags -> pystr -> bool;
  engine_search : regex -> re_flags -> pystr -> bool;
  engine_findall : regex -> re_flags -> pystr -> list pystr;
  engine_split : regex -> re_flags -> pystr -> list pystr;
  str_lower : pystr -> pystr
}.

Section API.
Context {E : Engine}.

(** [re.match(pattern, s, flags) is not None] *)
Definition re_match (pattern : string) (s : pystr) (fl : re_flags)
  : result bool :=
  r <- sre_parse pattern ;; Ok (engine_match r fl s).

(** [re.search(pattern, s, flags) is not None] *)
Definition re_search (pattern : string) (s : pystr) (fl : re_flags)
  : result bool :=
  r <- sre_parse pattern ;; Ok (engine_search r fl s).

(** [re.findall(pattern, s, flags)] *)
Definition re_findall (pattern : string) (s : pystr) (fl : re_flags)
  : result (list pystr) :=
  r <- sre_parse pattern ;; Ok (engine_findall r fl s).

(** [re.split(pattern, s)] *)
Definition re_split (pattern : string) (s : pystr) : result (list pystr) :=
  r <- sre_parse pattern ;; Ok (engine_split r no_flags s).

End API.

End Re.
Export Re.

(** ** A reference engine

    A backtracking matcher for [regex], with the character classes of the
    Latin-1 range.  The properties below hold for every [Engine]; this one
    makes the definitions run on concrete submissions. *)

Module RefEngine.

Local Open Scope nat_scope.

Definition lower_char (c : pychar) : pychar :=
  if ((65 <=? c) && (c <=? 90)
      || (192 <=? c) && (c <=? 222) && negb (c =? 215))%N
  then (c + 32)%N else c.

Definition ref_lower (s : pystr) : pystr := map lower_char s.

Definition is_word (c : pychar) : bool :=
  is_ascii_letter c || is_digit c || is_char "_" c
  || ((c =? 170) || (c =? 181) || (c =? 186)
      || (192 <=? c) && (c <=? 255) && negb (c =? 215) && negb (c =? 247))%N.

Definition in_category (k : category) (c : pychar) : bool :=
  match k with
  | CatSpace => isspace c
  | CatDigit => is_digit c
  | CatWord => is_word c
  end.

Definition char_eq (fl : re_flags) (a b : pychar) : bool :=
  if IGNORECASE fl then N.eqb (lower_char a) (lower_char b) else N.eqb a b.

Definition in_item (fl : re_flags) (c : pychar) (it : set_item) : bool :=
  match it with
  | SChar x => char_eq fl x c
  | SRange lo hi =>
      ((lo <=? c) && (c <=? hi))%N
      || IGNORECASE fl
         && (((lo <=? lower_char c) && (lower_char c <=? hi))%N
             || ((lo <=? c - 32) && (c - 32 <=? hi) && (97 <=? c)
                 && (c <=? 122))%N)
  | SCat neg k => xorb neg (in_category k c)
  end.

Definition word_opt (c : option pychar) : bool :=
  match c with Some x => is_word x | None => false end.

(** The matcher proper, in continuation-passing style: [prev] is the
    character before the current position, [s] the text from it on, [cap]
    the text of the group when it has taken part in the match. *)
Fixpoint run {A : Type} (r : regex) (fl : re_flags) (prev : option pychar)
  (s : pystr) (cap : option pystr)
  (k : option pychar -> pystr -> option pystr -> option A) {struct r}
  : option A :=
  match r with
  | REmpty => k prev s cap
  | RLit c =>
      match s with
      | x :: t => if char_eq fl c x then k (Some x) t cap else None
      | [] => None
      end
  | RAny =>
      match s with
      | x :: t => if N.eqb x NL then None else k (Some x) t cap
      | [] => None
      end
  | RCat neg cat =>
      match s with
      | x :: t => if xorb neg (in_category cat x) then k (Some x) t cap else None
      | [] => None
      end
  | RSet neg items =>
      match s with
      | x :: t =>
          if xorb neg (existsb (in_item fl x) items) then k (Some x) t cap
          else None
      | [] => None
      end
  | RBol =>
      match prev with
      | None => k prev s cap
      | Some x => if MULTILINE fl && N.eqb x NL then k prev s cap else None
      end
  | REol =>
      match s with
      | [] => k prev s cap
      | x :: t =>
          if N.eqb x NL && (MULTILINE fl || match t with [] => true | _ => false end)
          then k prev s cap else None
      end
  | RBoundary neg =>
      let here := xorb (word_opt prev) (word_opt (hd_error s)) in
      if xorb neg here then k prev s cap else None
  | RGroup r1 =>
      run r1 fl prev s cap
        (fun p' s' _ =>
           k p' s' (Some (firstn (List.length s - List.length s') s)))
  | RSeq r1 r2 =>
      run r1 fl prev s cap (fun p' s' c' => run r2 fl p' s' c' k)
  | RAlt r1 r2 =>
      match run r1 fl prev s cap k with
      | Some a => Some a
      | None => run r2 fl prev s cap k
      end
  | RRepeat lo hi greedy r1 =>
      (fix rep (fuel lo : nat) (hi : option nat) (prev : option pychar)
           (s : pystr) (cap : option pystr) {struct fuel} : option A :=
         match fuel with
         | O => None
         | S f =>
             let more :=
               match hi with
               | Some O => None
               | _ =>
                   run r1 fl prev s cap
                     (fun p' s' c' =>
                        if Nat.ltb (List.length s') (List.length s)
                        then rep f (pred lo) (option_map pred hi) p' s' c'
                        else None)
               end in
             let stop := match lo with O => k prev s cap | S _ => None end in
             if greedy
             then match more with Some a => Some a | None => stop end
             else match stop with Some a => Some a | None => more end
         end) (S (List.length s)) lo hi prev s cap
  end.

(** A match starting at the current position: the text left after it, the
    matched text and the group. *)
Definition match_here (r : regex) (fl : re_flags) (prev : option pychar)
  (s : pystr) : option (pystr * pystr * option pystr) :=
  run r fl prev s None
    (fun _ s' c => Some (s', firstn (List.length s - List.length s') s, c)).

(** The leftmost match at or after the current position, with the text
    skipped before it. *)
Fixpoint search_from (r : regex) (fl : re_flags) (prev : option pychar)
  (s skipped : pystr) : option (pystr * pystr * pystr * option pystr) :=
  match match_here r fl prev s with
  | Some (rest, text, c) => Some (rev skipped, rest, text, c)
  | None =>
      match s with
      | [] => None
      | x :: t => search_from r fl (Some x) t (x :: skipped)
      end
  end.

(** All successive matches: the text before each, what it matched, its
    group; and the text after the last. *)
Fixpoint matches (fuel : nat) (r : regex) (fl : re_flags)
  (prev : option pychar) (s : pystr)
  : list (pystr * pystr * option pystr) * pystr :=
  match fuel with
  | O => ([], s)
  | S f =>
      match search_from r fl prev s [] with
      | None => ([], s)
      | Some (before, rest, text, c) =>
          match text, rest with
          | [], [] => ([(before, text, c)], [])
          | [], x :: t =>
              let '(ms, tail) := matches f r fl (Some x) t in
              match ms with
              | [] => ([(before, text, c)], x :: tail)
              | (b, tx, c') :: ms' =>
                  ((before, text, c) :: (x :: b, tx, c') :: ms', tail)
              end
          | _ :: _, _ =>
              let '(ms, tail) := matches f r fl (last_char text) rest in
              ((before, text, c) :: ms, tail)
          end
      end
  end.

Definition ref_match (r : regex) (fl : re_flags) (s : pystr) : bool :=
  match match_here r fl None s with Some _ => true | None => false end.

Definition ref_search (r : regex) (fl : re_flags) (s : pystr) : bool :=
  match search_from r fl None s [] with Some _ => true | None => false end.

Definition ref_findall (r : regex) (fl : re_flags) (s : pystr) : list pystr :=
  map (fun '(_, text, c) =>
         match groups r, c with
         | O, _ => text
         | _, Some g => g
         | _, None => []
         end)
      (fst (matches (S (List.length s)) r fl None s)).

Definition ref_split (r : regex) (fl : re_flags) (s : pystr) : list pystr :=
  let '(ms, tail) := matches (S (List.length s)) r fl None s in
  map (fun '(before, _, _) => before) ms ++ [tail].

#[export] Instance reference : Engine := {|
  engine_match := ref_match;
  engine_search := ref_search;
  engine_findall := ref_findall;
  engine_split := ref_split;
  str_lower := ref_lower
|}.

End RefEngine.

(** ** The scorer: [src/scorer/quality_scorer.py] *)

Module Scorer.

Local Open Scope py_scope.
Local Open Scope Q_scope.

Inductive FormatType : Type := JSON | MARKDOWN | CODE | TEXT.

(** [FormatType.value] *)
Definition FormatType_value (ft : FormatType) : pystr :=
  match ft with
  | JSON => py "json"
  | MARKDOWN => py "markdown"
  | CODE => py "code"
  | TEXT => py "text"
  end.

Record ScoringResult : Type := {
  weighted_score : Q;
  quality_rating : pystr;
  scores : list (pystr * Q);
  feedback : list pystr;
  pass_threshold : bool;
  format_detected : pystr
}.

Definition DIMENSION_WEIGHTS : list (pystr * Q) :=
  [ (py "completeness", 0.30);
    (py "format_compliance", 0.20);
    (py "coverage", 0.25);
    (py "clarity", 0.15);
    (py "validity", 0.10) ].

Definition QUALITY_RATINGS : list (Q * pystr) :=
  [ (0.9, py "Excellent");
    (0.8, py "Very Good");
    (0.7, py "Good");
    (0.6, py "Satisfactory");
    (0.5, py "Needs Improvement");
    (0.0, py "Poor") ].

Definition DEFAULT_PASS_THRESHOLD : Q := 0.6.

Definition code_patterns : list string :=
  [ "^\s*(def |class |function |import |from |#include |package |func ";
    "^\s*(public |private |protected |void |int |string |var |let |const )";
    "^\s*<\?php";
    "^\s*<(!DOCTYPE |html|head|body)";
    "^\s*(import|export)\s+" ].

Definition md_patterns : list string :=
  [ "^#{1,6}\s+";
    "^\*\*.*\*\*";
    "^\[.*\]\(.*\)";
    "^```";
    "^[-*+]\s+";
    "^\d+\.\s+" ].

(** [get_dict_depth(d, depth)] *)
Fixpoint get_dict_depth (d : json) (depth : nat) : nat :=
  match d with
  | JDict ((_ :: _) as pairs) =>
      fold_right Nat.max 0%nat
        (map (fun '(_, v) => get_dict_depth v (S depth)) pairs)
  | _ => depth
  end.

(** [count_nulls(data)] *)
Fixpoint count_nulls (data : json) : nat :=
  match data with
  | JNull => 1%nat
  | JDict pairs =>
      fold_left
        (fun count '(_, v) =>
           match v with
           | JNull | JStr [] | JList [] => (count + 1)%nat
           | JDict _ | JList _ => (count + count_nulls v)%nat
           | _ => count
           end) pairs 0%nat
  | JList items =>
      fold_left
        (fun count item =>
           match item with
           | JNull | JStr [] | JDict [] => (count + 1)%nat
           | JDict _ | JList _ => (count + count_nulls item)%nat
           | _ => count
           end) items 0%nat
  | _ => 0%nat
  end.

(** [get_quality_rating(score)]: the loop over a rating table. *)
Fixpoint first_rating (table : list (Q * pystr)) (score : Q) : pystr :=
  match table with
  | [] => py "Poor"
  | (threshold, rating) :: rest =>
      if Qle_bool threshold score then rating else first_rating rest score
  end.

Definition get_quality_rating (score : Q) : pystr :=
  first_rating QUALITY_RATINGS score.

(** The [return] of the scorers that round the score as it is. *)
Definition finish (score : Q) (feedback : list pystr) (clear : string)
  : Q * pystr :=
  (round3 score,
   match feedback with [] => py clear | _ => join (py "; ") feedback end).

(** The [return] of the scorers that floor the score at 0 first. *)
Definition finish_floor (score : Q) (feedback : list pystr) (clear : string)
  : Q * pystr :=
  finish (pymax 0 score) feedback clear.

(** [sum(1 for x in l if f x)] *)
Definition count_if {A : Type} (f : A -> bool) (l : list A) : nat :=
  List.length (filter f l).

Definition nonempty (s : pystr) : bool :=
  match s with [] => false | _ :: _ => true end.

Definition nonempty_list {A : Type} (l : list A) : bool :=
  match l with [] => false | _ :: _ => true end.

Definition set_add (x : pystr) (l : list pystr) : list pystr :=
  if existsb (eqb x) l then l else l ++ [x].

Section WithEngine.
Context {E : Engine}.

(** The loop over [code_patterns]: stops at the first pattern that matches
    at the start of the content. *)
Fixpoint any_match (patterns : list string) (content : pystr) : result bool :=
  match patterns with
  | [] => Ok false
  | pattern :: rest =>
      m <- re_match pattern content flag_MI ;;
      if m then Ok true else any_match rest content
  end.

(** [sum(1 for p in md_patterns if re.search(p, content, re.MULTILINE))] *)
Fixpoint count_search (patterns : list string) (content : pystr)
  : result nat :=
  match patterns with
  | [] => Ok 0%nat
  | p :: rest =>
      m <- re_search p content flag_M ;;
      n <- count_search rest content ;;
      Ok ((if m then 1 else 0) + n)%nat
  end.

(** [detect_format] from the check for code on; [content] is stripped. *)
Definition detect_signals (content : pystr) : result FormatType :=
  is_code <- any_match code_patterns content ;;
  if is_code then Ok CODE
  else
    md_count <- count_search md_patterns content ;;
    if (2 <=? md_count)%nat then Ok MARKDOWN else Ok TEXT.

(** [detect_format(content)] *)
Definition detect_format (content : pystr) : result FormatType :=
  let content := strip content in
  if startswith (py "{") content || startswith (py "[") content
  then
    match json_loads content with
    | Ok _ => Ok JSON
    | Raise (JSONDecodeError _ _ _ _) => detect_signals content
    | Raise e => Raise e
    end
  else detect_signals content.

Definition required_fields : list pystr :=
  [py "id"; py "name"; py "data"; py "value"; py "type"].

Definition consider_adding (missing : list pystr) : list pystr :=
  match missing with
  | [] => []
  | _ => [py "Consider adding: " ++ join (py ", ") (firstn 3 missing)]
  end.

(** [score_completeness(content, format_type)] *)
Definition score_completeness (content : pystr) (format_type : FormatType)
  : result (Q * pystr) :=
  match format_type with
  | JSON =>
      match json_loads content with
      | Ok (JDict data) =>
          let found := count_if (fun f => dict_has f data) required_fields in
          let score := qn found / qn (List.length required_fields) in
          if Qltb score 1
          then
            let missing :=
              filter (fun f => negb (dict_has f data)) required_fields in
            Ok (finish score
                  [py "Missing common fields: " ++ repr_list (firstn 3 missing)]
                  "Complete")
          else Ok (finish score [] "Complete")
      | Ok (JList data) =>
          let score := if (0 <? List.length data)%nat then 1 else 0 in
          Ok (finish score
                (if (List.length data =? 0)%nat then [py "Empty array"] else [])
                "Complete")
      | Ok _ => Ok (finish 0.5 [py "JSON structure is minimal"] "Complete")
      | Raise _ => Ok (finish 0 [py "Invalid JSON structure"] "Complete")
      end
  | MARKDOWN =>
      header <- re_search "^#{1,6}\s+" content flag_M ;;
      breaks <- re_findall "\n\n" content no_flags ;;
      bullets <- re_search "^[-*+]\s+" content flag_M ;;
      link <- re_search "\[.*\]\(.*\)" content no_flags ;;
      code <- re_search "```" content no_flags ;;
      let elements :=
        [ (py "header", header);
          (py "paragraph", (0 <? List.length breaks)%nat);
          (py "list", bullets);
          (py "link", link);
          (py "code", code) ] in
      let score :=
        qn (count_true (map snd elements)) / qn (List.length elements) in
      let missing := map fst (filter (fun kv => negb (snd kv)) elements) in
      Ok (finish score (consider_adding missing) "Complete")
  | CODE =>
      functions <- re_search "def |function |func " content no_flags ;;
      comments <- re_search "#|//|/\*|\*/" content no_flags ;;
      returns <- re_search "return|yield" content no_flags ;;
      let checks :=
        [ (py "structure", (5 <? List.length (split [NL] content))%nat);
          (py "functions", functions);
          (py "comments", comments);
          (py "returns", returns) ] in
      let score :=
        qn (count_true (map snd checks)) / qn (List.length checks) in
      let missing := map fst (filter (fun kv => negb (snd kv)) checks) in
      Ok (finish score (consider_adding missing) "Complete")
  | TEXT =>
      let words := List.length (split_ws content) in
      parts <- re_split "[.!?]+" content ;;
      let sentences := List.length parts in
      let paragraphs := List.length (split [NL; NL] content) in
      let word_score := pymin 1 (qn words / 100) in
      let sentence_score := pymin 1 (qn sentences / 5) in
      let paragraph_score := pymin 1 (qn paragraphs / 2) in
      let score := (word_score + sentence_score + paragraph_score) / 3 in
      Ok (finish score
            (if (words <? 50)%nat
             then [py "Content seems brief, consider expanding"] else [])
            "Complete")
  end.

(** The loop of [score_format_compliance] over the lines of code. *)
Definition indent_types (lines : list pystr) : list pystr :=
  fold_left
    (fun types line =>
       match line with
       | c :: _ =>
           if negb (isspace c) then types
           else if startswith (py "    ") line then set_add (py "spaces") types
           else if startswith [9%N] line then set_add (py "tabs") types
           else types
       | [] => types
       end) lines [].

(** [score_format_compliance(content, format_type)] *)
Definition score_format_compliance (content : pystr) (format_type : FormatType)
  : result (Q * pystr) :=
  let score := 1 in
  match format_type with
  | JSON =>
      match json_loads content with
      | Ok _ =>
          if contains [NL] content && negb (startswith [123%N; NL] content)
          then Ok (finish_floor (score - 0.1)
                     [py "Consider using consistent formatting"]
                     "Format compliant")
          else Ok (finish_floor score [] "Format compliant")
      | Raise (JSONDecodeError _ _ _ _ as e) =>
          Ok (finish_floor 0
                [py "JSON parse error: " ++ firstn 50 (exn_str e)]
                "Format compliant")
      | Raise e => Raise e
      end
  | MARKDOWN =>
      headers <- re_findall "^#{1,6}[^\s#]" content flag_M ;;
      let '(score, issues) :=
        if nonempty_list headers
        then (score - 0.2, [py "Headers need space after #"])
        else (score, []) in
      let code_blocks := count (py "```") content in
      let '(score, issues) :=
        if negb (Nat.eqb (code_blocks mod 2) 0)
        then (score - 0.3, issues ++ [py "Unclosed code block"])
        else (score, issues) in
      broken_links <- re_findall "\[([^\]]*)\]\(\s*\)" content no_flags ;;
      let '(score, issues) :=
        if nonempty_list broken_links
        then (score - 0.1, issues ++ [py "Empty links found"])
        else (score, issues) in
      Ok (finish_floor score issues "Format compliant")
  | CODE =>
      let lines := split [NL] content in
      let '(score, feedback) :=
        if (1 <? List.length (indent_types lines))%nat
        then (score - 0.2, [py "Mixed tabs and spaces"])
        else (score, []) in
      let trailing :=
        count_if (fun l => match last_char l with
                           | Some c => N.eqb c 32
                           | None => false
                           end) lines in
      let '(score, feedback) :=
        if Qltb (qn (List.length lines) * 0.1) (qn trailing)
        then (score - 0.1, feedback ++ [py "Trailing whitespace detected"])
        else (score, feedback) in
      Ok (finish_floor score feedback "Format compliant")
  | TEXT =>
      let '(score, issues) :=
        if contains (py "  ") content
        then (score - 0.1, [py "Multiple consecutive spaces"])
        else (score, []) in
      sentences <- re_split "[.!?]" content ;;
      if (1 <? List.length sentences)%nat
      then
        endings <- re_findall "[.!?]\s+[A-Z]" content no_flags ;;
        let proper_endings := List.length endings in
        let '(score, issues) :=
          if Qltb (qn proper_endings) (qn (List.length sentences) * 0.5)
          then (score - 0.1, issues ++ [py "Inconsistent sentence endings"])
          else (score, issues) in
        Ok (finish_floor score issues "Format compliant")
      else Ok (finish_floor score issues "Format compliant")
  end.

(** [score_coverage(content, format_type)] *)
Definition score_coverage (content : pystr) (format_type : FormatType)
  : result (Q * pystr) :=
  let word_count := List.length (split_ws content) in
  match format_type with
  | JSON =>
      match json_loads content with
      | Ok (JDict data) =>
          let key_count := List.length data in
          let depth := get_dict_depth (JDict data) 0 in
          let score := pymin 1 (qn key_count / 10 + qn depth / 5) / 2 in
          Ok (finish score [] "Good coverage")
      | Ok (JList data) =>
          Ok (finish (pymin 1 (qn (List.length data) / 10)) [] "Good coverage")
      | Ok _ => Ok (finish 0.5 [] "Good coverage")
      | Raise _ => Ok (finish 0 [] "Good coverage")
      end
  | CODE =>
      fs <- re_findall "def |function |func " content no_flags ;;
      cs <- re_findall "class " content no_flags ;;
      vs <- re_findall "\b(var|let|const|int|string|float)\s+\w+" content
              no_flags ;;
      let functions := List.length fs in
      let classes := List.length cs in
      let variables := List.length vs in
      let total := qn (functions + classes * 2) + qn variables / 5 in
      let score := pymin 1 (total / 10) in
      Ok (finish score
            (if Nat.eqb functions 0 && Nat.eqb classes 0
             then [py "No functions or classes found"] else [])
            "Good coverage")
  | MARKDOWN =>
      ss <- re_findall "^#{1,6}\s+" content flag_M ;;
      ls <- re_findall "\[.*\]\(.*\)" content no_flags ;;
      imgs <- re_findall "!\[.*\]\(.*\)" content no_flags ;;
      let sections := List.length ss in
      let links := List.length ls in
      let images := List.length imgs in
      let code_blocks := (count (py "```") content / 2)%nat in
      let total :=
        qn sections + qn links / 2 + qn images + qn code_blocks in
      let score := pymin 1 (total / 8) in
      Ok (finish score [] "Good coverage")
  | TEXT =>
      let words := split_ws (str_lower content) in
      let unique_words := List.length (distinct words) in
      let diversity :=
        qn unique_words / qn (Nat.max 1 (List.length words)) in
      let length_score := pymin 1 (qn word_count / 200) in
      let score := (diversity + length_score) / 2 in
      Ok (finish score
            (if Qltb diversity 0.3 then [py "Low vocabulary diversity"] else [])
            "Good coverage")
  end.

(** [sum(len(l) for l in lines)] *)
Definition total_length (lines : list pystr) : nat :=
  fold_left (fun n l => (n + List.length l)%nat) lines 0%nat.

Definition is_blank (l : pystr) : bool := negb (nonempty (strip l)).

(** [score_clarity(content, format_type)] *)
Definition score_clarity (content : pystr) (format_type : FormatType)
  : result (Q * pystr) :=
  let score := 1 in
  let lines := split [NL] content in
  let avg_line_len :=
    qn (total_length lines) / qn (Nat.max 1 (List.length lines)) in
  let '(score, feedback) :=
    if Qltb 100 avg_line_len
    then (score - 0.2, [py "Long lines reduce readability"])
    else (score, []) in
  let blank_lines := count_if is_blank lines in
  let '(score, feedback) :=
    if Qltb (qn blank_lines) (qn (List.length lines) * 0.1)
    then (score - 0.1, feedback ++ [py "Add more paragraph breaks"])
    else (score, feedback) in
  let paragraphs := split [NL; NL] content in
  let long_paras :=
    count_if (fun p => (100 <? List.length (split_ws p))%nat) paragraphs in
  let '(score, feedback) :=
    if (0 <? long_paras)%nat
    then (score - 0.1 * qn long_paras,
          feedback ++ [py "Break up long paragraphs"])
    else (score, feedback) in
  '(score, feedback) <-
    match format_type with
    | CODE =>
        cl <- re_findall "^\s*(#|//|/\*|\*/)" content flag_M ;;
        let comment_lines := List.length cl in
        let total_lines := count_if (fun l => negb (is_blank l)) lines in
        if (10 <? total_lines)%nat
           && Qltb (qn comment_lines) (qn total_lines * 0.1)
        then Ok (score - 0.2, feedback ++ [py "Add more code comments"])
        else Ok (score, feedback)
    | _ => Ok (score, feedback)
    end ;;
  abbreviations <- re_findall "\b[A-Z]{2,}\b" content no_flags ;;
  let feedback :=
    if (10 <? List.length abbreviations)%nat
    then feedback ++ [py "Many abbreviations - consider defining them"]
    else feedback in
  Ok (finish_floor score feedback "Clear and readable").

(** The loop of [score_validity] over the first imports: one penalty for
    each name that does not occur again after its first occurrence. *)
Definition unused_imports (content : pystr) (imports : list pystr)
  (score : Q) (issues : list pystr) : Q * list pystr :=
  fold_left
    (fun '(score, issues) imp =>
       let after :=
         slice_from (find imp content + Z.of_nat (List.length imp)) content in
       if negb (contains imp after)
       then (score - 0.05, issues ++ [py "Potentially unused: " ++ imp])
       else (score, issues))
    (firstn 5 imports) (score, issues).

(** [sum(1 for i in range(len(words)-1) if words[i] == words[i+1])] *)
Fixpoint repeated_words (words : list pystr) : nat :=
  match words with
  | a :: (b :: _) as rest =>
      ((if eqb a b then 1 else 0) + repeated_words rest)%nat
  | _ => 0%nat
  end.

(** [score_validity(content, format_type)] *)
Definition score_validity (content : pystr) (format_type : FormatType)
  : result (Q * pystr) :=
  let score := 1 in
  match format_type with
  | JSON =>
      match json_loads content with
      | Ok data =>
          let null_count := count_nulls data in
          if (0 <? null_count)%nat
          then Ok (finish_floor (score - 0.1 * qn (Nat.min null_count 5))
                     [py "Found " ++ str_of_nat null_count
                         ++ py " null/empty values"]
                     "Valid")
          else Ok (finish_floor score [] "Valid")
      | Raise (JSONDecodeError _ _ _ _ as e) =>
          Ok (finish_floor 0 [py "Invalid JSON: " ++ firstn 50 (exn_str e)]
                "Valid")
      | Raise e => Raise e
      end
  | CODE =>
      let open_brackets :=
        (count (py "(") content + count (py "[") content
         + count (py "{") content)%nat in
      let close_brackets :=
        (count (py ")") content + count (py "]") content
         + count (py "}") content)%nat in
      let '(score, issues) :=
        if negb (Nat.eqb open_brackets close_brackets)
        then (score - 0.3, [py "Mismatched brackets"])
        else (score, []) in
      empty_block <- re_search "\{\s*\}" content no_flags ;;
      let '(score, issues) :=
        if empty_block
        then (score - 0.1, issues ++ [py "Empty code blocks"])
        else (score, issues) in
      imports <- re_findall "import\s+(\w+)" content no_flags ;;
      let '(score, issues) := unused_imports content imports score issues in
      Ok (finish_floor score issues "Valid")
  | MARKDOWN =>
      let asterisks := count (py "**") content in
      let '(score, issues) :=
        if negb (Nat.eqb (asterisks mod 2) 0)
        then (score - 0.2, [py "Unclosed bold formatting"])
        else (score, []) in
      broken <- re_search "\]\([^)]*$" content flag_M ;;
      let '(score, issues) :=
        if broken
        then (score - 0.2, issues ++ [py "Broken link syntax"])
        else (score, issues) in
      Ok (finish_floor score issues "Valid")
  | TEXT =>
      let words := split_ws (str_lower content) in
      let repeated := repeated_words words in
      let '(score, issues) :=
        if (2 <? repeated)%nat
        then (score - 0.1, [py "Repeated words found"])
        else (score, []) in
      typos <- re_search "\b(teh|adn|taht|wiht)\b" (str_lower content)
                 no_flags ;;
      let '(score, issues) :=
        if typos
        then (score - 0.1, issues ++ [py "Possible typos detected"])
        else (score, issues) in
      Ok (finish_floor score issues "Valid")
  end.

(** The [dimensions] of [score_submission], in the order of the [dict]. *)
Definition dimensions
  : list (pystr * (pystr -> FormatType -> result (Q * pystr))) :=
  [ (py "completeness", score_completeness);
    (py "format_compliance", score_format_compliance);
    (py "coverage", score_coverage);
    (py "clarity", score_clarity);
    (py "validity", score_validity) ].

(** [DIMENSION_WEIGHTS[dim_name]] *)
Fixpoint lookup (table : list (pystr * Q)) (key : pystr) : result Q :=
  match table with
  | [] => Raise (KeyError key)
  | (k, v) :: rest => if eqb key k then Ok v else lookup rest key
  end.

(** The feedback markers that [score_submission] does not report. *)
Definition reported (feedback : pystr) : bool :=
  nonempty feedback
  && negb (eqb feedback (py "Complete"))
  && negb (eqb feedback (py "Format compliant"))
  && negb (eqb feedback (py "Good coverage"))
  && negb (eqb feedback (py "Clear and readable"))
  && negb (eqb feedback (py "Valid")).

(** The loop of [score_submission] over the dimensions; the state is
    [scores], [feedback_list] and [weighted_sum]. *)
Fixpoint score_dimensions
  (dims : list (pystr * (pystr -> FormatType -> result (Q * pystr))))
  (content : pystr) (format_type : FormatType)
  (state : list (pystr * Q) * list pystr * Q)
  : result (list (pystr * Q) * list pystr * Q) :=
  match dims with
  | [] => Ok state
  | (dim_name, scorer) :: rest =>
      let '(scores, feedback_list, weighted_sum) := state in
      '(score, feedback) <- scorer content format_type ;;
      let scores := dict_set dim_name score scores in
      let feedback_list :=
        if reported feedback
        then feedback_list ++ [dim_name ++ py ": " ++ feedback]
        else feedback_list in
      weight <- lookup DIMENSION_WEIGHTS dim_name ;;
      score_dimensions rest content format_type
        (scores, feedback_list, weighted_sum + score * weight)
  end.

(** [score_submission] once the format is known. *)
Definition score_as (content : pystr) (format_type : FormatType)
  (threshold : Q) : result ScoringResult :=
  '(scores, feedback_list, weighted_sum) <-
    score_dimensions dimensions content format_type ([], [], 0) ;;
  let weighted_score := round3 weighted_sum in
  Ok {| weighted_score := weighted_score;
        quality_rating := get_quality_rating weighted_score;
        scores := scores;
        feedback := match feedback_list with
                    | [] => [py "All dimensions satisfactory"]
                    | _ => feedback_list
                    end;
        pass_threshold := Qle_bool threshold weighted_score;
        format_detected := FormatType_value format_type |}.

(** [score_submission(content, pass_threshold)] *)
Definition score_submission (content : pystr) (threshold : Q)
  : result ScoringResult :=
  format_type <- detect_format content ;;
  score_as content format_type threshold.

(** [score_batch(submissions, pass_threshold)]: the list comprehension. *)
Fixpoint score_batch (submissions : list pystr) (threshold : Q)
  : result (list ScoringResult) :=
  match submissions with
  | [] => Ok []
  | s :: rest =>
      r <- score_submission s threshold ;;
      rs <- score_batch rest threshold ;;
      Ok (r :: rs)
  end.

End WithEngine.

End Scorer.
Export Scorer.

(** ** The limits of the interpreter

    [json.loads], [get_dict_depth] and [count_nulls] recurse once for each
    level of nesting, and Python raises [RecursionError] when the depth of
    its stack passes [sys.getrecursionlimit()], 1000 by default:
    [json.loads] on about a thousand nested containers, [get_dict_depth],
    which takes several frames a level, on a few hundred nested mappings.
    From version 3.11 [json.loads] also raises [ValueError] on an integer
    literal of more than [sys.int_info.default_max_str_digits] digits.
    Neither error is a [json.JSONDecodeError]: the bare [except] of
    [score_completeness] and [score_coverage] swallows them, the other
    handlers let them through.

    The functions of this file recurse and convert without limit.  A
    submission is [within_limits] when it has at most 100 opening brackets,
    so that nothing in it is nested deeper than 100 levels, a tenth of the
    default limit, and no run of more than 4300 digits: on such a
    submission the program meets neither error. *)

Module Limits.

Local Open Scope nat_scope.

(** The nesting the statements allow for. *)
Definition NESTING_ROOM : nat := 100.

(** [sys.int_info.default_max_str_digits] *)
Definition INT_MAX_STR_DIGITS : nat := 4300.

(** The number of opening braces and brackets: no value of the text is
    nested deeper. *)
Definition opening_brackets (content : pystr) : nat :=
  count (py "{") content + count (py "[") content.

(** The length of the longest run of decimal digits; [cur] is the length
    of the run being read. *)
Fixpoint digit_runs (cur longest : nat) (s : pystr) : nat :=
  match s with
  | [] => Nat.max cur longest
  | c :: t =>
      if is_digit c then digit_runs (S cur) longest t
      else digit_runs 0 (Nat.max cur longest) t
  end.

Definition longest_digit_run (content : pystr) : nat :=
  digit_runs 0 0 content.

Definition within_limits (content : pystr) : bool :=
  (opening_brackets content <=? NESTING_ROOM)
  && (longest_digit_run content <=? INT_MAX_STR_DIGITS).

(** What a character adds to [opening_brackets]. *)
Definition opens (c : pychar) : nat :=
  (if (c =? 123)%N then 1 else 0) + (if (c =? 91)%N then 1 else 0).

(** The levels of containers in a document: the depth the decoder and
    [count_nulls] recurse to on it, and a bound of the depth
    [get_dict_depth] recurses to. *)
Fixpoint nesting (v : json) : nat :=
  match v with
  | JList items => S (fold_right Nat.max 0 (map nesting items))
  | JDict pairs =>
      S (fold_right Nat.max 0 (map (fun kv => nesting (snd kv)) pairs))
  | _ => 0
  end.

End Limits.
Export Limits.

(** ** The vocabulary of the specification *)

Module Spec.

Local Open Scope Q_scope.

(** A scorer returns a score of the unit interval. *)
Definition unit_score (r : result (Q * pystr)) : Prop :=
  exists score feedback, r = Ok (score, feedback) /\ 0 <= score <= 1.

(** The sum [score_submission] accumulates over its five dimensions. *)
Definition weighted (s1 s2 s3 s4 s5 : Q) : Q :=
  0 + s1 * 0.30 + s2 * 0.20 + s3 * 0.25 + s4 * 0.15 + s5 * 0.10.

Definition unit_interval (q : Q) : Prop := 0 <= q <= 1.

(** The score of a dimension in the [scores] of a result. *)
Fixpoint score_of (scores : list (pystr * Q)) (dimension : pystr)
  : option Q :=
  match scores with
  | [] => None
  | (k, v) :: rest => if eqb dimension k then Some v else score_of rest dimension
  end.

(** The tier of a rating: its height in the rating table, the last entry
    being tier 0. *)
Fixpoint tier_in (table : list (Q * pystr)) (rating : pystr) : nat :=
  match table with
  | [] => 0%nat
  | (_, label) :: rest =>
      if eqb rating label then List.length rest else tier_in rest rating
  end.

Definition tier (rating : pystr) : nat := tier_in QUALITY_RATINGS rating.

(** [rating] is the label of the first entry of [table] whose threshold is
    at most [score], or "Poor" when there is none. *)
Definition first_entry (table : list (Q * pystr)) (score : Q)
  (rating : pystr) : Prop :=
  (exists before threshold after,
      table = before ++ (threshold, rating) :: after
      /\ threshold <= score
      /\ Forall (fun entry => score < fst entry) before)
  \/ (rating = py "Poor" /\ Forall (fun entry => score < fst entry) table).

(** Coverage of a mapping as the specification words it: the average of
    the two ratios, each capped at 1 before averaging. *)
Definition coverage_of_capped_ratios (key_count depth : nat) : Q :=
  (Qmin 1 (qn key_count / 10) + Qmin 1 (qn depth / 5)) / 2.

(** The count of null or empty values as the specification words it: a
    null, an empty string or an empty container counts wherever it is a
    value of a mapping or an item of a sequence, and other containers are
    walked. *)
Definition is_empty_value (v : json) : bool :=
  match v with
  | JNull | JStr [] | JList [] | JDict [] => true
  | _ => false
  end.

Fixpoint count_empty_values (data : json) : nat :=
  match data with
  | JNull => 1%nat
  | JDict pairs =>
      fold_left
        (fun count '(_, v) =>
           if is_empty_value v then (count + 1)%nat
           else (count + count_empty_values v)%nat) pairs 0%nat
  | JList items =>
      fold_left
        (fun count item =>
           if is_empty_value item then (count + 1)%nat
           else (count + count_empty_values item)%nat) items 0%nat
  | _ => 0%nat
  end.

(** The submissions of the scenarios. *)
Definition five_fields : pystr :=
  jq "{'id':'1','name':'Test','value':100,'type':'example','data':{}}".

Definition ten_keys : pystr :=
  jq "{'a':1,'b':2,'c':3,'d':4,'e':5,'f':6,'g':7,'h':8,'i':9,'j':10}".

Definition empty_mapping_value : pystr := jq "{'a': {}}".

Definition hello_code : pystr := py "def hello():" ++ [NL] ++ py "    pass".

Definition broken_mapping : pystr := jq "{'a':".

(** The error every pattern search of [detect_format] ends in. *)
Definition unterminated_group : exn :=
  ReError (py "missing ), unterminated subpattern") 4.

End Spec.
Export Spec.

(** ** Notions used to state the further properties *)

Module Notions.

Local Open Scope Q_scope.

(** The keys of [dimensions], in the order of the [dict]. *)
Definition dimension_names : list pystr :=
  [py "completeness"; py "format_compliance"; py "coverage"; py "clarity";
   py "validity"].

(** What the loop of [score_submission] appends to [feedback_list] for a
    dimension that answered [fb]. *)
Definition entry (name fb : pystr) : list pystr :=
  if reported fb then [name ++ py ": " ++ fb] else [].

(** A multiple of one thousandth. *)
Definition on_grid (q : Q) : Prop := exists z : Z, q == z # 1000.

(** A scorer returns a score on the grid of thousandths. *)
Definition grid_score (r : result (Q * pystr)) : Prop :=
  exists s fb, r = Ok (s, fb) /\ on_grid s.

(** What the penalties of [score_format_compliance] and [score_validity]
    add up to at most, taken from 1. *)
Definition format_compliance_floor (ft : FormatType) : Q :=
  match ft with
  | JSON => 0.9 | MARKDOWN => 0.4 | CODE => 0.7 | TEXT => 0.8
  end.

Definition validity_floor (ft : FormatType) : Q :=
  match ft with
  | JSON => 0.5 | MARKDOWN => 0.6 | CODE => 0.35 | TEXT => 0.8
  end.

(** [isinstance(data, (dict, list))] *)
Definition is_container (v : json) : bool :=
  match v with JDict _ | JList _ => true | _ => false end.

Fixpoint unique_keys (keys : list pystr) : bool :=
  match keys with
  | [] => true
  | k :: rest => negb (existsb (eqb k) rest) && unique_keys rest
  end.

(** No mapping of the document holds a key twice. *)
Fixpoint keys_distinct (v : json) : bool :=
  match v with
  | JList items => forallb keys_distinct items
  | JDict pairs =>
      unique_keys (map fst pairs)
      && forallb (fun kv => keys_distinct (snd kv)) pairs
  | _ => true
  end.

(** Induction on a document, with the hypothesis on every item of a
    sequence and on every value of a mapping. *)
Section JsonInduction.
Variable P : json -> Prop.
Hypothesis Hnull : P JNull.
Hypothesis Hbool : forall b, P (JBool b).
Hypothesis Hint : forall z, P (JInt z).
Hypothesis Hfloat : forall f, P (JFloat f).
Hypothesis Hstr : forall s, P (JStr s).
Hypothesis Hlist : forall items, Forall P items -> P (JList items).
Hypothesis Hdict :
  forall pairs, Forall (fun kv => P (snd kv)) pairs -> P (JDict pairs).

Fixpoint json_nested_ind (v : json) : P v :=
  match v with
  | JNull => Hnull
  | JBool b => Hbool b
  | JInt z => Hint z
  | JFloat f => Hfloat f
  | JStr s => Hstr s
  | JList items =>
      Hlist items
        ((fix go (l : list json) : Forall P l :=
            match l with
            | [] => Forall_nil P
            | x :: t => Forall_cons x (json_nested_ind x) (go t)
            end) items)
  | JDict pairs =>
      Hdict pairs
        ((fix go (l : list (pystr * json))
            : Forall (fun kv => P (snd kv)) l :=
            match l with
            | [] => Forall_nil _
            | kv :: t => Forall_cons kv (json_nested_ind (snd kv)) (go t)
            end) pairs)
  end.

End JsonInduction.

(** Submissions for the examples: a form feed before a mapping, which
    [strip] removes and the decoder refuses; sequences; a null value; a key
    written twice; a mapping between margins of whitespace. *)
Definition form_feed_mapping : pystr := 12%N :: jq "{'a':1}".

Definition three_items : pystr := py "[1, 2, 3]".

Definition ten_items : pystr := py "[1,2,3,4,5,6,7,8,9,10]".

Definition null_value : pystr := jq "{'a': null}".

Definition repeated_key : pystr := jq "{'a':1,'a':2}".

Definition left_margin : pystr := py "  ".

Definition right_margin : pystr := [NL].

End Notions.
Export Notions.

(** * Properties *)

(** ** Rounding and the arithmetic of scores *)

Section Rounding.

Local Open Scope Z_scope.

Lemma round_half_even_lower (n : Z) (d : positive) :
  n / Zpos d <= round_half_even n d.
Proof.
  unfold round_half_even.
  destruct (2 * (n mod Zpos d) ?= Zpos d); try lia.
  destruct (Z.even (n / Zpos d)); lia.
Qed.

Lemma round_half_even_upper (n : Z) (d : positive) :
  round_half_even n d <= n / Zpos d + 1.
Proof.
  unfold round_half_even.
  destruct (2 * (n mod Zpos d) ?= Zpos d); try lia.
  destruct (Z.even (n / Zpos d)); lia.
Qed.

(** A multiple of the denominator is not moved. *)
Lemma round_half_even_exact (n : Z) (d : positive) :
  n mod Zpos d = 0 -> round_half_even n d = n / Zpos d.
Proof.
  intros H. unfold round_half_even. rewrite H.
  replace (2 * 0 ?= Zpos d) with Lt; [reflexivity | symmetry].
  apply Z.compare_lt_iff. lia.
Qed.

Lemma round_half_even_ge (n k : Z) (d : positive) :
  k * Zpos d <= n -> k <= round_half_even n d.
Proof.
  intros H.
  apply Z.le_trans with (n / Zpos d); [| apply round_half_even_lower].
  apply Z.div_le_lower_bound; lia.
Qed.

Lemma round_half_even_le (n k : Z) (d : positive) :
  n <= k * Zpos d -> round_half_even n d <= k.
Proof.
  intros H.
  assert (Hd : n / Zpos d <= k).
  { apply Z.div_le_upper_bound; lia. }
  destruct (Z.eq_dec (n / Zpos d) k) as [Heq | Hne].
  - assert (Hm : n mod Zpos d = 0).
    { pose proof (Z.div_mod n (Zpos d) ltac:(lia)) as Hdm.
      pose proof (Z.mod_pos_bound n (Zpos d) ltac:(lia)) as Hb.
      rewrite Heq in Hdm. lia. }
    rewrite round_half_even_exact by exact Hm. lia.
  - pose proof (round_half_even_upper n d). lia.
Qed.

End Rounding.

Section ScoreArithmetic.

Local Open Scope Q_scope.

(** [round(q, 3)] stays on the same side of every multiple of 1/1000. *)
Lemma round3_ge (q : Q) (k : Z) : k # 1000 <= q -> k # 1000 <= round3 q.
Proof.
  intros H. unfold round3. rewrite Qred_correct.
  unfold Qle in *. cbn [Qnum Qden] in *.
  apply Z.mul_le_mono_nonneg_r; [lia |].
  apply round_half_even_ge. lia.
Qed.

Lemma round3_le (q : Q) (k : Z) : q <= k # 1000 -> round3 q <= k # 1000.
Proof.
  intros H. unfold round3. rewrite Qred_correct.
  unfold Qle in *. cbn [Qnum Qden] in *.
  apply Z.mul_le_mono_nonneg_r; [lia |].
  apply round_half_even_le. lia.
Qed.

Lemma round3_exact (q : Q) (k : Z) : q == k # 1000 -> round3 q == k # 1000.
Proof.
  intros H. apply Qle_antisym.
  - apply round3_le. rewrite H. apply Qle_refl.
  - apply round3_ge. rewrite H. apply Qle_refl.
Qed.

Lemma round3_unit (q : Q) : 0 <= q <= 1 -> 0 <= round3 q <= 1.
Proof.
  intros [H0 H1]. split.
  - apply Qle_trans with (0 # 1000); [discriminate |].
    apply round3_ge. apply Qle_trans with 0; [discriminate | exact H0].
  - apply Qle_trans with (1000 # 1000); [| discriminate].
    apply round3_le. apply Qle_trans with 1; [exact H1 | discriminate].
Qed.

Lemma Qltb_true (a b : Q) : Qltb a b = true <-> a < b.
Proof.
  unfold Qltb. rewrite negb_true_iff, <- not_true_iff_false, Qle_bool_iff.
  split; [apply Qnot_le_lt | apply Qlt_not_le].
Qed.

Lemma Qltb_false (a b : Q) : Qltb a b = false <-> b <= a.
Proof.
  unfold Qltb. rewrite negb_false_iff. apply Qle_bool_iff.
Qed.

Lemma pymin_spec (a b : Q) : pymin a b == Qmin a b.
Proof.
  unfold pymin. destruct (Qltb b a) eqn:H.
  - apply Qltb_true in H. symmetry. apply Q.min_r. apply Qlt_le_weak, H.
  - apply Qltb_false in H. symmetry. apply Q.min_l. exact H.
Qed.

Lemma pymax_spec (a b : Q) : pymax a b == Qmax a b.
Proof.
  unfold pymax. destruct (Qltb a b) eqn:H.
  - apply Qltb_true in H. symmetry. apply Q.max_r. apply Qlt_le_weak, H.
  - apply Qltb_false in H. symmetry. apply Q.max_l. exact H.
Qed.

Lemma pymin_unit (x : Q) : 0 <= x -> 0 <= pymin 1 x <= 1.
Proof.
  intros H. unfold pymin. destruct (Qltb x 1) eqn:Hc.
  - apply Qltb_true in Hc. split; [exact H | apply Qlt_le_weak, Hc].
  - split; discriminate.
Qed.

Lemma pymax_floor (x : Q) : x <= 1 -> 0 <= pymax 0 x <= 1.
Proof.
  intros H. unfold pymax. destruct (Qltb 0 x) eqn:Hc.
  - apply Qltb_true in Hc. split; [apply Qlt_le_weak, Hc | exact H].
  - split; discriminate.
Qed.

Lemma qn_nonneg (n : nat) : 0 <= qn n.
Proof. unfold qn, Qle. cbn. lia. Qed.

Lemma qn_le (n m : nat) : (n <= m)%nat -> qn n <= qn m.
Proof. intros H. unfold qn, Qle. cbn. lia. Qed.

Lemma qn_pos (n : nat) : (0 < n)%nat -> 0 < qn n.
Proof. intros H. unfold qn, Qlt. cbn. lia. Qed.

(** A count out of a total is a fraction of the unit interval. *)
Lemma fraction_unit (n m : nat) :
  (n <= m)%nat -> (0 < m)%nat -> 0 <= qn n / qn m <= 1.
Proof.
  intros Hle Hpos. pose proof (qn_pos m Hpos) as Hm.
  pose proof (qn_nonneg n) as Hn. pose proof (qn_le n m Hle) as Hnm.
  split.
  - apply Qle_shift_div_l; [exact Hm |]. rewrite Qmult_0_l. exact Hn.
  - apply Qle_shift_div_r; [exact Hm |]. rewrite Qmult_1_l. exact Hnm.
Qed.

Lemma div_nonneg (x c : Q) : 0 < c -> 0 <= x -> 0 <= x / c.
Proof.
  intros Hc Hx. apply Qle_shift_div_l; [exact Hc |].
  rewrite Qmult_0_l. exact Hx.
Qed.

Lemma div_unit (x c : Q) : 0 < c -> 0 <= x <= c -> 0 <= x / c <= 1.
Proof.
  intros Hc [H0 H1]. split; [apply div_nonneg; assumption |].
  apply Qle_shift_div_r; [exact Hc |]. rewrite Qmult_1_l. exact H1.
Qed.

Lemma half_unit (x : Q) : 0 <= x <= 1 -> 0 <= x / 2 <= 1 # 2.
Proof.
  intros [H0 H1]. split; [apply div_nonneg; [reflexivity | exact H0] |].
  apply Qle_shift_div_r; [reflexivity |].
  apply Qle_trans with 1; [exact H1 | discriminate].
Qed.

Lemma qn_div_nonneg (n : nat) (c : Q) : 0 < c -> 0 <= qn n / c.
Proof. intros Hc. apply div_nonneg; [exact Hc | apply qn_nonneg]. Qed.

End ScoreArithmetic.

(** ** The fuel of the decoder

    The scanner of [json.loads] recurses on fuel.  A successful scan
    consumes text, so the fuel [json_loads] gives is never used up: any
    larger amount yields the same answer. *)

Section DecoderFuel.

Local Open Scope nat_scope.

Lemma skip_ws_length (s : pystr) (pos : nat) :
  List.length (fst (skip_ws s pos)) <= List.length s.
Proof.
  revert pos. induction s as [| c t IH]; intros pos; cbn [skip_ws].
  - cbn. lia.
  - destruct (is_ws c); cbn [fst List.length].
    + specialize (IH (S pos)). lia.
    + lia.
Qed.

Lemma scanstring_shorter (fuel : nat) (s : pystr) (pos begin : nat)
  (acc str rest : pystr) (p : nat) :
  scanstring fuel s pos begin acc = inr (str, rest, p) ->
  List.length rest < List.length s.
Proof.
  revert s pos acc.
  induction fuel as [| f IH]; intros s pos acc; cbn [scanstring];
    [discriminate |].
  destruct s as [| c t]; [discriminate |].
  destruct (c =? 34)%N.
  { intros [= _ <- _]. cbn. lia. }
  destruct (c =? 92)%N.
  - destruct t as [| e t']; [discriminate |].
    destruct (e =? 117)%N.
    + destruct (Nat.leb _ 4); [discriminate |].
      destruct (hex4 t'); [| discriminate].
      pose proof (length_skipn 4 t') as L4.
      destruct (_ && _ && _).
      * destruct (hex4 _); [| discriminate].
        pose proof (length_skipn 6 (skipn 4 t')) as L6.
        destruct (_ && _); intros H; apply IH in H; cbn [List.length]; lia.
      * intros H; apply IH in H; cbn [List.length]; lia.
    + destruct (escape_char e); [| discriminate].
      intros H; apply IH in H; cbn [List.length]; lia.
  - destruct (c <=? 31)%N; [discriminate |].
    intros H; apply IH in H; cbn [List.length]; lia.
Qed.

Lemma scanstring_fuel (f1 f2 : nat) (s : pystr) (pos begin : nat)
  (acc : pystr) :
  List.length s <= f1 -> List.length s <= f2 ->
  scanstring f1 s pos begin acc = scanstring f2 s pos begin acc.
Proof.
  revert f2 s pos acc.
  induction f1 as [| f1 IH]; intros f2 s pos acc H1 H2.
  - destruct s; [| cbn in H1; lia]. destruct f2; reflexivity.
  - destruct f2 as [| f2].
    + destruct s; [reflexivity | cbn in H2; lia].
    + cbn [scanstring].
      destruct s as [| c t]; [reflexivity |]. cbn [List.length] in H1, H2.
      destruct (c =? 34)%N; [reflexivity |].
      destruct (c =? 92)%N.
      * destruct t as [| e t']; [reflexivity |]. cbn [List.length] in H1, H2.
        destruct (e =? 117)%N.
        -- destruct (Nat.leb _ 4); [reflexivity |].
           destruct (hex4 t'); [| reflexivity].
           pose proof (length_skipn 4 t') as L4.
           destruct (_ && _ && _).
           ++ destruct (hex4 _); [| reflexivity].
              pose proof (length_skipn 6 (skipn 4 t')) as L6.
              destruct (_ && _); apply IH; lia.
           ++ apply IH; lia.
        -- destruct (escape_char e); [| reflexivity]. apply IH; lia.
      * destruct (c <=? 31)%N; [reflexivity |]. apply IH; lia.
Qed.

Lemma take_digits_length (s acc : pystr) :
  List.length (snd (take_digits s acc)) <= List.length s.
Proof.
  revert acc. induction s as [| c t IH]; intros acc; cbn [take_digits].
  - cbn. lia.
  - destruct (is_digit c); cbn [snd List.length]; [| lia].
    specialize (IH (c :: acc)). lia.
Qed.

Lemma match_number_shorter (s : pystr) (pos : nat) (v : json) (rest : pystr)
  (p : nat) :
  match_number s pos = inr (v, rest, p) -> List.length rest < List.length s.
Proof.
  unfold match_number. cbv zeta.
  match goal with
  | |- (let '(neg, s1) := ?X in _) = _ -> _ =>
      destruct X as [neg s1] eqn:Hs1
  end.
  assert (Hsign : List.length s1 <= List.length s).
  { destruct s as [| c t]; [injection Hs1 as _ <-; lia |].
    destruct (c =? 45)%N; injection Hs1 as _ <-; cbn; lia. }
  match goal with
  | |- match ?X with Some _ => _ | None => _ end = _ -> _ =>
      destruct X as [[ids s2] |] eqn:Hs2; [| discriminate]
  end.
  assert (Hint : List.length s2 < List.length s1).
  { destruct s1 as [| c t]; [discriminate |].
    destruct (c =? 48)%N; [injection Hs2 as _ <-; cbn; lia |].
    destruct (is_digit c) eqn:Hd; [| discriminate].
    cbn [take_digits] in Hs2. rewrite Hd in Hs2.
    pose proof (take_digits_length t [c]) as L.
    destruct (take_digits t [c]) as [a b]. injection Hs2 as _ <-.
    cbn [snd List.length] in *. lia. }
  match goal with
  | |- (let '(fds, s3) := ?X in _) = _ -> _ =>
      destruct X as [fds s3] eqn:Hs3
  end.
  assert (Hfrac : List.length s3 <= List.length s2).
  { destruct s2 as [| c [| d t]]; try (injection Hs3 as _ <-; lia).
    destruct (_ && _); [| injection Hs3 as _ <-; lia].
    pose proof (take_digits_length (skipn 1 (c :: d :: t)) []) as L.
    rewrite Hs3 in L. cbn [snd skipn List.length] in L.
    cbn [List.length]. lia. }
  match goal with
  | |- match ?X with (_, _) => _ end = _ -> _ =>
      destruct X as [[[has_exp eneg] eds] s4] eqn:Hs4
  end.
  assert (Hexp : List.length s4 <= List.length s3).
  { destruct s3 as [| c t]; [injection Hs4 as _ _ _ <-; lia |].
    destruct (_ || _)%N; [| injection Hs4 as _ _ _ <-; lia].
    assert (Hgen : forall (en : bool) (t1 : pystr),
               List.length t1 <= List.length t ->
               (let '(ds, t2) := take_digits t1 [] in
                match ds with
                | [] => (false, false, [], c :: t)
                | _ => (true, en, ds, t2)
                end) = (has_exp, eneg, eds, s4) ->
               List.length s4 <= List.length (c :: t)).
    { intros en t1 Ht1 H.
      pose proof (take_digits_length t1 []) as L.
      destruct (take_digits t1 []) as [ds t2]. cbn [snd] in L.
      destruct ds; injection H as _ _ _ <-; cbn [List.length]; lia. }
    destruct t as [| sg [| x t']].
    - apply (Hgen false []); [cbn; lia | exact Hs4].
    - apply (Hgen false [sg]); [cbn; lia | exact Hs4].
    - destruct (sg =? 45)%N.
      + apply (Hgen true (x :: t')); [cbn; lia | exact Hs4].
      + destruct (sg =? 43)%N.
        * apply (Hgen false (x :: t')); [cbn; lia | exact Hs4].
        * apply (Hgen false (sg :: x :: t')); [cbn; lia | exact Hs4]. }
  destruct fds, has_exp; intros [= _ <- _]; lia.
Qed.

Lemma keyword_shorter (name : string) (v w : json) (s rest : pystr)
  (pos p : nat) :
  0 < List.length (py name) ->
  keyword name v s pos = Some (inr (w, rest, p)) ->
  List.length rest < List.length s.
Proof.
  unfold keyword. intros Hn.
  destruct (startswith (py name) s) eqn:Hst; [| discriminate].
  intros [= _ <- _]. rewrite length_skipn.
  assert (List.length (py name) <= List.length s).
  { clear Hn. revert s Hst. induction (py name) as [| a l IH]; intros s Hst.
    - cbn. lia.
    - destruct s as [| c t]; [discriminate |]. cbn [startswith] in Hst.
      apply andb_prop in Hst. destruct Hst as [_ Hst].
      apply IH in Hst. cbn [List.length]. lia. }
  lia.
Qed.

Lemma skip_ws_shorter (s s' : pystr) (pos p : nat) :
  skip_ws s pos = (s', p) -> List.length s' <= List.length s.
Proof.
  intros H. pose proof (skip_ws_length s pos) as L. rewrite H in L. exact L.
Qed.

(** A successful scan consumes text. *)
Lemma scan_shorter (f : nat) :
  (forall s pos v rest p,
      scan_once f s pos = inr (v, rest, p) ->
      List.length rest < List.length s)
  /\ (forall d s pos v rest p,
         object_loop f d s pos = inr (v, rest, p) ->
         List.length rest < List.length s)
  /\ (forall acc s pos v rest p,
         array_loop f acc s pos = inr (v, rest, p) ->
         List.length rest < List.length s).
Proof.
  induction f as [| f (IHs & IHo & IHa)].
  { repeat split; intros; discriminate. }
  split; [| split].
  - intros s pos v rest p. cbn [scan_once].
    destruct s as [| c t]; [discriminate |].
    destruct (c =? 34)%N.
    { destruct (scanstring _ t (S pos) pos []) as [e | [[str r] q]] eqn:Hstr;
        [discriminate |].
      intros [= _ <- _]. apply scanstring_shorter in Hstr. cbn. lia. }
    destruct (c =? 123)%N.
    { destruct (skip_ws t (S pos)) as [s1 p1] eqn:Hw.
      apply skip_ws_shorter in Hw.
      destruct s1 as [| c1 t1].
      - intros H. apply IHo in H. cbn in *. lia.
      - destruct (c1 =? 125)%N.
        + intros [= _ <- _]. cbn in *. lia.
        + intros H. apply IHo in H. cbn in *. lia. }
    destruct (c =? 91)%N.
    { destruct (skip_ws t (S pos)) as [s1 p1] eqn:Hw.
      apply skip_ws_shorter in Hw.
      destruct s1 as [| c1 t1].
      - intros H. apply IHa in H. cbn in *. lia.
      - destruct (c1 =? 93)%N.
        + intros [= _ <- _]. cbn in *. lia.
        + intros H. apply IHa in H. cbn in *. lia. }
    repeat match goal with
           | |- match keyword ?n ?w ?s ?q with Some _ => _ | None => _ end = _
                -> _ =>
               let Hk := fresh "Hk" in
               destruct (keyword n w s q) as [r |] eqn:Hk;
               [intros ->; apply keyword_shorter in Hk;
                [exact Hk | cbn; lia] |]
           end.
    apply match_number_shorter.
  - intros d s pos v rest p. cbn [object_loop].
    destruct s as [| c t]; [discriminate |].
    destruct (c =? 34)%N; [| discriminate].
    destruct (scanstring _ t (S pos) pos []) as [e | [[key s1] p1]] eqn:Hstr;
      [discriminate |].
    apply scanstring_shorter in Hstr.
    destruct (skip_ws s1 p1) as [s2 p2] eqn:Hw2. apply skip_ws_shorter in Hw2.
    destruct s2 as [| c2 t2]; [discriminate |].
    destruct (c2 =? 58)%N; [| discriminate].
    destruct (skip_ws t2 (S p2)) as [s3 p3] eqn:Hw3.
    apply skip_ws_shorter in Hw3.
    destruct (scan_once f s3 p3) as [e | [[w s4] p4]] eqn:Hv; [discriminate |].
    apply IHs in Hv.
    destruct (skip_ws s4 p4) as [s5 p5] eqn:Hw5. apply skip_ws_shorter in Hw5.
    destruct s5 as [| c5 t5]; [discriminate |].
    destruct (c5 =? 125)%N.
    { intros [= _ <- _]. cbn in *. lia. }
    destruct (c5 =? 44)%N; [| discriminate].
    destruct (skip_ws t5 (S p5)) as [s6 p6] eqn:Hw6.
    apply skip_ws_shorter in Hw6.
    intros H. apply IHo in H. cbn in *. lia.
  - intros acc s pos v rest p. cbn [array_loop].
    destruct (scan_once f s pos) as [e | [[w s1] p1]] eqn:Hv; [discriminate |].
    apply IHs in Hv.
    destruct (skip_ws s1 p1) as [s2 p2] eqn:Hw2. apply skip_ws_shorter in Hw2.
    destruct s2 as [| c2 t2]; [discriminate |].
    destruct (c2 =? 93)%N.
    { intros [= _ <- _]. cbn in *. lia. }
    destruct (c2 =? 44)%N; [| discriminate].
    destruct (skip_ws t2 (S p2)) as [s3 p3] eqn:Hw3.
    apply skip_ws_shorter in Hw3.
    intros H. apply IHa in H. cbn in *. lia.
Qed.

(** Beyond twice the length of the text, fuel makes no difference. *)
Lemma scan_fuel (n : nat) :
  (forall s pos f1 f2,
      List.length s <= n -> 2 * n + 1 <= f1 -> 2 * n + 1 <= f2 ->
      scan_once f1 s pos = scan_once f2 s pos)
  /\ (forall d s pos f1 f2,
         List.length s <= n -> 2 * n + 2 <= f1 -> 2 * n + 2 <= f2 ->
         object_loop f1 d s pos = object_loop f2 d s pos)
  /\ (forall acc s pos f1 f2,
         List.length s <= n -> 2 * n + 2 <= f1 -> 2 * n + 2 <= f2 ->
         array_loop f1 acc s pos = array_loop f2 acc s pos).
Proof.
  induction n as [| n (IHs & IHo & IHa)].
  - split; [| split].
    + intros s pos [| f1] [| f2] Hs H1 H2; try lia.
      destruct s; [reflexivity | cbn in Hs; lia].
    + intros d s pos [| f1] [| f2] Hs H1 H2; try lia.
      destruct s; [reflexivity | cbn in Hs; lia].
    + intros acc s pos [| f1] [| f2] Hs H1 H2; try lia.
      destruct s; [| cbn in Hs; lia].
      cbn [array_loop]. destruct f1, f2; try lia. reflexivity.
  - assert (Hscan : forall s pos f1 f2,
               List.length s <= S n -> 2 * S n + 1 <= f1 -> 2 * S n + 1 <= f2 ->
               scan_once f1 s pos = scan_once f2 s pos).
    { intros s pos [| f1] [| f2] Hs H1 H2; try lia.
      cbn [scan_once].
      destruct s as [| c t]; [reflexivity |]. cbn [List.length] in Hs.
      destruct (c =? 34)%N; [reflexivity |].
      destruct (c =? 123)%N.
      { destruct (skip_ws t (S pos)) as [s1 p1] eqn:Hw.
        apply skip_ws_shorter in Hw.
        destruct s1 as [| c1 t1]; [apply IHo; cbn; lia |].
        destruct (c1 =? 125)%N; [reflexivity | apply IHo; lia]. }
      destruct (c =? 91)%N.
      { destruct (skip_ws t (S pos)) as [s1 p1] eqn:Hw.
        apply skip_ws_shorter in Hw.
        destruct s1 as [| c1 t1]; [apply IHa; cbn; lia |].
        destruct (c1 =? 93)%N; [reflexivity | apply IHa; lia]. }
      reflexivity. }
    split; [exact Hscan | split].
    + intros d s pos [| f1] [| f2] Hs H1 H2; try lia.
      cbn [object_loop].
      destruct s as [| c t]; [reflexivity |]. cbn [List.length] in Hs.
      destruct (c =? 34)%N; [| reflexivity].
      destruct (scanstring _ t (S pos) pos []) as [e | [[key s1] p1]] eqn:Hstr;
        [reflexivity |].
      apply scanstring_shorter in Hstr.
      destruct (skip_ws s1 p1) as [s2 p2] eqn:Hw2.
      apply skip_ws_shorter in Hw2.
      destruct s2 as [| c2 t2]; [reflexivity |]. cbn [List.length] in Hw2.
      destruct (c2 =? 58)%N; [| reflexivity].
      destruct (skip_ws t2 (S p2)) as [s3 p3] eqn:Hw3.
      apply skip_ws_shorter in Hw3.
      rewrite (IHs s3 p3 f1 f2) by lia.
      destruct (scan_once f2 s3 p3) as [e | [[w s4] p4]] eqn:Hv;
        [reflexivity |].
      apply scan_shorter in Hv.
      destruct (skip_ws s4 p4) as [s5 p5] eqn:Hw5.
      apply skip_ws_shorter in Hw5.
      destruct s5 as [| c5 t5]; [reflexivity |]. cbn [List.length] in Hw5.
      destruct (c5 =? 125)%N; [reflexivity |].
      destruct (c5 =? 44)%N; [| reflexivity].
      destruct (skip_ws t5 (S p5)) as [s6 p6] eqn:Hw6.
      apply skip_ws_shorter in Hw6.
      apply IHo; lia.
    + intros acc s pos [| f1] [| f2] Hs H1 H2; try lia.
      cbn [array_loop].
      rewrite (Hscan s pos f1 f2) by lia.
      destruct (scan_once f2 s pos) as [e | [[w s1] p1]] eqn:Hv;
        [reflexivity |].
      apply scan_shorter in Hv.
      destruct (skip_ws s1 p1) as [s2 p2] eqn:Hw2.
      apply skip_ws_shorter in Hw2.
      destruct s2 as [| c2 t2]; [reflexivity |]. cbn [List.length] in Hw2.
      destruct (c2 =? 93)%N; [reflexivity |].
      destruct (c2 =? 44)%N; [| reflexivity].
      destruct (skip_ws t2 (S p2)) as [s3 p3] eqn:Hw3.
      apply skip_ws_shorter in Hw3.
      apply IHa; lia.
Qed.

Lemma json_loads_fuel (doc : pystr) (fuel : nat) :
  2 * List.length doc + 2 <= fuel ->
  json_loads_with fuel doc = json_loads doc.
Proof.
  intros Hf. unfold json_loads, json_loads_with.
  destruct (startswith _ doc); [reflexivity |].
  destruct (skip_ws doc 0) as [s0 p0] eqn:Hw. apply skip_ws_shorter in Hw.
  rewrite (proj1 (scan_fuel (List.length doc)) s0 p0 fuel
             (2 * List.length doc + 2)) by lia.
  reflexivity.
Qed.

End DecoderFuel.

(** ** The decoder raises nothing but [JSONDecodeError] *)

Lemma json_loads_raises (doc : pystr) (e : exn) :
  json_loads doc = Raise e ->
  exists msg lineno colno pos, e = JSONDecodeError msg lineno colno pos.
Proof.
  unfold json_loads, json_loads_with, decode_error.
  destruct (startswith _ doc).
  - intros [= <-]. repeat eexists.
  - destruct (skip_ws doc 0) as [s0 p0].
    destruct (scan_once _ s0 p0) as [[msg pos] | [[v s1] p1]].
    + intros [= <-]. repeat eexists.
    + destruct (skip_ws s1 p1) as [[| c s2] p2]; [discriminate |].
      intros [= <-]. repeat eexists.
Qed.

(** ** Patterns that compile, and the one that does not *)

Section Patterns.
Context {E : Engine}.

Lemma re_match_total (p : string) (c : pystr) (fl : re_flags) :
  is_ok (sre_parse p) = true -> exists b, re_match p c fl = Ok b.
Proof.
  unfold re_match. destruct (sre_parse p); [eexists; reflexivity | discriminate].
Qed.

Lemma re_search_total (p : string) (c : pystr) (fl : re_flags) :
  is_ok (sre_parse p) = true -> exists b, re_search p c fl = Ok b.
Proof.
  unfold re_search. destruct (sre_parse p); [eexists; reflexivity | discriminate].
Qed.

Lemma re_findall_total (p : string) (c : pystr) (fl : re_flags) :
  is_ok (sre_parse p) = true -> exists l, re_findall p c fl = Ok l.
Proof.
  unfold re_findall. destruct (sre_parse p); [eexists; reflexivity | discriminate].
Qed.

Lemma re_split_total (p : string) (c : pystr) :
  is_ok (sre_parse p) = true -> exists l, re_split p c = Ok l.
Proof.
  unfold re_split. destruct (sre_parse p); [eexists; reflexivity | discriminate].
Qed.

(** The first of [code_patterns] has a group that is never closed. *)
Lemma first_code_pattern_invalid :
  sre_parse "^\s*(def |class |function |import |from |#include |package |func "
  = Raise unterminated_group.
Proof. vm_compute. reflexivity. Qed.

(** The other patterns of [detect_format] compile. *)
Lemma other_detect_patterns_valid :
  forallb (fun p => is_ok (sre_parse p)) (tl code_patterns ++ md_patterns)
  = true.
Proof. vm_compute. reflexivity. Qed.

(** So the search for code raises on every content, before any matching. *)
Lemma any_match_code_raises (content : pystr) :
  any_match code_patterns content = Raise unterminated_group.
Proof.
  unfold code_patterns. cbn [any_match]. unfold re_match.
  rewrite first_code_pattern_invalid. reflexivity.
Qed.

Lemma detect_signals_raises (content : pystr) :
  detect_signals content = Raise unterminated_group.
Proof.
  unfold detect_signals. rewrite any_match_code_raises. reflexivity.
Qed.

End Patterns.

(** Replace the calls of [re] on a pattern that compiles by their result. *)
Ltac run_re :=
  repeat
    match goal with
    | |- context [re_search ?p ?c ?fl] =>
        let H := fresh in
        destruct (re_search_total p c fl ltac:(vm_compute; reflexivity))
          as [? H]; rewrite H; clear H; cbn [bind]
    | |- context [re_findall ?p ?c ?fl] =>
        let H := fresh in
        destruct (re_findall_total p c fl ltac:(vm_compute; reflexivity))
          as [? H]; rewrite H; clear H; cbn [bind]
    | |- context [re_split ?p ?c] =>
        let H := fresh in
        destruct (re_split_total p c ltac:(vm_compute; reflexivity))
          as [? H]; rewrite H; clear H; cbn [bind]
    end.

(** ** Every scorer returns a score of the unit interval *)

Section Ranges.
Context {E : Engine}.

Local Open Scope Q_scope.

Lemma unit_finish (score : Q) (fb : list pystr) (clear : string) :
  0 <= score <= 1 -> unit_score (Ok (finish score fb clear)).
Proof.
  intros H. unfold unit_score, finish.
  eexists; eexists; split; [reflexivity | apply round3_unit, H].
Qed.

Lemma unit_finish_floor (score : Q) (fb : list pystr) (clear : string) :
  score <= 1 -> unit_score (Ok (finish_floor score fb clear)).
Proof.
  intros H. unfold finish_floor. apply unit_finish, pymax_floor, H.
Qed.

Lemma count_if_le {A : Type} (f : A -> bool) (l : list A) :
  (count_if f l <= List.length l)%nat.
Proof. unfold count_if. apply filter_length_le. Qed.

Lemma count_true_le (l : list bool) : (count_true l <= List.length l)%nat.
Proof. unfold count_true. apply filter_length_le. Qed.

Lemma distinct_le (l : list pystr) :
  (List.length (distinct l) <= List.length l)%nat.
Proof.
  induction l as [| x t IH]; cbn [distinct List.length]; [lia |].
  destruct (existsb (eqb x) t); cbn [List.length]; lia.
Qed.

Lemma unused_imports_le (content : pystr) (imports : list pystr) (score : Q)
  (issues : list pystr) :
  fst (unused_imports content imports score issues) <= score.
Proof.
  unfold unused_imports. generalize (firstn 5 imports) as l. intros l.
  revert score issues.
  induction l as [| imp t IH]; intros score issues; cbn [fold_left fst].
  - apply Qle_refl.
  - destruct (negb _).
    + eapply Qle_trans; [apply IH |]. lra.
    + apply IH.
Qed.

Lemma score_completeness_unit (content : pystr) (ft : FormatType) :
  unit_score (score_completeness content ft).
Proof.
  destruct ft; unfold score_completeness.
  - destruct (json_loads content) as [[| | | | | items | data] |];
      try (apply unit_finish; lra).
    + destruct (0 <? List.length items)%nat; apply unit_finish; lra.
    + assert (H : 0 <= qn (count_if (fun f => dict_has f data) required_fields)
                       / qn (List.length required_fields) <= 1).
      { apply fraction_unit; [apply count_if_le | cbn; lia]. }
      destruct (Qltb _ 1); apply unit_finish; exact H.
  - run_re. apply unit_finish.
    apply fraction_unit; [apply count_true_le | cbn; lia].
  - run_re. apply unit_finish.
    apply fraction_unit; [apply count_true_le | cbn; lia].
  - run_re. apply unit_finish.
    match goal with
    | |- _ <= (pymin 1 (qn ?a / _) + pymin 1 (qn ?b / _)
               + pymin 1 (qn ?c / _)) / 3 <= _ =>
        pose proof (pymin_unit _ (qn_div_nonneg a 100 eq_refl));
        pose proof (pymin_unit _ (qn_div_nonneg b 5 eq_refl));
        pose proof (pymin_unit _ (qn_div_nonneg c 2 eq_refl))
    end.
    apply div_unit; [reflexivity | lra].
Qed.

(** Case analysis on the tests that guard the penalties. *)
Ltac split_tests :=
  repeat match goal with
         | |- context [if ?c then _ else _] => destruct c
         end.

Lemma score_format_compliance_unit (content : pystr) (ft : FormatType) :
  unit_score (score_format_compliance content ft).
Proof.
  destruct ft; unfold score_format_compliance.
  - destruct (json_loads content) as [data | e] eqn:Hdoc.
    + split_tests; apply unit_finish_floor; lra.
    + destruct (json_loads_raises content e Hdoc) as (m & l & c & p & ->).
      apply unit_finish_floor; lra.
  - run_re. split_tests; apply unit_finish_floor; lra.
  - split_tests; apply unit_finish_floor; lra.
  - run_re. split_tests; run_re; split_tests; apply unit_finish_floor; lra.
Qed.

Lemma score_coverage_unit (content : pystr) (ft : FormatType) :
  unit_score (score_coverage content ft).
Proof.
  destruct ft; unfold score_coverage.
  - destruct (json_loads content) as [[| | | | | items | data] |];
      try (apply unit_finish; lra).
    + apply unit_finish, pymin_unit, qn_div_nonneg. reflexivity.
    + apply unit_finish.
      match goal with
      | |- _ <= pymin 1 (qn ?k / _ + qn ?d / _) / 2 <= _ =>
          pose proof (qn_div_nonneg k 10 eq_refl);
          pose proof (qn_div_nonneg d 5 eq_refl)
      end.
      match goal with
      | |- _ <= pymin 1 ?x / 2 <= _ =>
          assert (Hx : 0 <= x) by lra;
          pose proof (half_unit _ (pymin_unit x Hx))
      end.
      lra.
  - run_re. apply unit_finish, pymin_unit.
    apply div_nonneg; [reflexivity |].
    match goal with
    | |- 0 <= qn ?a + qn ?b / 2 + qn ?c + qn ?d =>
        pose proof (qn_nonneg a); pose proof (qn_div_nonneg b 2 eq_refl);
        pose proof (qn_nonneg c); pose proof (qn_nonneg d)
    end.
    lra.
  - run_re. apply unit_finish, pymin_unit.
    apply div_nonneg; [reflexivity |].
    match goal with
    | |- 0 <= qn ?a + qn ?b / 5 =>
        pose proof (qn_nonneg a); pose proof (qn_div_nonneg b 5 eq_refl)
    end.
    lra.
  - apply unit_finish.
    match goal with
    | |- _ <= (qn ?u / qn ?m + pymin 1 (qn ?w / _)) / 2 <= _ =>
        assert (Hd : 0 <= qn u / qn m <= 1) by
          (apply fraction_unit;
           [eapply Nat.le_trans; [apply distinct_le | apply Nat.le_max_r]
           | apply Nat.lt_le_trans with 1%nat; [lia | apply Nat.le_max_l]]);
        pose proof (pymin_unit _ (qn_div_nonneg w 200 eq_refl))
    end.
    apply div_unit; [reflexivity | lra].
Qed.

Lemma score_clarity_unit (content : pystr) (ft : FormatType) :
  unit_score (score_clarity content ft).
Proof.
  unfold score_clarity.
  pose proof (qn_nonneg
    (count_if (fun p => (100 <? List.length (split_ws p))%nat)
       (split [NL; NL] content))) as Hlong.
  destruct ft; split_tests; cbv beta iota zeta; cbn [bind]; run_re;
    split_tests; cbn [bind]; run_re; split_tests;
    apply unit_finish_floor; lra.
Qed.

Lemma score_validity_unit (content : pystr) (ft : FormatType) :
  unit_score (score_validity content ft).
Proof.
  destruct ft; unfold score_validity.
  - destruct (json_loads content) as [data | e] eqn:Hdoc.
    + pose proof (qn_nonneg (Nat.min (count_nulls data) 5)).
      split_tests; apply unit_finish_floor; lra.
    + destruct (json_loads_raises content e Hdoc) as (m & l & c & p & ->).
      apply unit_finish_floor; lra.
  - run_re. split_tests; run_re; split_tests; apply unit_finish_floor; lra.
  - split_tests; cbv beta iota zeta; run_re; split_tests; cbv beta iota zeta;
      run_re;
      match goal with
      | |- context [unused_imports ?c ?i ?s0 ?is0] =>
          pose proof (unused_imports_le c i s0 is0);
          destruct (unused_imports c i s0 is0) as [score issues]
      end;
      cbn [fst] in *; apply unit_finish_floor; lra.
  - split_tests; cbv beta iota zeta; run_re; split_tests;
      apply unit_finish_floor; lra.
Qed.

Lemma weighted_unit (s1 s2 s3 s4 s5 : Q) :
  0 <= s1 <= 1 -> 0 <= s2 <= 1 -> 0 <= s3 <= 1 -> 0 <= s4 <= 1 ->
  0 <= s5 <= 1 -> 0 <= weighted s1 s2 s3 s4 s5 <= 1.
Proof. unfold weighted. intros. lra. Qed.

Lemma score_as_value (content : pystr) (ft : FormatType) (thr : Q)
  (s1 s2 s3 s4 s5 : Q) (f1 f2 f3 f4 f5 : pystr) :
  score_completeness content ft = Ok (s1, f1) ->
  score_format_compliance content ft = Ok (s2, f2) ->
  score_coverage content ft = Ok (s3, f3) ->
  score_clarity content ft = Ok (s4, f4) ->
  score_validity content ft = Ok (s5, f5) ->
  exists r,
    score_as content ft thr = Ok r
    /\ weighted_score r = round3 (weighted s1 s2 s3 s4 s5)
    /\ scores r = [ (py "completeness", s1); (py "format_compliance", s2);
                    (py "coverage", s3); (py "clarity", s4);
                    (py "validity", s5) ]
    /\ format_detected r = FormatType_value ft
    /\ pass_threshold r = Qle_bool thr (weighted_score r)
    /\ quality_rating r = get_quality_rating (weighted_score r).
Proof.
  intros H1 H2 H3 H4 H5.
  unfold score_as, dimensions. cbn [score_dimensions].
  rewrite H1. cbn [bind].
  change (lookup DIMENSION_WEIGHTS (py "completeness")) with (Ok 0.30).
  cbn [bind]. rewrite H2. cbn [bind].
  change (lookup DIMENSION_WEIGHTS (py "format_compliance")) with (Ok 0.20).
  cbn [bind]. rewrite H3. cbn [bind].
  change (lookup DIMENSION_WEIGHTS (py "coverage")) with (Ok 0.25).
  cbn [bind]. rewrite H4. cbn [bind].
  change (lookup DIMENSION_WEIGHTS (py "clarity")) with (Ok 0.15).
  cbn [bind]. rewrite H5. cbn [bind].
  change (lookup DIMENSION_WEIGHTS (py "validity")) with (Ok 0.10).
  cbn [bind].
  eexists. split; [reflexivity |].
  cbn [weighted_score scores format_detected pass_threshold quality_rating].
  repeat split. 
Qed.

End Ranges.

(** ** Detection *)

Section Detection.
Context {E : Engine}.

(** [detect_format] classifies a submission as JSON or raises. *)
Lemma detect_format_cases (content : pystr) :
  detect_format content = Ok JSON
  \/ detect_format content = Raise unterminated_group.
Proof.
  unfold detect_format. rewrite detect_signals_raises.
  destruct (_ || _); [| right; reflexivity].
  destruct (json_loads (strip content)) as [v | e] eqn:H; [left; reflexivity |].
  destruct (json_loads_raises _ _ H) as (m & l & c & p & ->).
  right; reflexivity.
Qed.

Lemma detect_format_json (content : pystr) :
  detect_format content = Ok JSON <->
  startswith (py "{") (strip content) || startswith (py "[") (strip content)
  = true
  /\ is_ok (json_loads (strip content)) = true.
Proof.
  unfold detect_format. rewrite detect_signals_raises.
  destruct (_ || _).
  - destruct (json_loads (strip content)) as [v | e] eqn:H.
    + split; [intros _; split; reflexivity | reflexivity].
    + destruct (json_loads_raises _ _ H) as (m & l & c & p & ->).
      split; [discriminate | intros [_ [=]]].
  - split; [discriminate | intros [[=] _]].
Qed.

(** What the stages after the JSON check can answer. *)
Lemma detect_signals_answer (content : pystr) (ft : FormatType) :
  detect_signals content = Ok ft ->
  (ft = CODE /\ any_match code_patterns content = Ok true)
  \/ (any_match code_patterns content = Ok false
      /\ exists n, count_search md_patterns content = Ok n
                   /\ ((ft = MARKDOWN /\ 2 <= n) \/ (ft = TEXT /\ n < 2)))%nat.
Proof.
  unfold detect_signals.
  destruct (any_match code_patterns content) as [[|] | e]; cbn [bind].
  - intros [= <-]. left. split; reflexivity.
  - destruct (count_search md_patterns content) as [n | e]; cbn [bind].
    + destruct (2 <=? n)%nat eqn:Hn; intros [= <-]; right;
        (split; [reflexivity |]); exists n; (split; [reflexivity |]).
      * left. split; [reflexivity | apply Nat.leb_le, Hn].
      * right. split; [reflexivity | apply Nat.leb_gt, Hn].
    + discriminate.
  - discriminate.
Qed.

End Detection.

(** ** Within the limits, recursion is shallow

    The opening brackets of a text bound the nesting of what the decoder
    returns from it, and with it the depth to which [json.loads],
    [get_dict_depth] and [count_nulls] recurse. *)

Section Nesting.

Local Open Scope nat_scope.

Lemma opening_brackets_cons (c : pychar) (t : pystr) :
  opening_brackets (c :: t) = opens c + opening_brackets t.
Proof.
  unfold opening_brackets, opens, count.
  change (py "{") with [123%N]. change (py "[") with [91%N].
  cbn [count_aux startswith List.length Nat.sub].
  rewrite !andb_true_r, (N.eqb_sym 123 c), (N.eqb_sym 91 c).
  destruct (c =? 123)%N, (c =? 91)%N; lia.
Qed.

Lemma opening_brackets_nil : opening_brackets [] = 0.
Proof. reflexivity. Qed.

Lemma opening_brackets_skipn (n : nat) (s : pystr) :
  opening_brackets (skipn n s) <= opening_brackets s.
Proof.
  revert s. induction n as [| n IH]; intros [| c t]; cbn [skipn];
    try lia.
  rewrite opening_brackets_cons. specialize (IH t). lia.
Qed.

Lemma skip_ws_brackets (s s' : pystr) (pos p : nat) :
  skip_ws s pos = (s', p) -> opening_brackets s' <= opening_brackets s.
Proof.
  revert pos. induction s as [| c t IH]; intros pos; cbn [skip_ws].
  - intros [= <- _]. lia.
  - destruct (is_ws c).
    + intros H. apply IH in H. rewrite opening_brackets_cons. lia.
    + intros [= <- _]. lia.
Qed.

Lemma scanstring_brackets (fuel : nat) (s : pystr) (pos begin : nat)
  (acc str rest : pystr) (p : nat) :
  scanstring fuel s pos begin acc = inr (str, rest, p) ->
  opening_brackets rest <= opening_brackets s.
Proof.
  revert s pos acc.
  induction fuel as [| f IH]; intros s pos acc; cbn [scanstring];
    [discriminate |].
  destruct s as [| c t]; [discriminate |].
  rewrite opening_brackets_cons.
  destruct (c =? 34)%N.
  { intros [= _ <- _]. lia. }
  destruct (c =? 92)%N.
  - destruct t as [| e t']; [discriminate |].
    rewrite opening_brackets_cons.
    destruct (e =? 117)%N.
    + destruct (Nat.leb _ 4); [discriminate |].
      destruct (hex4 t'); [| discriminate].
      pose proof (opening_brackets_skipn 4 t') as L4.
      destruct (_ && _ && _).
      * destruct (hex4 _); [| discriminate].
        pose proof (opening_brackets_skipn 6 (skipn 4 t')) as L6.
        destruct (_ && _); intros H; apply IH in H; lia.
      * intros H; apply IH in H; lia.
    + destruct (escape_char e); [| discriminate].
      intros H; apply IH in H; lia.
  - destruct (c <=? 31)%N; [discriminate |].
    intros H; apply IH in H; lia.
Qed.

Lemma take_digits_brackets (s acc : pystr) :
  opening_brackets (snd (take_digits s acc)) <= opening_brackets s.
Proof.
  revert acc. induction s as [| c t IH]; intros acc; cbn [take_digits].
  - cbn [snd]. lia.
  - rewrite opening_brackets_cons.
    destruct (is_digit c); cbn [snd]; [| rewrite opening_brackets_cons; lia].
    specialize (IH (c :: acc)). lia.
Qed.

Lemma match_number_brackets (s : pystr) (pos : nat) (v : json) (rest : pystr)
  (p : nat) :
  match_number s pos = inr (v, rest, p) ->
  opening_brackets rest <= opening_brackets s /\ nesting v = 0.
Proof.
  unfold match_number. cbv zeta.
  match goal with
  | |- (let '(neg, s1) := ?X in _) = _ -> _ =>
      destruct X as [neg s1] eqn:Hs1
  end.
  assert (Hsign : opening_brackets s1 <= opening_brackets s).
  { destruct s as [| c t]; [injection Hs1 as _ <-; lia |].
    rewrite opening_brackets_cons.
    destruct (c =? 45)%N; injection Hs1 as _ <-;
      rewrite ?opening_brackets_cons; lia. }
  match goal with
  | |- match ?X with Some _ => _ | None => _ end = _ -> _ =>
      destruct X as [[ids s2] |] eqn:Hs2; [| discriminate]
  end.
  assert (Hint : opening_brackets s2 <= opening_brackets s1).
  { destruct s1 as [| c t]; [discriminate |].
    rewrite opening_brackets_cons.
    destruct (c =? 48)%N; [injection Hs2 as _ <-; lia |].
    destruct (is_digit c) eqn:Hd; [| discriminate].
    cbn [take_digits] in Hs2. rewrite Hd in Hs2.
    pose proof (take_digits_brackets t [c]) as L.
    destruct (take_digits t [c]) as [a b]. injection Hs2 as _ <-.
    cbn [snd] in *. lia. }
  match goal with
  | |- (let '(fds, s3) := ?X in _) = _ -> _ =>
      destruct X as [fds s3] eqn:Hs3
  end.
  assert (Hfrac : opening_brackets s3 <= opening_brackets s2).
  { destruct s2 as [| c [| d t]]; try (injection Hs3 as _ <-; lia).
    destruct (_ && _); [| injection Hs3 as _ <-; lia].
    pose proof (take_digits_brackets (skipn 1 (c :: d :: t)) []) as L.
    rewrite Hs3 in L. cbn [snd skipn] in L.
    rewrite (opening_brackets_cons c). lia. }
  match goal with
  | |- match ?X with (_, _) => _ end = _ -> _ =>
      destruct X as [[[has_exp eneg] eds] s4] eqn:Hs4
  end.
  assert (Hexp : opening_brackets s4 <= opening_brackets s3).
  { destruct s3 as [| c t]; [injection Hs4 as _ _ _ <-; lia |].
    destruct (_ || _)%N; [| injection Hs4 as _ _ _ <-; lia].
    assert (Hgen : forall (en : bool) (t1 : pystr),
               opening_brackets t1 <= opening_brackets t ->
               (let '(ds, t2) := take_digits t1 [] in
                match ds with
                | [] => (false, false, [], c :: t)
                | _ => (true, en, ds, t2)
                end) = (has_exp, eneg, eds, s4) ->
               opening_brackets s4 <= opening_brackets (c :: t)).
    { intros en t1 Ht1 H.
      pose proof (take_digits_brackets t1 []) as L.
      destruct (take_digits t1 []) as [ds t2]. cbn [snd] in L.
      destruct ds; injection H as _ _ _ <-;
        rewrite ?(opening_brackets_cons c); lia. }
    destruct t as [| sg [| x t']].
    - apply (Hgen false []); [lia | exact Hs4].
    - apply (Hgen false [sg]); [lia | exact Hs4].
    - destruct (sg =? 45)%N.
      + apply (Hgen true (x :: t'));
          [rewrite (opening_brackets_cons sg); lia | exact Hs4].
      + destruct (sg =? 43)%N.
        * apply (Hgen false (x :: t'));
            [rewrite (opening_brackets_cons sg); lia | exact Hs4].
        * apply (Hgen false (sg :: x :: t')); [lia | exact Hs4]. }
  destruct fds, has_exp; intros [= <- <- _]; split; try reflexivity; lia.
Qed.

Lemma keyword_brackets (name : string) (v w : json) (s rest : pystr)
  (pos p : nat) :
  keyword name v s pos = Some (inr (w, rest, p)) ->
  opening_brackets rest <= opening_brackets s /\ w = v.
Proof.
  unfold keyword.
  destruct (startswith (py name) s); [| discriminate].
  intros [= <- <- _]. split; [apply opening_brackets_skipn | reflexivity].
Qed.

Lemma max_nesting_bound {A : Type} (f : A -> nat) (l : list A) (r K : nat) :
  r <= K -> Forall (fun x => f x + r <= K) l ->
  fold_right Nat.max 0 (map f l) + r <= K.
Proof.
  intros Hr H. induction H as [| x t Hx _ IH]; cbn [map fold_right]; lia.
Qed.

Lemma dict_set_Forall (P : json -> Prop) (k : pystr) (v : json)
  (d : list (pystr * json)) :
  P v -> Forall (fun kv => P (snd kv)) d ->
  Forall (fun kv => P (snd kv)) (dict_set k v d).
Proof.
  intros Hv H. induction H as [| [k' v'] t Hx Ht IH]; cbn [dict_set].
  - constructor; [exact Hv | constructor].
  - destruct (eqb k k'); constructor; assumption.
Qed.

(** A scan reads at least as many opening brackets as its value has levels
    of nesting. *)
Lemma scan_nesting (f : nat) :
  (forall s pos v rest p,
      scan_once f s pos = inr (v, rest, p) ->
      nesting v + opening_brackets rest <= opening_brackets s)
  /\ (forall d s pos v rest p K,
         opening_brackets s <= K ->
         Forall (fun kv => nesting (snd kv) + opening_brackets s <= K) d ->
         object_loop f d s pos = inr (v, rest, p) ->
         nesting v + opening_brackets rest <= S K)
  /\ (forall acc s pos v rest p K,
         opening_brackets s <= K ->
         Forall (fun x => nesting x + opening_brackets s <= K) acc ->
         array_loop f acc s pos = inr (v, rest, p) ->
         nesting v + opening_brackets rest <= S K).
Proof.
  induction f as [| f (IHs & IHo & IHa)].
  { repeat split; intros; discriminate. }
  split; [| split].
  - intros s pos v rest p. cbn [scan_once].
    destruct s as [| c t]; [discriminate |].
    rewrite opening_brackets_cons.
    destruct (c =? 34)%N.
    { destruct (scanstring _ t (S pos) pos []) as [e | [[str r] q]] eqn:Hstr;
        [discriminate |].
      intros [= <- <- _]. apply scanstring_brackets in Hstr.
      cbn [nesting]. lia. }
    destruct (c =? 123)%N eqn:Hbrace.
    { apply N.eqb_eq in Hbrace. subst c.
      change (opens 123%N) with 1.
      destruct (skip_ws t (S pos)) as [s1 p1] eqn:Hw.
      apply skip_ws_brackets in Hw.
      destruct s1 as [| c1 t1].
      - intros H.
        apply (IHo [] [] p1 v rest p (opening_brackets t)) in H;
          [lia | lia | constructor].
      - destruct (c1 =? 125)%N.
        + intros [= <- <- _]. cbn [nesting map fold_right].
          rewrite opening_brackets_cons in Hw. lia.
        + intros H.
          apply (IHo [] (c1 :: t1) p1 v rest p (opening_brackets t)) in H;
            [lia | lia | constructor]. }
    destruct (c =? 91)%N eqn:Hbracket.
    { apply N.eqb_eq in Hbracket. subst c.
      change (opens 91%N) with 1.
      destruct (skip_ws t (S pos)) as [s1 p1] eqn:Hw.
      apply skip_ws_brackets in Hw.
      destruct s1 as [| c1 t1].
      - intros H.
        apply (IHa [] [] p1 v rest p (opening_brackets t)) in H;
          [lia | lia | constructor].
      - destruct (c1 =? 93)%N.
        + intros [= <- <- _]. cbn [nesting map fold_right].
          rewrite opening_brackets_cons in Hw. lia.
        + intros H.
          apply (IHa [] (c1 :: t1) p1 v rest p (opening_brackets t)) in H;
            [lia | lia | constructor]. }
    rewrite <- (opening_brackets_cons c t).
    repeat match goal with
           | |- match keyword ?n ?w ?s ?q with Some _ => _ | None => _ end = _
                -> _ =>
               let Hk := fresh "Hk" in
               destruct (keyword n w s q) as [r |] eqn:Hk;
               [intros ->; apply keyword_brackets in Hk;
                destruct Hk as [Hk ->]; cbn [nesting]; lia |]
           end.
    intros H. apply match_number_brackets in H. lia.
  - intros d s pos v rest p K HK Hd. cbn [object_loop].
    destruct s as [| c t]; [discriminate |].
    rewrite opening_brackets_cons in HK.
    destruct (c =? 34)%N; [| discriminate].
    destruct (scanstring _ t (S pos) pos []) as [e | [[key s1] p1]] eqn:Hstr;
      [discriminate |].
    apply scanstring_brackets in Hstr.
    destruct (skip_ws s1 p1) as [s2 p2] eqn:Hw2. apply skip_ws_brackets in Hw2.
    destruct s2 as [| c2 t2]; [discriminate |].
    rewrite opening_brackets_cons in Hw2.
    destruct (c2 =? 58)%N; [| discriminate].
    destruct (skip_ws t2 (S p2)) as [s3 p3] eqn:Hw3.
    apply skip_ws_brackets in Hw3.
    destruct (scan_once f s3 p3) as [e | [[w s4] p4]] eqn:Hv; [discriminate |].
    apply IHs in Hv. cbv zeta.
    destruct (skip_ws s4 p4) as [s5 p5] eqn:Hw5. apply skip_ws_brackets in Hw5.
    destruct s5 as [| c5 t5]; [discriminate |].
    rewrite opening_brackets_cons in Hw5.
    assert (Hd' : forall r, r <= opening_brackets s4 ->
                Forall (fun kv => nesting (snd kv) + r <= K)
                  (dict_set key w d)).
    { intros r Hr.
      apply (dict_set_Forall (fun x => nesting x + r <= K)); [lia |].
      eapply Forall_impl; [| exact Hd]. cbn beta. intros kv Hkv.
      rewrite opening_brackets_cons in Hkv. lia. }
    destruct (c5 =? 125)%N.
    { intros [= <- <- _]. cbn [nesting].
      pose proof (max_nesting_bound (fun kv => nesting (snd kv))
                    (dict_set key w d) (opening_brackets t5) K) as Hm.
      assert (Ht5 : opening_brackets t5 <= opening_brackets s4) by lia.
      specialize (Hm ltac:(lia) (Hd' _ Ht5)). lia. }
    destruct (c5 =? 44)%N; [| discriminate].
    destruct (skip_ws t5 (S p5)) as [s6 p6] eqn:Hw6.
    apply skip_ws_brackets in Hw6.
    assert (Hs6 : opening_brackets s6 <= opening_brackets s4) by lia.
    intros H. apply (IHo _ _ _ _ _ _ K) in H; [exact H | lia |].
    apply Hd'. exact Hs6.
  - intros acc s pos v rest p K HK Hacc. cbn [array_loop].
    destruct (scan_once f s pos) as [e | [[w s1] p1]] eqn:Hv; [discriminate |].
    apply IHs in Hv.
    destruct (skip_ws s1 p1) as [s2 p2] eqn:Hw2. apply skip_ws_brackets in Hw2.
    destruct s2 as [| c2 t2]; [discriminate |].
    rewrite opening_brackets_cons in Hw2.
    assert (Hacc' : forall r, r <= opening_brackets s1 ->
                Forall (fun x => nesting x + r <= K) (w :: acc)).
    { intros r Hr. constructor; [lia |].
      eapply Forall_impl; [| exact Hacc]. cbn beta. intros x Hx. lia. }
    destruct (c2 =? 93)%N.
    { intros [= <- <- _].
      assert (Ht2 : opening_brackets t2 <= opening_brackets s1) by lia.
      assert (Hrev : Forall (fun x => nesting x + opening_brackets t2 <= K)
                       (rev (w :: acc))).
      { apply Forall_rev, Hacc'. exact Ht2. }
      pose proof (max_nesting_bound nesting (rev (w :: acc))
                    (opening_brackets t2) K ltac:(lia) Hrev) as Hm.
      cbn [rev] in Hm. cbn [nesting]. lia. }
    destruct (c2 =? 44)%N; [| discriminate].
    destruct (skip_ws t2 (S p2)) as [s3 p3] eqn:Hw3.
    apply skip_ws_brackets in Hw3.
    assert (Hs3 : opening_brackets s3 <= opening_brackets s1) by lia.
    intros H. apply (IHa _ _ _ _ _ _ K) in H; [exact H | lia |].
    apply Hacc'. exact Hs3.
Qed.

(** What [json.loads] returns is nested no deeper than its text has
    opening brackets. *)
Lemma parsed_nesting (doc : pystr) (v : json) :
  json_loads doc = Ok v -> nesting v <= opening_brackets doc.
Proof.
  unfold json_loads, json_loads_with.
  destruct (startswith _ doc); [discriminate |].
  destruct (skip_ws doc 0) as [s0 p0] eqn:Hw. apply skip_ws_brackets in Hw.
  destruct (scan_once _ s0 p0) as [[msg pos] | [[v' s1] p1]] eqn:Hscan;
    [discriminate |].
  destruct (skip_ws s1 p1) as [[| c s2] p2]; [| discriminate].
  intros [= <-]. apply (proj1 (scan_nesting _)) in Hscan. lia.
Qed.

(** [get_dict_depth] goes no deeper than the nesting. *)
Lemma get_dict_depth_nesting (v : json) :
  forall n, get_dict_depth v n <= n + nesting v.
Proof.
  induction v as [| b | z | f | s | items _ | pairs IH]
    using json_nested_ind; intros n; cbn [get_dict_depth nesting]; try lia.
  destruct pairs as [| p ps]; [lia |].
  set (l := p :: ps) in *. clearbody l.
  induction IH as [| [k x] t Hx _ IHt]; cbn [map fold_right snd] in *;
    [lia |].
  specialize (Hx (S n)). lia.
Qed.

(** Within the limits, what is parsed is nested at most [NESTING_ROOM]
    deep, and so are the recursions of [get_dict_depth] and
    [count_nulls] on it. *)
Lemma within_limits_nesting (content : pystr) (v : json) :
  within_limits content = true ->
  json_loads content = Ok v ->
  nesting v <= NESTING_ROOM /\ get_dict_depth v 0 <= NESTING_ROOM.
Proof.
  unfold within_limits. intros Hl Hdoc.
  apply andb_true_iff in Hl. destruct Hl as [Hb _].
  apply Nat.leb_le in Hb.
  pose proof (parsed_nesting content v Hdoc) as Hn.
  pose proof (get_dict_depth_nesting v 0) as Hd. lia.
Qed.

Lemma opening_brackets_app (a b : pystr) :
  opening_brackets (a ++ b) = opening_brackets a + opening_brackets b.
Proof.
  induction a as [| c t IH]; cbn [app]; [reflexivity |].
  rewrite !opening_brackets_cons, IH. lia.
Qed.

Lemma opening_brackets_rev (s : pystr) :
  opening_brackets (rev s) = opening_brackets s.
Proof.
  induction s as [| c t IH]; cbn [rev]; [reflexivity |].
  rewrite opening_brackets_app, !opening_brackets_cons, IH.
  rewrite opening_brackets_nil. lia.
Qed.

Lemma opening_brackets_lstrip (s : pystr) :
  opening_brackets (lstrip s) <= opening_brackets s.
Proof.
  induction s as [| c t IH]; cbn [lstrip]; [lia |].
  destruct (isspace c); [rewrite opening_brackets_cons; lia | lia].
Qed.

Lemma opening_brackets_strip (s : pystr) :
  opening_brackets (strip s) <= opening_brackets s.
Proof.
  unfold strip, rstrip. rewrite opening_brackets_rev.
  pose proof (opening_brackets_lstrip (rev (lstrip s))) as H1.
  rewrite opening_brackets_rev in H1.
  pose proof (opening_brackets_lstrip s) as H2. lia.
Qed.

(** So is what [detect_format] parses, the trimmed text. *)
Lemma within_limits_detected (content : pystr) (v : json) :
  within_limits content = true ->
  json_loads (strip content) = Ok v -> nesting v <= NESTING_ROOM.
Proof.
  unfold within_limits. intros Hl Hdoc.
  apply andb_true_iff in Hl. destruct Hl as [Hb _].
  apply Nat.leb_le in Hb.
  pose proof (parsed_nesting (strip content) v Hdoc) as Hn.
  pose proof (opening_brackets_strip content) as Hs. lia.
Qed.

End Nesting.

(** ** What the specification states, on the code *)

Section Statements.
Context {E : Engine}.

Local Open Scope Q_scope.

(** C1. For every submission and every format category, each of the five
    dimension scorers returns a score in [0,1]; the aggregation of the five
    scores returns a result whose [weighted_score] and [scores] lie in
    [0,1]; and so does every result [score_submission] returns. *)
Theorem scores_in_unit_interval (content : pystr) :
  (forall ft,
      unit_score (score_completeness content ft)
      /\ unit_score (score_format_compliance content ft)
      /\ unit_score (score_coverage content ft)
      /\ unit_score (score_clarity content ft)
      /\ unit_score (score_validity content ft))
  /\ (forall ft threshold,
         exists r, score_as content ft threshold = Ok r
                   /\ unit_interval (weighted_score r)
                   /\ Forall (fun kv => unit_interval (snd kv)) (scores r))
  /\ (forall threshold r,
         score_submission content threshold = Ok r ->
         unit_interval (weighted_score r)
         /\ Forall (fun kv => unit_interval (snd kv)) (scores r)).
Proof.
  assert (Hagg : forall ft threshold,
             exists r, score_as content ft threshold = Ok r
                       /\ unit_interval (weighted_score r)
                       /\ Forall (fun kv => unit_interval (snd kv)) (scores r)).
  { intros ft threshold.
    destruct (score_completeness_unit content ft) as (s1 & f1 & H1 & U1).
    destruct (score_format_compliance_unit content ft) as (s2 & f2 & H2 & U2).
    destruct (score_coverage_unit content ft) as (s3 & f3 & H3 & U3).
    destruct (score_clarity_unit content ft) as (s4 & f4 & H4 & U4).
    destruct (score_validity_unit content ft) as (s5 & f5 & H5 & U5).
    destruct (score_as_value content ft threshold _ _ _ _ _ _ _ _ _ _
                H1 H2 H3 H4 H5) as (r & Hr & Hw & Hs & _).
    exists r. split; [exact Hr |]. split.
    - unfold unit_interval. rewrite Hw.
      apply round3_unit, weighted_unit; assumption.
    - rewrite Hs. repeat (apply Forall_cons; [assumption |]).
      apply Forall_nil. }
  split; [| split].
  - intros ft. repeat split.
    + apply score_completeness_unit.
    + apply score_format_compliance_unit.
    + apply score_coverage_unit.
    + apply score_clarity_unit.
    + apply score_validity_unit.
  - exact Hagg.
  - intros threshold r. unfold score_submission.
    destruct (detect_format content) as [ft | e]; cbn [bind]; [| discriminate].
    destruct (Hagg ft threshold) as (r' & Hr' & Hw & Hs).
    rewrite Hr'. intros [= <-]. split; assumption.
Qed.

(** The loop of [get_quality_rating] answers the first entry that fits. *)
Lemma first_rating_first_entry (table : list (Q * pystr)) (score : Q) :
  first_entry table score (first_rating table score).
Proof.
  induction table as [| [threshold rating] rest IH]; cbn [first_rating].
  - right. split; [reflexivity | constructor].
  - destruct (Qle_bool threshold score) eqn:Hc.
    + left. exists [], threshold, rest.
      split; [reflexivity |]. split; [apply Qle_bool_iff, Hc | constructor].
    + assert (Hlt : score < threshold).
      { apply Qnot_le_lt. intros Hle. apply Qle_bool_iff in Hle.
        rewrite Hle in Hc. discriminate. }
      destruct IH as [(before & t & after & Heq & Ht & Hb) | [Hp Hall]].
      * left. exists ((threshold, rating) :: before), t, after.
        split; [cbn [app]; f_equal; exact Heq |]. split; [exact Ht |].
        constructor; [exact Hlt | exact Hb].
      * right. split; [exact Hp |]. constructor; [exact Hlt | exact Hall].
Qed.

(** C8. For all scores [s1 <= s2], the rating of [s1] is never of a
    higher tier than the rating of [s2], the tiers being the entries of
    the rating table from "Poor" (lowest) to "Excellent" (highest) and the
    rating the label of the first entry whose threshold is at most the
    score. *)
Theorem rating_monotone (s1 s2 : Q) :
  s1 <= s2 ->
  (tier (get_quality_rating s1) <= tier (get_quality_rating s2))%nat
  /\ first_entry QUALITY_RATINGS s1 (get_quality_rating s1)
  /\ first_entry QUALITY_RATINGS s2 (get_quality_rating s2).
Proof.
  intros H. split; [| split; apply first_rating_first_entry].
  unfold get_quality_rating, QUALITY_RATINGS. cbn [first_rating].
  repeat match goal with
         | |- context [Qle_bool ?a ?b] =>
             let Hc := fresh "Hc" in
             destruct (Qle_bool a b) eqn:Hc;
             [apply Qle_bool_iff in Hc
             | apply not_true_iff_false in Hc; rewrite Qle_bool_iff in Hc;
               apply Qnot_le_lt in Hc]
         end;
    try (exfalso; lra); vm_compute; lia.
Qed.

Lemma rating_monotone_witness :
  0.55 <= 0.85
  /\ (tier (get_quality_rating 0.55) <= tier (get_quality_rating 0.85))%nat.
Proof.
  split; [discriminate |].
  exact (proj1 (rating_monotone 0.55 0.85 ltac:(discriminate))).
Defined.

(** The score of a mapping, before rounding. *)
Lemma coverage_mapping_value (content : pystr) (d : list (pystr * json)) :
  json_loads content = Ok (JDict d) ->
  score_coverage content JSON
  = Ok (finish
          (pymin 1 (qn (List.length d) / 10
                    + qn (get_dict_depth (JDict d) 0) / 5) / 2)
          [] "Good coverage").
Proof. intros H. unfold score_coverage. rewrite H. reflexivity. Qed.

(** Rounding does not move it: it is a multiple of 1/20. *)
Lemma mapping_score_exact (k d : nat) :
  round3 (pymin 1 (qn k / 10 + qn d / 5) / 2)
  == Qmin 1 (qn k / 10 + qn d / 5) / 2.
Proof.
  assert (Hz : exists z : Z, pymin 1 (qn k / 10 + qn d / 5) / 2 == z # 1000).
  { unfold pymin. destruct (Qltb _ 1).
    - exists (50 * (Z.of_nat k + 2 * Z.of_nat d))%Z.
      unfold qn. rewrite (Qmake_Qdiv _ 1000).
      rewrite inject_Z_mult, inject_Z_plus, inject_Z_mult.
      change (inject_Z (Z.pos 1000)) with 1000.
      change (inject_Z 50) with 50. change (inject_Z 2) with 2. field.
    - exists 500%Z. reflexivity. }
  destruct Hz as [z Hz].
  rewrite (round3_exact _ z Hz), <- Hz.
  apply Qdiv_comp; [apply pymin_spec | reflexivity].
Qed.

(** C2, as the code has it. For every submission within the limits of the
    interpreter that is classified JSON and parses to a top-level mapping,
    the coverage score is half of [min(1, key_count/10 + depth/5)]: the cap
    applies once, to the sum of the two ratios, and the halving comes after
    it.  It is the average of the two capped ratios whenever the sum of the
    ratios is at most 1.  The depth of a non-mapping or of an empty mapping
    is the current depth, and that of another mapping is the maximum over
    its values, one level down; within the limits it is at most
    [NESTING_ROOM].  (Past the limits the program differs: on a mapping
    nested some hundreds of levels deep [get_dict_depth] raises
    [RecursionError], the bare [except] of [score_coverage] swallows it,
    and the score is 0.) *)
Theorem mapping_coverage_caps_the_sum (content : pystr)
  (d : list (pystr * json)) :
  within_limits content = true ->
  detect_format content = Ok JSON ->
  json_loads content = Ok (JDict d) ->
  let key_count := List.length d in
  let depth := get_dict_depth (JDict d) 0 in
  (exists s fb,
      score_coverage content JSON = Ok (s, fb)
      /\ s == Qmin 1 (qn key_count / 10 + qn depth / 5) / 2
      /\ (qn key_count / 10 + qn depth / 5 <= 1 ->
          s == coverage_of_capped_ratios key_count depth))
  /\ (depth <= NESTING_ROOM)%nat
  /\ (forall v n, (forall p ps, v <> JDict (p :: ps)) ->
                  get_dict_depth v n = n)
  /\ (forall p ps n,
         get_dict_depth (JDict (p :: ps)) n
         = fold_right Nat.max 0%nat
             (map (fun kv => get_dict_depth (snd kv) (S n)) (p :: ps))).
Proof.
  intros Hlim _ Hdoc key_count depth. split; [| split; [| split]].
  - rewrite (coverage_mapping_value content d Hdoc).
    eexists; eexists; split; [reflexivity |].
    fold key_count depth.
    pose proof (mapping_score_exact key_count depth) as Hs.
    split; [exact Hs |].
    intros Hsum. rewrite Hs. unfold coverage_of_capped_ratios.
    pose proof (qn_div_nonneg key_count 10 eq_refl) as Hk.
    pose proof (qn_div_nonneg depth 5 eq_refl) as Hd.
    rewrite (Q.min_r 1 (_ + _)) by exact Hsum.
    rewrite (Q.min_r 1 (qn key_count / 10)) by lra.
    rewrite (Q.min_r 1 (qn depth / 5)) by lra.
    reflexivity.
  - apply (within_limits_nesting content (JDict d) Hlim Hdoc).
  - intros v n Hv. destruct v as [| | | | | | [| p ps]]; try reflexivity.
    exfalso. apply (Hv p ps). reflexivity.
  - intros p ps n. cbn [get_dict_depth].
    apply (f_equal (fold_right Nat.max 0%nat)).
    apply map_ext. intros [k v]. reflexivity.
Qed.

(** C10. For every submission classified JSON that parses to a top-level
    mapping, the coverage score is at most 0.5, whatever the number of keys
    and the depth. *)
Theorem mapping_coverage_at_most_half (content : pystr)
  (d : list (pystr * json)) :
  detect_format content = Ok JSON ->
  json_loads content = Ok (JDict d) ->
  exists s fb, score_coverage content JSON = Ok (s, fb) /\ s <= 1 # 2.
Proof.
  intros _ Hdoc. rewrite (coverage_mapping_value content d Hdoc).
  eexists; eexists; split; [reflexivity |].
  apply Qle_trans with (500 # 1000); [| discriminate].
  apply round3_le.
  pose proof (qn_div_nonneg (List.length d) 10 eq_refl) as Hk.
  pose proof (qn_div_nonneg (get_dict_depth (JDict d) 0) 5 eq_refl) as Hd.
  match goal with
  | |- pymin 1 ?x / 2 <= _ =>
      assert (Hx : 0 <= x) by lra;
      destruct (half_unit _ (pymin_unit x Hx)) as [_ Hh]
  end.
  apply Qle_trans with (1 # 2); [exact Hh | discriminate].
Qed.

(** C5, on the code. A submission whose trimmed text starts with a brace
    or a bracket and fails to parse is not classified at all.
    [detect_format] leaves the JSON branch and does not answer TEXT at once;
    it reaches the search for code, which raises [re.error] on its first
    pattern, before any matching.  The markdown patterns are never counted
    and no format is returned, where the specification expects TEXT when
    the later heuristics find nothing.  The submission is taken within the
    limits of the interpreter, so that the trimmed text has at most
    [NESTING_ROOM] opening brackets for the decoder to enter; past the
    limits [json.loads] may raise another error than
    [json.JSONDecodeError], which [detect_format] lets through. *)
Theorem fallthrough_raises_on_parse_failure (content : pystr) :
  within_limits content = true ->
  startswith (py "{") (strip content) || startswith (py "[") (strip content)
  = true ->
  is_ok (json_loads (strip content)) = false ->
  detect_format content = Raise unterminated_group
  /\ any_match code_patterns (strip content) = Raise unterminated_group
  /\ (forall ft, detect_format content <> Ok ft)
  /\ (opening_brackets (strip content) <= NESTING_ROOM)%nat.
Proof.
  intros Hlim Hstart Hfail.
  assert (Hcode : any_match code_patterns (strip content)
                  = Raise unterminated_group)
    by apply any_match_code_raises.
  assert (Hraise : detect_format content = Raise unterminated_group).
  { unfold detect_format. rewrite Hstart.
    destruct (json_loads (strip content)) as [v | e] eqn:Hdoc;
      [discriminate Hfail |].
    destruct (json_loads_raises _ _ Hdoc) as (m & l & c & p & ->).
    unfold detect_signals. rewrite Hcode. reflexivity. }
  split; [exact Hraise |]. split; [exact Hcode |]. split.
  - intros ft Hft. rewrite Hraise in Hft. discriminate Hft.
  - unfold within_limits in Hlim. apply andb_true_iff in Hlim.
    destruct Hlim as [Hb _]. apply Nat.leb_le in Hb.
    pose proof (opening_brackets_strip content) as Hs.
    apply (Nat.le_trans _ _ _ Hs Hb).
Qed.

(** The validity score of a submission that parses, by the count of the
    code. *)
Lemma validity_by_count (content : pystr) (data : json) :
  json_loads content = Ok data ->
  exists s fb,
    score_validity content JSON = Ok (s, fb)
    /\ s == 1 - (1 # 10) * qn (Nat.min (count_nulls data) 5).
Proof.
  intros Hdoc. unfold score_validity. rewrite Hdoc.
  assert (Hz : forall n, (n <= 5)%nat ->
             round3 (pymax 0 (1 - 0.1 * qn n)) == 1 - (1 # 10) * qn n).
  { intros n Hn.
    assert (Hq : 1 - 0.1 * qn n == (1000 - 100 * Z.of_nat n) # 1000).
    { unfold qn. rewrite (Qmake_Qdiv _ 1000). unfold Z.sub.
      rewrite inject_Z_plus, inject_Z_opp, inject_Z_mult.
      change (inject_Z (Z.pos 1000)) with 1000.
      change (inject_Z 100) with 100. change (inject_Z 1000) with 1000.
      field. }
    assert (Hpos : 0 <= 1 - 0.1 * qn n).
    { rewrite Hq. unfold Qle. cbn [Qnum Qden]. lia. }
    assert (Hm : pymax 0 (1 - 0.1 * qn n) == 1 - 0.1 * qn n).
    { rewrite pymax_spec. apply Q.max_r. exact Hpos. }
    rewrite (round3_exact _ (1000 - 100 * Z.of_nat n)).
    - rewrite <- Hq. reflexivity.
    - rewrite Hm. exact Hq. }
  destruct (0 <? count_nulls data)%nat eqn:Hc.
  - eexists; eexists; split; [reflexivity |].
    cbn [finish_floor finish fst]. apply Hz. apply Nat.le_min_r.
  - eexists; eexists; split; [reflexivity |].
    apply Nat.ltb_ge in Hc.
    replace (count_nulls data) with 0%nat by lia.
    vm_compute. reflexivity.
Qed.

(** C6, on the code. In [{"a": {}}] the value of "a" is an empty
    container; [count_nulls] does not count it, and the validity score is
    1.0 where one null or empty value would give 0.9. *)
Theorem empty_mapping_value_not_counted :
  detect_format empty_mapping_value = Ok JSON
  /\ json_loads empty_mapping_value = Ok (JDict [(py "a", JDict [])])
  /\ count_nulls (JDict [(py "a", JDict [])]) = 0%nat
  /\ count_empty_values (JDict [(py "a", JDict [])]) = 1%nat
  /\ score_validity empty_mapping_value JSON = Ok (1, py "Valid").
Proof. vm_compute. repeat split. Qed.

(** C3, on the code. The submission of the repository's own test,
    [def hello(): pass] on two lines, is not classified CODE:
    [detect_format] raises [re.error] when it compiles the first code
    pattern, and no submission at all is classified CODE. *)
Theorem detect_format_raises_on_code :
  detect_format hello_code = Raise unterminated_group
  /\ (forall content, detect_format content <> Ok CODE).
Proof.
  split.
  - unfold detect_format. rewrite detect_signals_raises. reflexivity.
  - intros content H.
    destruct (detect_format_cases content) as [H' | H'];
      rewrite H' in H; discriminate.
Qed.

(** C7, on the code. [score_submission] raises [re.error] on the empty
    string and on a malformed JSON payload, and on every submission that
    [detect_format] does not classify JSON. *)
Theorem score_submission_raises (threshold : Q) :
  score_submission (py "") threshold = Raise unterminated_group
  /\ score_submission broken_mapping threshold = Raise unterminated_group
  /\ (forall content,
         detect_format content <> Ok JSON ->
         score_submission content threshold = Raise unterminated_group).
Proof.
  assert (H : forall content,
             detect_format content <> Ok JSON ->
             score_submission content threshold = Raise unterminated_group).
  { intros content Hne. unfold score_submission.
    destruct (detect_format_cases content) as [H' | H'];
      [contradiction | rewrite H'; reflexivity]. }
  split; [| split; [| exact H]]; apply H;
    unfold detect_format; rewrite detect_signals_raises; discriminate.
Qed.

(** [score_batch] is the aggregator mapped over the submissions: it
    returns a list exactly when every call returns, and the list holds the
    results in order. *)
Lemma score_batch_maps (submissions : list pystr) (threshold : Q)
  (rs : list ScoringResult) :
  score_batch submissions threshold = Ok rs <->
  Forall2 (fun s r => score_submission s threshold = Ok r) submissions rs.
Proof.
  revert rs. induction submissions as [| s rest IH]; intros rs;
    cbn [score_batch].
  - split.
    + intros [= <-]. constructor.
    + intros H. inversion H. reflexivity.
  - destruct (score_submission s threshold) as [r | e] eqn:Hs; cbn [bind].
    + destruct (score_batch rest threshold) as [rs' | e] eqn:Hr; cbn [bind].
      * split.
        -- intros [= <-]. constructor; [exact Hs | apply IH; reflexivity].
        -- intros H. inversion H as [| ? r0 ? rs0 H1 H2]; subst.
           rewrite Hs in H1. injection H1 as <-.
           apply IH in H2. injection H2 as <-. reflexivity.
      * split; [discriminate |].
        intros H. inversion H as [| ? r0 ? rs0 H1 H2]; subst.
        apply IH in H2. discriminate.
    + split; [discriminate |].
      intros H. inversion H as [| ? r0 ? rs0 H1 H2]; subst.
      rewrite Hs in H1. discriminate.
Qed.

(** C9, on the code. The batch of the specification's scenario, "a", "b"
    and "c", returns no list: the first call of the aggregator raises
    [re.error]. *)
Theorem score_batch_raises (threshold : Q) :
  score_batch [py "a"; py "b"; py "c"] threshold = Raise unterminated_group.
Proof.
  cbn [score_batch]. unfold score_submission at 1.
  replace (detect_format (py "a")) with (@Raise FormatType unterminated_group);
    [reflexivity |].
  unfold detect_format. rewrite detect_signals_raises. reflexivity.
Qed.

(** C4, as the code has it. Scoring the submission with the five common
    fields returns a result whose [format_detected] is the label "json"
    and whose completeness score is 1. *)
Theorem five_fields_json_complete (threshold : Q) :
  exists r,
    score_submission five_fields threshold = Ok r
    /\ format_detected r = py "json"
    /\ score_of (scores r) (py "completeness") = Some 1.
Proof.
  unfold score_submission.
  replace (detect_format five_fields) with (Ok JSON)
    by (vm_compute; reflexivity).
  cbn [bind].
  assert (H1 : score_completeness five_fields JSON = Ok (1, py "Complete"))
    by (vm_compute; reflexivity).
  destruct (score_format_compliance_unit five_fields JSON)
    as (s2 & f2 & H2 & _).
  destruct (score_coverage_unit five_fields JSON) as (s3 & f3 & H3 & _).
  destruct (score_clarity_unit five_fields JSON) as (s4 & f4 & H4 & _).
  destruct (score_validity_unit five_fields JSON) as (s5 & f5 & H5 & _).
  destruct (score_as_value five_fields JSON threshold _ _ _ _ _ _ _ _ _ _
              H1 H2 H3 H4 H5) as (r & Hr & _ & Hs & Hf & _).
  exists r. split; [exact Hr |]. split; [exact Hf |].
  rewrite Hs. vm_compute. reflexivity.
Qed.

End Statements.

(** ** Witnesses and counterexamples, on the reference engine *)

Section Witnesses.

Import RefEngine.

Local Open Scope Q_scope.

(** C2 as the specification words it fails on a mapping of ten scalar
    keys: the code answers 0.5, the average of the capped ratios is 0.6. *)
Lemma capped_ratios_counterexample :
  exists d,
    detect_format ten_keys = Ok JSON
    /\ json_loads ten_keys = Ok (JDict d)
    /\ score_coverage ten_keys JSON = Ok (1 # 2, py "Good coverage")
    /\ coverage_of_capped_ratios (List.length d) (get_dict_depth (JDict d) 0)
       == 3 # 5
    /\ ~ (1 # 2 == 3 # 5).
Proof.
  eexists. split; [vm_compute; reflexivity |].
  split; [vm_compute; reflexivity |].
  split; [vm_compute; reflexivity |].
  split; [vm_compute; reflexivity | discriminate].
Qed.

Lemma mapping_coverage_caps_the_sum_witness :
  exists d,
    within_limits five_fields = true
    /\ detect_format five_fields = Ok JSON
    /\ json_loads five_fields = Ok (JDict d)
    /\ exists s fb,
         score_coverage five_fields JSON = Ok (s, fb) /\ s == 7 # 20.
Proof.
  assert (H0 : within_limits five_fields = true)
    by (vm_compute; reflexivity).
  assert (H1 : detect_format five_fields = Ok JSON)
    by (vm_compute; reflexivity).
  eexists. split; [exact H0 |]. split; [exact H1 |].
  assert (H2 : json_loads five_fields = Ok (JDict _))
    by (vm_compute; reflexivity).
  split; [exact H2 |].
  destruct (mapping_coverage_caps_the_sum five_fields _ H0 H1 H2)
    as [(s & fb & Hs & Heq & _) _].
  exists s, fb. split; [exact Hs |].
  rewrite Heq. vm_compute. reflexivity.
Defined.

Lemma mapping_coverage_at_most_half_witness :
  exists d,
    detect_format ten_keys = Ok JSON
    /\ json_loads ten_keys = Ok (JDict d)
    /\ exists s fb,
         score_coverage ten_keys JSON = Ok (s, fb) /\ s <= 1 # 2.
Proof.
  assert (H1 : detect_format ten_keys = Ok JSON) by (vm_compute; reflexivity).
  eexists. split; [exact H1 |].
  assert (H2 : json_loads ten_keys = Ok (JDict _)) by (vm_compute; reflexivity).
  split; [exact H2 |].
  exact (mapping_coverage_at_most_half ten_keys _ H1 H2).
Defined.

Lemma fallthrough_raises_on_parse_failure_witness :
  within_limits broken_mapping = true
  /\ startswith (py "{") (strip broken_mapping)
     || startswith (py "[") (strip broken_mapping) = true
  /\ is_ok (json_loads (strip broken_mapping)) = false
  /\ detect_format broken_mapping = Raise unterminated_group.
Proof.
  assert (H0 : within_limits broken_mapping = true)
    by (vm_compute; reflexivity).
  assert (H1 : startswith (py "{") (strip broken_mapping)
               || startswith (py "[") (strip broken_mapping) = true)
    by (vm_compute; reflexivity).
  assert (H2 : is_ok (json_loads (strip broken_mapping)) = false)
    by (vm_compute; reflexivity).
  split; [exact H0 |]. split; [exact H1 |]. split; [exact H2 |].
  exact (proj1 (fallthrough_raises_on_parse_failure broken_mapping
                  H0 H1 H2)).
Defined.

(** C4 as the specification words it fails: the label of the scenario's
    result is "json", not "structured". *)
Lemma five_fields_label_counterexample :
  exists r,
    score_submission five_fields DEFAULT_PASS_THRESHOLD = Ok r
    /\ format_detected r = py "json"
    /\ eqb (format_detected r) (py "structured") = false.
Proof.
  eexists. split; [vm_compute; reflexivity |].
  split; vm_compute; reflexivity.
Qed.

(** The malformed payloads that reach the scorers are those that [strip]
    accepts and the decoder refuses, such as a form feed before the brace:
    the dimensions that parse score 0 and the call returns. *)
Example form_feed_payload_degrades :
  exists r,
    score_submission (12%N :: jq "{'a':1}") DEFAULT_PASS_THRESHOLD = Ok r
    /\ map snd (scores r) = [0; 0; 0; 0.9; 0]
    /\ format_detected r = py "json".
Proof.
  eexists. split; [vm_compute; reflexivity |].
  split; vm_compute; reflexivity.
Qed.

(** The assertions of [src/scorer/test_scorer.py] on JSON submissions. *)
Example test_format_detection_json :
  detect_format (jq "{'key': 'value'}") = Ok JSON
  /\ detect_format (py "[1, 2, 3]") = Ok JSON.
Proof. split; vm_compute; reflexivity. Qed.

Example test_json_scoring :
  exists r,
    score_submission (jq "{'id': '1', 'name': 'Test', 'value': 100}")
      DEFAULT_PASS_THRESHOLD = Ok r
    /\ format_detected r = py "json"
    /\ unit_interval (weighted_score r)
    /\ quality_rating r = py "Satisfactory"
    /\ pass_threshold r = true.
Proof.
  eexists. split; [vm_compute; reflexivity |].
  repeat split; try (vm_compute; reflexivity); discriminate.
Qed.

End Witnesses.

(** * Further properties of the code

    Properties read off the source beyond the statements above: the shape
    of a result and the role of the threshold, what [detect_format]
    answers, the JSON branches of the scorers on mappings, sequences and
    payloads that do not parse, the bounds of the penalties, the two
    recursive helpers, and batches. *)

(** ** Rounding is monotone and lands on the grid *)

Section MoreRounding.
Local Open Scope Z_scope.

Lemma round_half_even_near (n : Z) (d : positive) :
  let z := round_half_even n d in
  2 * n - Zpos d <= 2 * z * Zpos d <= 2 * n + Zpos d
  /\ (2 * z * Zpos d = 2 * n - Zpos d \/ 2 * z * Zpos d = 2 * n + Zpos d ->
      Z.even z = true).
Proof.
  cbv zeta. unfold round_half_even.
  pose proof (Z.div_mod n (Zpos d) ltac:(lia)) as Hdm.
  pose proof (Z.mod_pos_bound n (Zpos d) ltac:(lia)) as Hb.
  remember (n / Zpos d) as fl eqn:Hfl. remember (n mod Zpos d) as r eqn:Hr.
  clear Hfl Hr. subst n.
  destruct (Z.compare_spec (2 * r) (Zpos d)) as [Hc | Hc | Hc].
  - destruct (Z.even fl) eqn:He.
    + split; [split; nia |]. intros _. exact He.
    + split; [split; nia |]. intros _. rewrite Z.even_add, He. reflexivity.
  - split; [split; nia |]. intros [H | H]; exfalso; nia.
  - split; [split; nia |]. intros [H | H]; exfalso; nia.
Qed.

Lemma round_half_even_mono (n1 n2 : Z) (d1 d2 : positive) :
  n1 * Zpos d2 <= n2 * Zpos d1 ->
  round_half_even n1 d1 <= round_half_even n2 d2.
Proof.
  intros H.
  destruct (round_half_even_near n1 d1) as [[_ U1] E1].
  destruct (round_half_even_near n2 d2) as [[L2 _] E2].
  set (z1 := round_half_even n1 d1) in *.
  set (z2 := round_half_even n2 d2) in *.
  destruct (Z_le_gt_dec z1 z2) as [Hle | Hgt]; [exact Hle | exfalso].
  assert (A : 2 * z1 * (Zpos d1 * Zpos d2) <= (2 * n1 + Zpos d1) * Zpos d2)
    by nia.
  assert (B : (2 * n2 - Zpos d2) * Zpos d1 <= 2 * z2 * (Zpos d1 * Zpos d2))
    by nia.
  assert (D : 0 < Zpos d1 * Zpos d2) by lia.
  assert (Hz : z1 = z2 + 1) by nia.
  assert (T1 : 2 * z1 * Zpos d1 = 2 * n1 + Zpos d1) by nia.
  assert (T2 : 2 * z2 * Zpos d2 = 2 * n2 - Zpos d2) by nia.
  specialize (E1 (or_intror T1)). specialize (E2 (or_introl T2)).
  rewrite Hz, Z.even_add, E2 in E1. discriminate.
Qed.

End MoreRounding.

Section MoreRounding3.
Local Open Scope Q_scope.

Lemma round3_mono (p q : Q) : p <= q -> round3 p <= round3 q.
Proof.
  intros H. unfold round3. rewrite !Qred_correct.
  unfold Qle in *. cbn [Qnum Qden] in *.
  apply Z.mul_le_mono_nonneg_r; [lia |].
  apply round_half_even_mono. lia.
Qed.

Lemma round3_on_grid (q : Q) : on_grid (round3 q).
Proof.
  unfold on_grid, round3. eexists. apply Qred_correct.
Qed.

Lemma round3_fixes_grid (q : Q) : on_grid q -> round3 q == q.
Proof.
  intros [z Hz]. rewrite (round3_exact q z Hz). symmetry. exact Hz.
Qed.

End MoreRounding3.

(** ** The record of a result *)

(** Case analysis on every test of the goal. *)
Ltac case_tests :=
  repeat match goal with
         | |- context [if ?c then _ else _] => destruct c
         end.

Section Results.
Context {E : Engine}.
Local Open Scope Q_scope.

Lemma grid_finish (score : Q) (fb : list pystr) (clear : string) :
  grid_score (Ok (finish score fb clear)).
Proof.
  unfold grid_score, finish. eexists; eexists; split; [reflexivity |].
  apply round3_on_grid.
Qed.

Lemma scorers_on_grid (content : pystr) (ft : FormatType) :
  grid_score (score_completeness content ft)
  /\ grid_score (score_format_compliance content ft)
  /\ grid_score (score_coverage content ft)
  /\ grid_score (score_clarity content ft)
  /\ grid_score (score_validity content ft).
Proof.
  repeat split.
  - destruct (score_completeness_unit content ft) as (s & fb & H & _).
    revert H. destruct ft; unfold score_completeness;
      [destruct (json_loads content) as [[| | | | | items | data] |] | | |];
      run_re; case_tests; intros _; apply grid_finish.
  - destruct ft; unfold score_format_compliance.
    + destruct (json_loads content) as [data | e] eqn:Hdoc.
      * case_tests; apply grid_finish.
      * destruct (json_loads_raises content e Hdoc) as (m & l & c & p & ->).
        apply grid_finish.
    + run_re. case_tests; apply grid_finish.
    + case_tests; apply grid_finish.
    + run_re. case_tests; run_re; case_tests; apply grid_finish.
  - destruct ft; unfold score_coverage;
      [destruct (json_loads content) as [[| | | | | items | data] |] | | |];
      run_re; case_tests; apply grid_finish.
  - unfold score_clarity.
    destruct ft; case_tests; cbv beta iota zeta; cbn [bind]; run_re;
      case_tests; cbn [bind]; run_re; case_tests; apply grid_finish.
  - destruct ft; unfold score_validity.
    + destruct (json_loads content) as [data | e] eqn:Hdoc.
      * case_tests; apply grid_finish.
      * destruct (json_loads_raises content e Hdoc) as (m & l & c & p & ->).
        apply grid_finish.
    + run_re. case_tests; run_re; case_tests; apply grid_finish.
    + case_tests; cbv beta iota zeta; run_re; case_tests;
        cbv beta iota zeta; run_re;
        match goal with
        | |- context [unused_imports ?c ?i ?s0 ?is0] =>
            destruct (unused_imports c i s0 is0) as [score issues]
        end;
        apply grid_finish.
    + case_tests; cbv beta iota zeta; run_re; case_tests; apply grid_finish.
Qed.

(** The whole record [score_as] builds from the answers of the five
    scorers. *)
Lemma score_as_record (content : pystr) (ft : FormatType) (thr : Q)
  (s1 s2 s3 s4 s5 : Q) (f1 f2 f3 f4 f5 : pystr) :
  score_completeness content ft = Ok (s1, f1) ->
  score_format_compliance content ft = Ok (s2, f2) ->
  score_coverage content ft = Ok (s3, f3) ->
  score_clarity content ft = Ok (s4, f4) ->
  score_validity content ft = Ok (s5, f5) ->
  score_as content ft thr
  = Ok {| weighted_score := round3 (weighted s1 s2 s3 s4 s5);
          quality_rating := get_quality_rating
                              (round3 (weighted s1 s2 s3 s4 s5));
          scores := [ (py "completeness", s1); (py "format_compliance", s2);
                      (py "coverage", s3); (py "clarity", s4);
                      (py "validity", s5) ];
          feedback :=
            match entry (py "completeness") f1
                  ++ entry (py "format_compliance") f2
                  ++ entry (py "coverage") f3
                  ++ entry (py "clarity") f4
                  ++ entry (py "validity") f5
            with
            | [] => [py "All dimensions satisfactory"]
            | l => l
            end;
          pass_threshold := Qle_bool thr (round3 (weighted s1 s2 s3 s4 s5));
          format_detected := FormatType_value ft |}.
Proof.
  intros H1 H2 H3 H4 H5.
  unfold score_as, dimensions. cbn [score_dimensions].
  rewrite H1. cbn [bind].
  change (lookup DIMENSION_WEIGHTS (py "completeness")) with (Ok 0.30).
  cbn [bind]. rewrite H2. cbn [bind].
  change (lookup DIMENSION_WEIGHTS (py "format_compliance")) with (Ok 0.20).
  cbn [bind]. rewrite H3. cbn [bind].
  change (lookup DIMENSION_WEIGHTS (py "coverage")) with (Ok 0.25).
  cbn [bind]. rewrite H4. cbn [bind].
  change (lookup DIMENSION_WEIGHTS (py "clarity")) with (Ok 0.15).
  cbn [bind]. rewrite H5. cbn [bind].
  change (lookup DIMENSION_WEIGHTS (py "validity")) with (Ok 0.10).
  cbn [bind]. unfold entry.
  destruct (reported f1), (reported f2), (reported f3), (reported f4),
    (reported f5); reflexivity.
Qed.

Lemma entry_length (name fb : pystr) : (List.length (entry name fb) <= 1)%nat.
Proof. unfold entry. destruct (reported fb); cbn; lia. Qed.

(** Every result of [score_submission] comes from [score_as] on JSON. *)
Lemma score_submission_inv (content : pystr) (thr : Q) (r : ScoringResult) :
  score_submission content thr = Ok r ->
  detect_format content = Ok JSON /\ score_as content JSON thr = Ok r.
Proof.
  unfold score_submission.
  destruct (detect_format_cases content) as [H | H]; rewrite H; cbn [bind].
  - intros Hr. split; [reflexivity | exact Hr].
  - discriminate.
Qed.

Lemma score_as_answers (content : pystr) (ft : FormatType) (thr : Q) :
  exists s1 s2 s3 s4 s5 f1 f2 f3 f4 f5,
    score_completeness content ft = Ok (s1, f1)
    /\ score_format_compliance content ft = Ok (s2, f2)
    /\ score_coverage content ft = Ok (s3, f3)
    /\ score_clarity content ft = Ok (s4, f4)
    /\ score_validity content ft = Ok (s5, f5)
    /\ (0 <= s1 <= 1 /\ 0 <= s2 <= 1 /\ 0 <= s3 <= 1 /\ 0 <= s4 <= 1
        /\ 0 <= s5 <= 1)
    /\ (on_grid s1 /\ on_grid s2 /\ on_grid s3 /\ on_grid s4 /\ on_grid s5).
Proof.
  destruct (score_completeness_unit content ft) as (s1 & f1 & H1 & U1).
  destruct (score_format_compliance_unit content ft) as (s2 & f2 & H2 & U2).
  destruct (score_coverage_unit content ft) as (s3 & f3 & H3 & U3).
  destruct (score_clarity_unit content ft) as (s4 & f4 & H4 & U4).
  destruct (score_validity_unit content ft) as (s5 & f5 & H5 & U5).
  destruct (scorers_on_grid content ft)
    as ((a1 & b1 & G1 & O1) & (a2 & b2 & G2 & O2) & (a3 & b3 & G3 & O3)
        & (a4 & b4 & G4 & O4) & (a5 & b5 & G5 & O5)).
  rewrite H1 in G1. rewrite H2 in G2. rewrite H3 in G3. rewrite H4 in G4.
  rewrite H5 in G5.
  injection G1 as <- <-. injection G2 as <- <-. injection G3 as <- <-.
  injection G4 as <- <-. injection G5 as <- <-.
  exists s1, s2, s3, s4, s5, f1, f2, f3, f4, f5.
  repeat (split; [assumption |]).
  split; [repeat (split; [assumption |]); assumption |].
  repeat (split; [assumption |]); assumption.
Qed.

End Results.

Section Ratings.
Local Open Scope Q_scope.

(** The six bands of [get_quality_rating]. *)
Lemma rating_bands (s : Q) :
  (0.9 <= s /\ get_quality_rating s = py "Excellent")
  \/ (0.8 <= s < 0.9 /\ get_quality_rating s = py "Very Good")
  \/ (0.7 <= s < 0.8 /\ get_quality_rating s = py "Good")
  \/ (0.6 <= s < 0.7 /\ get_quality_rating s = py "Satisfactory")
  \/ (0.5 <= s < 0.6 /\ get_quality_rating s = py "Needs Improvement")
  \/ (s < 0.5 /\ get_quality_rating s = py "Poor").
Proof.
  unfold get_quality_rating, QUALITY_RATINGS. cbn [first_rating].
  repeat match goal with
         | |- context [Qle_bool ?a ?b] =>
             let Hc := fresh "Hc" in
             destruct (Qle_bool a b) eqn:Hc;
             [apply Qle_bool_iff in Hc
             | apply not_true_iff_false in Hc; rewrite Qle_bool_iff in Hc;
               apply Qnot_le_lt in Hc]
         end.
  all: try (left; split; [assumption | reflexivity]).
  all: try (right; left; split; [split; assumption | reflexivity]).
  all: try (right; right; left; split; [split; assumption | reflexivity]).
  all: try (right; right; right; left; split;
            [split; assumption | reflexivity]).
  all: try (right; right; right; right; left; split;
            [split; assumption | reflexivity]).
  all: right; right; right; right; right; split; [assumption | reflexivity].
Qed.

(** X1. Each rating is answered on exactly one band of scores; below 0.5,
    negative scores included, the rating is "Poor". *)
Theorem rating_thresholds (s : Q) :
  (get_quality_rating s = py "Excellent" <-> 0.9 <= s)
  /\ (get_quality_rating s = py "Very Good" <-> 0.8 <= s < 0.9)
  /\ (get_quality_rating s = py "Good" <-> 0.7 <= s < 0.8)
  /\ (get_quality_rating s = py "Satisfactory" <-> 0.6 <= s < 0.7)
  /\ (get_quality_rating s = py "Needs Improvement" <-> 0.5 <= s < 0.6)
  /\ (get_quality_rating s = py "Poor" <-> s < 0.5).
Proof.
  destruct (rating_bands s)
    as [[B R] | [[B R] | [[B R] | [[B R] | [[B R] | [B R]]]]]];
    rewrite R;
    repeat match goal with |- _ /\ _ => split end;
    split; intros H;
    first [ reflexivity | lra | (split; lra)
          | (vm_compute in H; discriminate H) | (exfalso; lra) ].
Qed.

End Ratings.

Section ResultRecord.
Context {E : Engine}.
Local Open Scope Q_scope.

(** The record a successful call returns, in terms of the five answers. *)
Lemma score_submission_record (content : pystr) (thr : Q)
  (r : ScoringResult) :
  score_submission content thr = Ok r ->
  exists s1 s2 s3 s4 s5 f1 f2 f3 f4 f5,
    (0 <= s1 <= 1 /\ 0 <= s2 <= 1 /\ 0 <= s3 <= 1 /\ 0 <= s4 <= 1
     /\ 0 <= s5 <= 1)
    /\ (on_grid s1 /\ on_grid s2 /\ on_grid s3 /\ on_grid s4 /\ on_grid s5)
    /\ forall thr',
         score_submission content thr'
         = Ok {| weighted_score := round3 (weighted s1 s2 s3 s4 s5);
                 quality_rating := get_quality_rating
                                     (round3 (weighted s1 s2 s3 s4 s5));
                 scores := [ (py "completeness", s1);
                             (py "format_compliance", s2);
                             (py "coverage", s3); (py "clarity", s4);
                             (py "validity", s5) ];
                 feedback :=
                   match entry (py "completeness") f1
                         ++ entry (py "format_compliance") f2
                         ++ entry (py "coverage") f3
                         ++ entry (py "clarity") f4
                         ++ entry (py "validity") f5
                   with
                   | [] => [py "All dimensions satisfactory"]
                   | l => l
                   end;
                 pass_threshold :=
                   Qle_bool thr' (round3 (weighted s1 s2 s3 s4 s5));
                 format_detected := py "json" |}.
Proof.
  intros Hr. apply score_submission_inv in Hr. destruct Hr as [Hd _].
  destruct (score_as_answers content JSON thr)
    as (s1 & s2 & s3 & s4 & s5 & f1 & f2 & f3 & f4 & f5
        & H1 & H2 & H3 & H4 & H5 & U & G).
  exists s1, s2, s3, s4, s5, f1, f2, f3, f4, f5.
  split; [exact U |]. split; [exact G |].
  intros thr'. unfold score_submission. rewrite Hd. cbn [bind].
  apply (score_as_record content JSON thr' _ _ _ _ _ _ _ _ _ _
           H1 H2 H3 H4 H5).
Qed.

(** X2. What every returned result looks like: the verdict is the
    comparison of the weighted score with the threshold, the rating is the
    rating of the weighted score, the scores are those of the five
    dimensions in their order, the label is "json", and the feedback holds
    between one and five lines. *)
Theorem result_shape (content : pystr) (thr : Q) (r : ScoringResult) :
  score_submission content thr = Ok r ->
  (pass_threshold r = true <-> thr <= weighted_score r)
  /\ quality_rating r = get_quality_rating (weighted_score r)
  /\ map fst (scores r) = dimension_names
  /\ format_detected r = py "json"
  /\ (1 <= List.length (feedback r) <= 5)%nat.
Proof.
  intros Hr.
  destruct (score_submission_record content thr r Hr)
    as (s1 & s2 & s3 & s4 & s5 & f1 & f2 & f3 & f4 & f5 & _ & _ & Hrec).
  rewrite (Hrec thr) in Hr. injection Hr as <-.
  cbn [pass_threshold weighted_score quality_rating scores format_detected
       feedback map fst].
  split; [apply Qle_bool_iff |]. split; [reflexivity |].
  split; [reflexivity |]. split; [reflexivity |].
  pose proof (entry_length (py "completeness") f1).
  pose proof (entry_length (py "format_compliance") f2).
  pose proof (entry_length (py "coverage") f3).
  pose proof (entry_length (py "clarity") f4).
  pose proof (entry_length (py "validity") f5).
  match goal with |- context [match ?L with [] => _ | _ => _ end] =>
    assert (HL : (List.length L <= 5)%nat) by (rewrite !length_app; lia);
    destruct L as [| x l]
  end; cbn [List.length] in *; lia.
Qed.

(** X3. The threshold decides the verdict and nothing else, and a
    submission that passes a threshold passes every lower one. *)
Theorem threshold_only_sets_verdict (content : pystr) (t1 t2 : Q)
  (r1 : ScoringResult) :
  score_submission content t1 = Ok r1 ->
  exists r2,
    score_submission content t2 = Ok r2
    /\ weighted_score r2 = weighted_score r1
    /\ quality_rating r2 = quality_rating r1
    /\ scores r2 = scores r1
    /\ feedback r2 = feedback r1
    /\ format_detected r2 = format_detected r1
    /\ (t1 <= t2 -> pass_threshold r2 = true -> pass_threshold r1 = true).
Proof.
  intros Hr.
  destruct (score_submission_record content t1 r1 Hr)
    as (s1 & s2 & s3 & s4 & s5 & f1 & f2 & f3 & f4 & f5 & _ & _ & Hrec).
  rewrite (Hrec t1) in Hr. injection Hr as <-.
  eexists. split; [apply Hrec |].
  cbn [pass_threshold weighted_score quality_rating scores format_detected
       feedback].
  repeat (split; [reflexivity |]).
  intros Ht H2. apply Qle_bool_iff in H2. apply Qle_bool_iff.
  eapply Qle_trans; eassumption.
Qed.

(** X4. The weighted score lies between the lowest and the highest of the
    five dimension scores. *)
Theorem weighted_between_extremes (content : pystr) (thr : Q)
  (r : ScoringResult) (lo hi : Q) :
  score_submission content thr = Ok r ->
  In lo (map snd (scores r)) ->
  In hi (map snd (scores r)) ->
  (forall s, In s (map snd (scores r)) -> lo <= s <= hi) ->
  lo <= weighted_score r <= hi.
Proof.
  intros Hr.
  destruct (score_submission_record content thr r Hr)
    as (s1 & s2 & s3 & s4 & s5 & f1 & f2 & f3 & f4 & f5 & _ & G & Hrec).
  rewrite (Hrec thr) in Hr. injection Hr as <-.
  cbn [weighted_score scores map snd].
  intros Hlo Hhi Hall.
  assert (Glo : on_grid lo).
  { destruct G as (G1 & G2 & G3 & G4 & G5).
    destruct Hlo as [<- | [<- | [<- | [<- | [<- | []]]]]]; assumption. }
  assert (Ghi : on_grid hi).
  { destruct G as (G1 & G2 & G3 & G4 & G5).
    destruct Hhi as [<- | [<- | [<- | [<- | [<- | []]]]]]; assumption. }
  pose proof (Hall s1 (or_introl eq_refl)) as B1.
  pose proof (Hall s2 (or_intror (or_introl eq_refl))) as B2.
  pose proof (Hall s3 (or_intror (or_intror (or_introl eq_refl)))) as B3.
  pose proof (Hall s4
    (or_intror (or_intror (or_intror (or_introl eq_refl))))) as B4.
  pose proof (Hall s5
    (or_intror (or_intror (or_intror (or_intror (or_introl eq_refl))))))
    as B5.
  assert (Hw : lo <= weighted s1 s2 s3 s4 s5 <= hi)
    by (unfold weighted; lra).
  destruct Glo as [zl Hzl]. destruct Ghi as [zh Hzh]. split.
  - rewrite Hzl. apply round3_ge. rewrite <- Hzl. apply Hw.
  - rewrite Hzh. apply round3_le. rewrite <- Hzh. apply Hw.
Qed.

(** X5. With the default threshold a submission passes exactly when its
    rating is "Satisfactory" or better. *)
Theorem default_threshold_is_satisfactory (content : pystr)
  (r : ScoringResult) :
  score_submission content DEFAULT_PASS_THRESHOLD = Ok r ->
  (pass_threshold r = true <->
   (tier (py "Satisfactory") <= tier (quality_rating r))%nat).
Proof.
  intros Hr.
  destruct (score_submission_record content _ r Hr)
    as (s1 & s2 & s3 & s4 & s5 & f1 & f2 & f3 & f4 & f5 & _ & _ & Hrec).
  rewrite (Hrec DEFAULT_PASS_THRESHOLD) in Hr. injection Hr as <-.
  cbn [pass_threshold quality_rating].
  set (w := round3 (weighted s1 s2 s3 s4 s5)).
  rewrite Qle_bool_iff. unfold DEFAULT_PASS_THRESHOLD.
  destruct (rating_bands w)
    as [[B R] | [[B R] | [[B R] | [[B R] | [[B R] | [B R]]]]]];
    rewrite R; split; intros H;
    first [ lra | (vm_compute; lia) | (vm_compute in H; lia) ].
Qed.

End ResultRecord.

(** ** The margins of a submission *)

Section Stripping.

Lemma lstrip_spaces (pre s : pystr) :
  forallb isspace pre = true -> lstrip (pre ++ s) = lstrip s.
Proof.
  induction pre as [| c t IH]; cbn [forallb app lstrip]; [reflexivity |].
  intros H. apply andb_prop in H. destruct H as [Hc Ht].
  rewrite Hc. apply IH, Ht.
Qed.

Lemma lstrip_all_spaces (s : pystr) :
  forallb isspace s = true -> lstrip s = [].
Proof.
  intros H. rewrite <- (app_nil_r s). rewrite lstrip_spaces by exact H.
  reflexivity.
Qed.

(** [lstrip] leaves a text that does not start with whitespace. *)
Lemma lstrip_head (s : pystr) :
  match lstrip s with [] => True | c :: _ => isspace c = false end.
Proof.
  induction s as [| c t IH]; cbn [lstrip]; [exact I |].
  destruct (isspace c) eqn:Hc; [exact IH | exact Hc].
Qed.

Lemma lstrip_fixed (s : pystr) :
  match s with [] => True | c :: _ => isspace c = false end ->
  lstrip s = s.
Proof.
  destruct s as [| c t]; [reflexivity |]. cbn [lstrip]. intros ->.
  reflexivity.
Qed.

Lemma lstrip_app (s x : pystr) :
  lstrip s <> [] -> lstrip (s ++ x) = lstrip s ++ x.
Proof.
  induction s as [| c t IH]; cbn [lstrip app]; [intros H; contradiction |].
  destruct (isspace c); [exact IH | reflexivity].
Qed.

Lemma lstrip_forall (s : pystr) :
  lstrip s = [] -> forallb isspace s = true.
Proof.
  induction s as [| c t IH]; cbn [lstrip forallb]; [reflexivity |].
  destruct (isspace c); [exact IH | discriminate].
Qed.

Lemma rstrip_spaces (s post : pystr) :
  forallb isspace post = true -> rstrip (s ++ post) = rstrip s.
Proof.
  intros H. unfold rstrip. rewrite rev_app_distr.
  rewrite lstrip_spaces; [reflexivity |].
  rewrite forallb_forall in *. intros x Hx. apply H, in_rev, Hx.
Qed.

(** [rstrip] keeps the first character of a text that does not start with
    whitespace. *)
Lemma rstrip_head (s : pystr) :
  match s with [] => True | c :: _ => isspace c = false end ->
  match rstrip s with [] => s = [] | c :: _ => isspace c = false end.
Proof.
  destruct s as [| c t]; [reflexivity |]. intros Hc.
  unfold rstrip. cbn [rev].
  destruct (lstrip (rev t)) as [| x l] eqn:Hl.
  - apply lstrip_forall in Hl.
    assert (Hr : lstrip (rev t ++ [c]) = [c]).
    { rewrite lstrip_spaces by exact Hl. cbn [lstrip]. rewrite Hc.
      reflexivity. }
    rewrite Hr. cbn. exact Hc.
  - rewrite lstrip_app by (rewrite Hl; discriminate).
    rewrite Hl, rev_app_distr. cbn [rev app]. exact Hc.
Qed.

Lemma rstrip_idempotent (s : pystr) : rstrip (rstrip s) = rstrip s.
Proof.
  unfold rstrip. rewrite rev_involutive.
  rewrite (lstrip_fixed (lstrip (rev s))); [reflexivity |].
  apply lstrip_head.
Qed.

Lemma strip_idempotent (s : pystr) : strip (strip s) = strip s.
Proof.
  unfold strip.
  pose proof (rstrip_head (lstrip s) (lstrip_head s)) as H.
  rewrite (lstrip_fixed (rstrip (lstrip s))).
  - apply rstrip_idempotent.
  - destruct (rstrip (lstrip s)); [exact I | exact H].
Qed.

Lemma strip_surrounded (pre s post : pystr) :
  forallb isspace pre = true -> forallb isspace post = true ->
  strip (pre ++ s ++ post) = strip s.
Proof.
  intros Hpre Hpost. unfold strip. rewrite lstrip_spaces by exact Hpre.
  destruct (lstrip s) as [| c t] eqn:Hs.
  - apply lstrip_forall in Hs.
    rewrite lstrip_all_spaces; [reflexivity |].
    rewrite forallb_app, Hs, Hpost. reflexivity.
  - rewrite lstrip_app by (rewrite Hs; discriminate).
    rewrite Hs. apply rstrip_spaces, Hpost.
Qed.

End Stripping.

Section DetectionMore.
Context {E : Engine}.

(** X6. Whitespace around a submission does not change what
    [detect_format] answers. *)
Theorem detect_format_ignores_margins (pre content post : pystr) :
  forallb isspace pre = true -> forallb isspace post = true ->
  detect_format (pre ++ content ++ post) = detect_format content.
Proof.
  intros Hpre Hpost. unfold detect_format.
  rewrite (strip_surrounded pre content post Hpre Hpost). reflexivity.
Qed.

(** X7. [detect_format] answers neither MARKDOWN nor TEXT on any
    submission.  On a submission within the limits of the interpreter it
    answers JSON exactly when the trimmed text starts with a brace or a
    bracket and parses, to a document nested at most [NESTING_ROOM] deep,
    and raises [re.error] otherwise.  (Past the limits [json.loads] may
    raise [RecursionError] or [ValueError], which [detect_format] lets
    through.) *)
Theorem detect_format_answers (content : pystr) :
  detect_format content <> Ok MARKDOWN
  /\ detect_format content <> Ok TEXT
  /\ (within_limits content = true ->
      (detect_format content = Ok JSON <->
       startswith (py "{") (strip content)
       || startswith (py "[") (strip content) = true
       /\ is_ok (json_loads (strip content)) = true)
      /\ (detect_format content <> Ok JSON ->
          detect_format content = Raise unterminated_group)
      /\ (forall v, json_loads (strip content) = Ok v ->
                    (nesting v <= NESTING_ROOM)%nat)).
Proof.
  assert (Hnever : detect_format content <> Ok MARKDOWN
                   /\ detect_format content <> Ok TEXT).
  { destruct (detect_format_cases content) as [H | H]; rewrite H;
      split; discriminate. }
  destruct Hnever as [Hmd Htext].
  split; [exact Hmd |]. split; [exact Htext |].
  intros Hlim. split; [apply detect_format_json |]. split.
  - destruct (detect_format_cases content) as [H | H]; rewrite H.
    + intros Hn. contradiction.
    + intros _. reflexivity.
  - intros v. apply within_limits_detected, Hlim.
Qed.

End DetectionMore.

(** ** How far the penalties go *)

Section Penalties.
Context {E : Engine}.
Local Open Scope Q_scope.

Lemma pymax_mono (a b : Q) : a <= b -> pymax 0 a <= pymax 0 b.
Proof.
  intros H. rewrite !pymax_spec. apply Q.max_le_compat_l. exact H.
Qed.

Lemma round3_floor_ge (k : Z) (q s : Q) :
  q == k # 1000 -> q <= s -> q <= round3 (pymax 0 s).
Proof.
  intros Hq H. rewrite Hq. apply round3_ge. rewrite <- Hq.
  eapply Qle_trans; [exact H |]. rewrite pymax_spec. apply Q.le_max_r.
Qed.

Ltac floor_at k :=
  eexists; eexists; (split; [reflexivity |]);
  try unfold finish_floor; try unfold finish; cbn [fst];
  apply (round3_floor_ge k); [reflexivity | lra].

Lemma unused_imports_ge (content : pystr) (imports : list pystr) (score : Q)
  (issues : list pystr) :
  score - 0.25 <= fst (unused_imports content imports score issues).
Proof.
  unfold unused_imports.
  assert (Hlen : (List.length (firstn 5 imports) <= 5)%nat)
    by apply firstn_le_length.
  assert (Hgen : forall l score issues,
             score - 0.05 * qn (List.length l)
             <= fst (fold_left
                       (fun '(score, issues) imp =>
                          let after :=
                            slice_from
                              (find imp content + Z.of_nat (List.length imp))
                              content in
                          if negb (contains imp after)
                          then (score - 0.05,
                                issues ++ [py "Potentially unused: " ++ imp])
                          else (score, issues)) l (score, issues))).
  { induction l as [| imp t IH]; intros sc iss; cbn [fold_left fst List.length].
    - change (qn 0) with 0. lra.
    - assert (Hq : qn (S (List.length t)) == qn (List.length t) + 1).
      { unfold qn. rewrite Nat2Z.inj_succ, <- Z.add_1_r, inject_Z_plus.
        reflexivity. }
      pose proof (qn_nonneg (List.length t)) as Hn.
      cbv zeta. destruct (negb _).
      + eapply Qle_trans; [| apply IH]. rewrite Hq. lra.
      + eapply Qle_trans; [| apply IH]. rewrite Hq. lra. }
  eapply Qle_trans; [| apply Hgen].
  pose proof (qn_le _ _ Hlen) as Hq.
  change (qn 5) with 5 in Hq. lra.
Qed.

(** X8. On every content and format (for JSON, on content that parses)
    the format-compliance and validity scorers return, and their penalties
    leave at least the floor of the format; the floor at 0 of the code is
    reached only by a JSON submission that does not parse. *)
Theorem penalties_are_bounded (content : pystr) (ft : FormatType) :
  (ft = JSON -> is_ok (json_loads content) = true) ->
  exists s1 f1 s2 f2,
    score_format_compliance content ft = Ok (s1, f1)
    /\ score_validity content ft = Ok (s2, f2)
    /\ format_compliance_floor ft <= s1
    /\ validity_floor ft <= s2.
Proof.
  intros Hjson.
  assert (H1 : exists s1 f1,
             score_format_compliance content ft = Ok (s1, f1)
             /\ format_compliance_floor ft <= s1).
  { destruct ft; unfold score_format_compliance, format_compliance_floor.
    - destruct (json_loads content) as [data | e];
        [| specialize (Hjson eq_refl); discriminate].
      case_tests; floor_at 900%Z.
    - run_re. case_tests; floor_at 400%Z.
    - case_tests; floor_at 700%Z.
    - run_re. case_tests; run_re; case_tests; floor_at 800%Z. }
  assert (H2 : exists s2 f2,
             score_validity content ft = Ok (s2, f2)
             /\ validity_floor ft <= s2).
  { destruct ft; unfold score_validity, validity_floor.
    - destruct (json_loads content) as [data | e];
        [| specialize (Hjson eq_refl); discriminate].
      assert (Hm : qn (Nat.min (count_nulls data) 5) <= 5).
      { change 5 with (qn 5). apply qn_le, Nat.le_min_r. }
      case_tests; floor_at 500%Z.
    - run_re. case_tests; run_re; case_tests; floor_at 600%Z.
    - case_tests; cbv beta iota zeta; run_re; case_tests;
        cbv beta iota zeta; run_re;
        match goal with
        | |- context [unused_imports ?c ?i ?s0 ?is0] =>
            pose proof (unused_imports_ge c i s0 is0);
            destruct (unused_imports c i s0 is0) as [score issues]
        end;
        cbn [fst] in *; floor_at 350%Z.
    - case_tests; cbv beta iota zeta; run_re; case_tests; floor_at 800%Z. }
  destruct H1 as (s1 & f1 & H1 & B1). destruct H2 as (s2 & f2 & H2 & B2).
  exists s1, f1, s2, f2. repeat split; assumption.
Qed.

End Penalties.

(** ** What the scorers parse *)

Section Containers.

Lemma object_loop_dict (fuel : nat) :
  forall d s pos v rest p,
    object_loop fuel d s pos = inr (v, rest, p) -> exists d', v = JDict d'.
Proof.
  induction fuel as [| f IH]; intros d s pos v rest p; cbn [object_loop];
    [discriminate |].
  destruct s as [| c t]; [discriminate |].
  destruct (c =? 34)%N; [| discriminate].
  destruct (scanstring _ t _ pos []) as [e | [[key s1] p1]]; [discriminate |].
  destruct (skip_ws s1 p1) as [[| c2 t2] p2]; [discriminate |].
  destruct (c2 =? 58)%N; [| discriminate].
  destruct (skip_ws t2 (S p2)) as [s3 p3].
  destruct (scan_once f s3 p3) as [e | [[v' s4] p4]]; [discriminate |].
  cbv zeta.
  destruct (skip_ws s4 p4) as [[| c5 t5] p5]; [discriminate |].
  destruct (c5 =? 125)%N.
  - intros [= <- _ _]. eexists; reflexivity.
  - destruct (c5 =? 44)%N; [| discriminate].
    destruct (skip_ws t5 (S p5)) as [s6 p6]. apply IH.
Qed.

Lemma array_loop_list (fuel : nat) :
  forall acc s pos v rest p,
    array_loop fuel acc s pos = inr (v, rest, p) -> exists l, v = JList l.
Proof.
  induction fuel as [| f IH]; intros acc s pos v rest p; cbn [array_loop];
    [discriminate |].
  destruct (scan_once f s pos) as [e | [[v' s1] p1]]; [discriminate |].
  destruct (skip_ws s1 p1) as [[| c2 t2] p2]; [discriminate |].
  destruct (c2 =? 93)%N.
  - intros [= <- _ _]. eexists; reflexivity.
  - destruct (c2 =? 44)%N; [| discriminate].
    destruct (skip_ws t2 (S p2)) as [s3 p3]. apply IH.
Qed.

(** A document that opens with a brace or a bracket scans to a container. *)
Lemma scan_once_container (fuel : nat) (c : pychar) (t : pystr) (pos : nat)
  (v : json) (rest : pystr) (p : nat) :
  c = 123%N \/ c = 91%N ->
  scan_once fuel (c :: t) pos = inr (v, rest, p) -> is_container v = true.
Proof.
  intros Hc. destruct fuel as [| f]; cbn [scan_once]; [discriminate |].
  destruct Hc as [-> | ->].
  - change (123 =? 34)%N with false. change (123 =? 123)%N with true.
    cbv iota.
    destruct (skip_ws t (S pos)) as [[| c1 t1] p1].
    + intros H. apply object_loop_dict in H. destruct H as [d' ->].
      reflexivity.
    + destruct (c1 =? 125)%N.
      * intros [= <- _ _]. reflexivity.
      * intros H. apply object_loop_dict in H. destruct H as [d' ->].
        reflexivity.
  - change (91 =? 34)%N with false. change (91 =? 123)%N with false.
    change (91 =? 91)%N with true. cbv iota.
    destruct (skip_ws t (S pos)) as [[| c1 t1] p1].
    + intros H. apply array_loop_list in H. destruct H as [l ->].
      reflexivity.
    + destruct (c1 =? 93)%N.
      * intros [= <- _ _]. reflexivity.
      * intros H. apply array_loop_list in H. destruct H as [l ->].
        reflexivity.
Qed.

Lemma isspace_codes (c : pychar) :
  isspace c = true ->
  (9 <= c <= 13 \/ 28 <= c <= 32 \/ c = 133 \/ c = 160 \/ c = 5760
   \/ 8192 <= c <= 8202 \/ c = 8232 \/ c = 8233 \/ c = 8239 \/ c = 8287
   \/ c = 12288)%N.
Proof.
  unfold isspace. intros H.
  repeat rewrite orb_true_iff in H. repeat rewrite andb_true_iff in H.
  repeat rewrite N.leb_le in H. repeat rewrite N.eqb_eq in H.
  lia.
Qed.

Lemma keyword_space (name : string) (v : json) (c k : pychar)
  (t rest : pystr) (pos : nat) :
  py name = k :: rest -> isspace k = false -> isspace c = true ->
  keyword name v (c :: t) pos = None.
Proof.
  intros Hn Hk Hc. unfold keyword. rewrite Hn. cbn [startswith].
  destruct (N.eqb_spec k c) as [-> |]; [| reflexivity].
  rewrite Hk in Hc. discriminate.
Qed.

(** No value starts with a whitespace character of [str.isspace]. *)
Lemma scan_once_space (fuel : nat) (c : pychar) (t : pystr) (pos : nat) :
  isspace c = true ->
  exists e, scan_once fuel (c :: t) pos = inl e.
Proof.
  intros Hc. destruct fuel as [| f]; cbn [scan_once];
    [eexists; reflexivity |].
  assert (Hne : forall k : N, isspace k = false -> (c =? k)%N = false).
  { intros k Hk. destruct (N.eqb_spec c k) as [-> |]; [| reflexivity].
    rewrite Hk in Hc. discriminate. }
  rewrite (Hne 34%N eq_refl), (Hne 123%N eq_refl), (Hne 91%N eq_refl).
  rewrite (keyword_space "null" _ c 110%N t _ pos eq_refl eq_refl Hc).
  rewrite (keyword_space "true" _ c 116%N t _ pos eq_refl eq_refl Hc).
  rewrite (keyword_space "false" _ c 102%N t _ pos eq_refl eq_refl Hc).
  rewrite (keyword_space "NaN" _ c 78%N t _ pos eq_refl eq_refl Hc).
  rewrite (keyword_space "Infinity" _ c 73%N t _ pos eq_refl eq_refl Hc).
  rewrite (keyword_space "-Infinity" _ c 45%N t _ pos eq_refl eq_refl Hc).
  unfold match_number.
  rewrite (Hne 45%N eq_refl), (Hne 48%N eq_refl).
  assert (Hd : is_digit c = false).
  { apply isspace_codes in Hc. unfold is_digit.
    destruct (48 <=? c)%N eqn:H1; [| reflexivity].
    destruct (c <=? 57)%N eqn:H2; [| reflexivity].
    apply N.leb_le in H1, H2. exfalso. lia. }
  rewrite Hd. eexists; reflexivity.
Qed.

Lemma is_ws_isspace (c : pychar) : is_ws c = true -> isspace c = true.
Proof.
  unfold is_ws. rewrite !orb_true_iff, !N.eqb_eq.
  intros [[[-> | ->] | ->] | ->]; reflexivity.
Qed.

Lemma skip_ws_lstrip (s : pystr) (pos : nat) :
  lstrip (fst (skip_ws s pos)) = lstrip s.
Proof.
  revert pos. induction s as [| c t IH]; intros pos; cbn [skip_ws];
    [reflexivity |].
  destruct (is_ws c) eqn:Hc.
  - rewrite IH. cbn [lstrip]. rewrite (is_ws_isspace c Hc). reflexivity.
  - reflexivity.
Qed.

Lemma rstrip_cons (c : pychar) (t : pystr) :
  isspace c = false -> exists t', rstrip (c :: t) = c :: t'.
Proof.
  intros Hc. unfold rstrip. cbn [rev].
  destruct (lstrip (rev t)) as [| x l] eqn:Hl.
  - apply lstrip_forall in Hl.
    rewrite lstrip_spaces by exact Hl. cbn [lstrip]. rewrite Hc.
    exists []. reflexivity.
  - rewrite lstrip_app by (rewrite Hl; discriminate).
    rewrite Hl, rev_app_distr. cbn [rev app]. eexists; reflexivity.
Qed.

Lemma strip_head (s : pystr) (c : pychar) (t : pystr) :
  strip s = c :: t -> exists t', lstrip s = c :: t'.
Proof.
  unfold strip. intros H.
  destruct (lstrip s) as [| c0 t0] eqn:Hl; [discriminate H |].
  assert (Hc0 : isspace c0 = false).
  { pose proof (lstrip_head s) as Hh. rewrite Hl in Hh. exact Hh. }
  destruct (rstrip_cons c0 t0 Hc0) as [t1 Hr].
  rewrite Hr in H. injection H as -> _. exists t0. reflexivity.
Qed.

End Containers.

Section JsonSubmissions.
Context {E : Engine}.
Local Open Scope Q_scope.

(** What [detect_format] classifies JSON parses, in the scorers, to a
    mapping or a sequence, when it parses. *)
Lemma parsed_is_container (content : pystr) (v : json) :
  detect_format content = Ok JSON ->
  json_loads content = Ok v -> is_container v = true.
Proof.
  intros Hd Hv. apply detect_format_json in Hd. destruct Hd as [Hstart _].
  assert (Hhead : exists c t, lstrip content = c :: t
                              /\ (c = 123%N \/ c = 91%N)).
  { destruct (strip content) as [| c t] eqn:Hs; [discriminate Hstart |].
    destruct (strip_head content c t Hs) as [t' Ht'].
    exists c, t'. split; [exact Ht' |].
    change (py "{") with [123%N] in Hstart.
    change (py "[") with [91%N] in Hstart.
    cbn [startswith] in Hstart. apply orb_true_iff in Hstart.
    destruct Hstart as [H | H]; apply andb_true_iff in H; destruct H as [H _];
      apply N.eqb_eq in H; [left | right]; symmetry; exact H. }
  destruct Hhead as (c & t & Hl & Hc).
  unfold json_loads, json_loads_with in Hv.
  destruct (startswith _ content); [discriminate Hv |].
  pose proof (skip_ws_lstrip content 0) as Hskip.
  destruct (skip_ws content 0) as [s0 p0]. cbn [fst] in Hskip.
  rewrite Hl in Hskip.
  destruct s0 as [| c0 t0]; [discriminate Hskip |].
  destruct (isspace c0) eqn:Hc0.
  - destruct (scan_once_space (2 * List.length content + 2) c0 t0 p0 Hc0)
      as [[msg pos] He].
    rewrite He in Hv. discriminate Hv.
  - cbn [lstrip] in Hskip. rewrite Hc0 in Hskip. injection Hskip as -> _.
    destruct (scan_once _ (c :: t0) p0) as [[msg pos] | [[v' s1] p1]] eqn:Hscan;
      [discriminate Hv |].
    destruct (skip_ws s1 p1) as [[| x s2] p2]; [| discriminate Hv].
    injection Hv as ->.
    apply (scan_once_container _ c t0 p0 v s1 p1 Hc Hscan).
Qed.

End JsonSubmissions.

Section JsonScoring.
Context {E : Engine}.
Local Open Scope Q_scope.

(** The four scorers that parse the submission, on one that does not
    parse. *)
Lemma unparsed_scores (content : pystr) :
  is_ok (json_loads content) = false ->
  exists f1 f2 f5,
    score_completeness content JSON = Ok (0, f1)
    /\ score_format_compliance content JSON = Ok (0, f2)
    /\ score_coverage content JSON = Ok (0, py "Good coverage")
    /\ score_validity content JSON = Ok (0, f5)
    /\ f1 = py "Invalid JSON structure".
Proof.
  intros Hfail.
  unfold score_completeness, score_format_compliance, score_coverage,
    score_validity.
  destruct (json_loads content) as [v | e] eqn:Hdoc; [discriminate Hfail |].
  destruct (json_loads_raises _ _ Hdoc) as (m & l & c & p & ->).
  eexists; eexists; eexists.
  repeat split; reflexivity.
Qed.

(** X9. A submission that [detect_format] classifies JSON and that the
    scorers cannot parse is scored 0 on completeness, format compliance,
    coverage and validity; only clarity counts, the weighted score is at
    most 0.15 and the rating is "Poor". *)
Theorem unparsed_payload_is_poor (content : pystr) (thr : Q) :
  detect_format content = Ok JSON ->
  is_ok (json_loads content) = false ->
  exists r clarity,
    score_submission content thr = Ok r
    /\ map snd (scores r) = [0; 0; 0; clarity; 0]
    /\ weighted_score r <= 0.15
    /\ quality_rating r = py "Poor"
    /\ In (py "completeness: Invalid JSON structure") (feedback r).
Proof.
  intros Hd Hfail.
  destruct (unparsed_scores content Hfail)
    as (f1 & f2 & f5 & H1 & H2 & H3 & H5 & ->).
  destruct (score_clarity_unit content JSON) as (s4 & f4 & H4 & U4).
  pose proof (score_as_record content JSON thr _ _ _ _ _ _ _ _ _ _
                H1 H2 H3 H4 H5) as Hr.
  unfold score_submission. rewrite Hd. cbn [bind]. rewrite Hr.
  eexists; exists s4. split; [reflexivity |].
  cbn [scores weighted_score quality_rating feedback map snd].
  split; [reflexivity |].
  assert (Hw : round3 (weighted 0 0 0 s4 0) <= 0.15).
  { apply Qle_trans with (150 # 1000); [| discriminate].
    apply round3_le. unfold weighted. destruct U4 as [_ U4].
    apply Qle_trans with (15 # 100); [lra | discriminate]. }
  split; [exact Hw |]. split.
  - destruct (rating_bands (round3 (weighted 0 0 0 s4 0)))
      as [[B R] | [[B R] | [[B R] | [[B R] | [[B R] | [B R]]]]]];
      try exact R; exfalso; lra.
  - change (entry (py "completeness") (py "Invalid JSON structure"))
      with [py "completeness: Invalid JSON structure"].
    cbn [app]. left. reflexivity.
Qed.

(** The completeness score of a mapping, by the fields it has. *)
Lemma mapping_completeness_cases (content : pystr)
  (d : list (pystr * json)) :
  json_loads content = Ok (JDict d) ->
  exists s fb,
    score_completeness content JSON = Ok (s, fb)
    /\ s == qn (count_if (fun f => dict_has f d) required_fields) / 5
    /\ (s == 1 <-> forallb (fun f => dict_has f d) required_fields = true)
    /\ (fb = py "Complete" <->
        forallb (fun f => dict_has f d) required_fields = true)
    /\ ~ s == 1 # 2
    /\ fb <> py "JSON structure is minimal".
Proof.
  intros Hdoc. unfold score_completeness. rewrite Hdoc.
  unfold required_fields, count_if. cbn [filter forallb].
  destruct (dict_has (py "id") d), (dict_has (py "name") d),
    (dict_has (py "data") d), (dict_has (py "value") d),
    (dict_has (py "type") d);
    vm_compute; eexists; eexists; (split; [reflexivity |]);
    repeat split; intros; try reflexivity; try discriminate.
Qed.

(** X10. The completeness of a mapping is the share of the five fields
    id, name, data, value and type among its keys: 1 exactly when all five
    are there, whatever else the mapping holds. *)
Theorem mapping_completeness (content : pystr) (d : list (pystr * json)) :
  json_loads content = Ok (JDict d) ->
  exists s fb,
    score_completeness content JSON = Ok (s, fb)
    /\ s == qn (count_if (fun f => dict_has f d) required_fields) / 5
    /\ (s == 1 <-> forallb (fun f => dict_has f d) required_fields = true)
    /\ (fb = py "Complete" <->
        forallb (fun f => dict_has f d) required_fields = true).
Proof.
  intros Hdoc.
  destruct (mapping_completeness_cases content d Hdoc)
    as (s & fb & H & Hs & H1 & Hf & _).
  exists s, fb. repeat (split; [assumption |]). assumption.
Qed.

End JsonScoring.

Section JsonScoring2.
Context {E : Engine}.
Local Open Scope Q_scope.

Lemma qn_le_iff (n m : nat) : qn n <= qn m <-> (n <= m)%nat.
Proof. unfold qn, Qle. cbn [Qnum Qden inject_Z]. lia. Qed.

Lemma qn_plus (n m : nat) : qn (n + m) == qn n + qn m.
Proof. unfold qn. rewrite Nat2Z.inj_add, inject_Z_plus. reflexivity. Qed.

(** [min(1.0, n / 10)] is a multiple of one tenth. *)
Lemma tenths_exact (n : nat) :
  round3 (pymin 1 (qn n / 10)) == Qmin 1 (qn n / 10).
Proof.
  assert (Hz : exists z : Z, pymin 1 (qn n / 10) == z # 1000).
  { unfold pymin. destruct (Qltb _ 1).
    - exists (100 * Z.of_nat n)%Z.
      unfold qn. rewrite (Qmake_Qdiv _ 1000), inject_Z_mult.
      change (inject_Z (Z.pos 1000)) with 1000.
      change (inject_Z 100) with 100. field.
    - exists 1000%Z. reflexivity. }
  destruct Hz as [z Hz].
  rewrite (round3_exact _ z Hz), <- Hz. apply pymin_spec.
Qed.

(** X11. The scores of a sequence: complete unless it is empty, and covered
    by its length, ten items or more giving 1. *)
Theorem sequence_scores (content : pystr) (items : list json) :
  json_loads content = Ok (JList items) ->
  exists s1 f1 s3 f3,
    score_completeness content JSON = Ok (s1, f1)
    /\ score_coverage content JSON = Ok (s3, f3)
    /\ (items = [] -> s1 == 0 /\ f1 = py "Empty array")
    /\ (items <> [] -> s1 == 1 /\ f1 = py "Complete")
    /\ s3 == Qmin 1 (qn (List.length items) / 10)
    /\ (s3 == 1 <-> (10 <= List.length items)%nat).
Proof.
  intros Hdoc. unfold score_completeness, score_coverage. rewrite Hdoc.
  eexists; eexists; eexists; eexists.
  split; [reflexivity |]. split; [reflexivity |].
  split; [intros ->; split; reflexivity |].
  split; [destruct items; [contradiction | intros _; split; reflexivity] |].
  unfold finish. cbn [fst].
  pose proof (tenths_exact (List.length items)) as Hs.
  split; [exact Hs |]. rewrite Hs.
  change (qn (List.length items) / 10)
    with (qn (List.length items) * (1 # 10)).
  pose proof (qn_le_iff 10 (List.length items)) as Hq.
  change (qn 10) with 10 in Hq.
  destruct (Q.min_spec 1 (qn (List.length items) * (1 # 10)))
    as [[Hlt ->] | [Hle ->]]; split; intros H.
  - apply Hq. lra.
  - reflexivity.
  - apply Hq. lra.
  - apply Hq in H. lra.
Qed.

(** X12. The validity of a submission that parses is 1 less one tenth for
    each null or empty value counted, five at most: 1 exactly when nothing
    is counted and never under 0.5. *)
Theorem validity_of_parsed (content : pystr) (data : json) :
  json_loads content = Ok data ->
  exists s fb,
    score_validity content JSON = Ok (s, fb)
    /\ s == 1 - (1 # 10) * qn (Nat.min (count_nulls data) 5)
    /\ (s == 1 <-> count_nulls data = 0%nat)
    /\ 1 # 2 <= s
    /\ (fb = py "Valid" <-> count_nulls data = 0%nat).
Proof.
  intros Hdoc.
  destruct (validity_by_count content data Hdoc) as (s & fb & Hv & Hs).
  exists s, fb. split; [exact Hv |]. split; [exact Hs |].
  pose proof (qn_le_iff (Nat.min (count_nulls data) 5) 5) as H5.
  pose proof (qn_le_iff (Nat.min (count_nulls data) 5) 0) as H0.
  pose proof (qn_nonneg (Nat.min (count_nulls data) 5)) as Hn.
  change (qn 5) with 5 in H5. change (qn 0) with 0 in H0.
  split; [| split].
  - rewrite Hs. split; intros H.
    + assert (Hm : (Nat.min (count_nulls data) 5 <= 0)%nat)
        by (apply H0; lra).
      lia.
    + rewrite H. reflexivity.
  - rewrite Hs.
    assert (Hm : qn (Nat.min (count_nulls data) 5) <= 5)
      by (apply H5, Nat.le_min_r).
    lra.
  - unfold score_validity in Hv. rewrite Hdoc in Hv.
    destruct (0 <? count_nulls data)%nat eqn:Hc.
    + apply Nat.ltb_lt in Hc. injection Hv as _ <-.
      split; [discriminate | lia].
    + apply Nat.ltb_ge in Hc. injection Hv as _ <-.
      split; [lia | reflexivity].
Qed.

End JsonScoring2.

(** ** Depth and counts of a document *)

Section Depth.

Lemma max_shift (c : nat) (l : list nat) :
  l <> [] ->
  fold_right Nat.max 0%nat (map (fun x => (c + x)%nat) l)
  = (c + fold_right Nat.max 0%nat l)%nat.
Proof.
  induction l as [| x [| y t] IH]; intros Hne; [contradiction | |].
  - cbn. lia.
  - cbn [map fold_right] in *. rewrite IH by discriminate. lia.
Qed.

Lemma get_dict_depth_shift (v : json) :
  forall n, get_dict_depth v n = (n + get_dict_depth v 0)%nat.
Proof.
  induction v as [| b | z | f | s | items _ | pairs IH]
    using json_nested_ind; intros n; try (cbn [get_dict_depth]; lia).
  destruct pairs as [| p ps]; [cbn [get_dict_depth]; lia |].
  cbn [get_dict_depth].
  set (l := p :: ps) in *.
  assert (Hl : l <> []) by discriminate.
  assert (Hmap : forall k,
             map (fun '(_, v) => get_dict_depth v (S k)) l
             = map (fun x => (S k + x)%nat)
                 (map (fun kv => get_dict_depth (snd kv) 0) l)).
  { intros k. clear Hl.
    induction IH as [| [k0 v0] t Hv _ IHt]; cbn [map snd] in *;
      [reflexivity |].
    rewrite IHt, (Hv (S k)). reflexivity. }
  rewrite (Hmap n), (Hmap 0%nat).
  rewrite !max_shift by (intros H; apply map_eq_nil in H; contradiction).
  lia.
Qed.

(** X13. [get_dict_depth] counts the levels of mappings from the depth it
    is given: starting at [n] adds [n] to the depth from 0; a mapping that
    is not empty is one level at least, and one more than the deepest of
    its values; sequences are not entered, so a mapping inside a sequence
    adds no level. *)
Theorem get_dict_depth_levels (v : json) (n : nat) :
  get_dict_depth v n = (n + get_dict_depth v 0)%nat
  /\ (forall p ps,
         get_dict_depth (JDict (p :: ps)) 0
         = S (fold_right Nat.max 0%nat
                (map (fun kv => get_dict_depth (snd kv) 0) (p :: ps))))
  /\ (forall items, get_dict_depth (JList items) n = n)
  /\ (forall k items, get_dict_depth (JDict [(k, JList items)]) n = S n).
Proof.
  split; [apply get_dict_depth_shift |].
  split; [| split; intros; reflexivity].
  intros p ps. cbn [get_dict_depth].
  assert (Hmap : map (fun '(_, v) => get_dict_depth v 1) (p :: ps)
                 = map (fun x => (1 + x)%nat)
                     (map (fun kv => get_dict_depth (snd kv) 0) (p :: ps))).
  { rewrite map_map. apply map_ext. intros [k0 v0]. cbn [snd].
    apply get_dict_depth_shift. }
  rewrite Hmap, max_shift by discriminate. reflexivity.
Qed.

End Depth.

Section Nulls.

(** The loops of [count_nulls] over the values of a mapping and over the
    items of a sequence, from a count. *)
Lemma count_loop_from {A : Type} (f : A -> nat) (l : list A) (c : nat) :
  fold_left (fun count x => (count + f x)%nat) l c
  = (c + fold_left (fun count x => (count + f x)%nat) l 0)%nat.
Proof.
  revert c. induction l as [| x t IH]; intros c; cbn [fold_left]; [lia |].
  rewrite (IH (c + f x)%nat), (IH (0 + f x)%nat). lia.
Qed.

End Nulls.

Section Nulls2.

(** X14. [count_nulls] adds up over the parts of a sequence and of a
    mapping. *)
Theorem count_nulls_concat :
  (forall a b : list json,
      count_nulls (JList (a ++ b))
      = (count_nulls (JList a) + count_nulls (JList b))%nat)
  /\ (forall a b : list (pystr * json),
         count_nulls (JDict (a ++ b))
         = (count_nulls (JDict a) + count_nulls (JDict b))%nat).
Proof.
  split; intros a b; cbn [count_nulls]; rewrite fold_left_app.
  - set (g := fun item =>
                match item with
                | JNull | JStr [] | JDict [] => 1%nat
                | JDict _ | JList _ => count_nulls item
                | _ => 0%nat
                end).
    assert (Hf : forall l c,
               fold_left
                 (fun count item =>
                    match item with
                    | JNull | JStr [] | JDict [] => (count + 1)%nat
                    | JDict _ | JList _ => (count + count_nulls item)%nat
                    | _ => count
                    end) l c
               = fold_left (fun count x => (count + g x)%nat) l c).
    { induction l as [| x t IH]; intros c; cbn [fold_left]; [reflexivity |].
      rewrite IH. f_equal.
      destruct x as [| | | | [| ? ?] | | [| ? ?]]; cbn [g]; lia. }
    rewrite !Hf. apply count_loop_from.
  - set (g := fun kv : pystr * json =>
                match snd kv with
                | JNull | JStr [] | JList [] => 1%nat
                | JDict _ | JList _ => count_nulls (snd kv)
                | _ => 0%nat
                end).
    assert (Hf : forall l c,
               fold_left
                 (fun count '(_, v) =>
                    match v with
                    | JNull | JStr [] | JList [] => (count + 1)%nat
                    | JDict _ | JList _ => (count + count_nulls v)%nat
                    | _ => count
                    end) l c
               = fold_left (fun count x => (count + g x)%nat) l c).
    { induction l as [| [k x] t IH]; intros c; cbn [fold_left];
        [reflexivity |].
      rewrite IH. f_equal.
      destruct x as [| | | | [| ? ?] | [| ? ?] |]; cbn [g snd]; lia. }
    rewrite !Hf. apply count_loop_from.
Qed.

End Nulls2.

Section JsonScoring3.
Context {E : Engine}.
Local Open Scope Q_scope.

(** X15. On a submission within the limits of the interpreter, the depth
    of a mapping is at most [NESTING_ROOM], and its coverage is 0 exactly
    for the empty mapping and reaches its maximum 0.5 exactly when the
    number of keys plus twice the depth is ten or more.  (Past the limits,
    on a mapping nested some hundreds of levels deep, the bare [except] of
    [score_coverage] swallows the [RecursionError] of [get_dict_depth] and
    the score is 0.) *)
Theorem mapping_coverage_extremes (content : pystr)
  (d : list (pystr * json)) :
  within_limits content = true ->
  json_loads content = Ok (JDict d) ->
  exists s fb,
    score_coverage content JSON = Ok (s, fb)
    /\ (get_dict_depth (JDict d) 0 <= NESTING_ROOM)%nat
    /\ (s == 0 <-> d = [])
    /\ (s == 1 # 2 <->
        (10 <= List.length d + 2 * get_dict_depth (JDict d) 0)%nat).
Proof.
  intros Hlim Hdoc.
  pose proof (proj2 (within_limits_nesting content (JDict d) Hlim Hdoc))
    as Hroom.
  rewrite (coverage_mapping_value content d Hdoc).
  eexists; eexists; split; [reflexivity |]. split; [exact Hroom |].
  clear Hroom. unfold finish. cbn [fst].
  set (k := List.length d). set (dp := get_dict_depth (JDict d) 0).
  rewrite (mapping_score_exact k dp).
  change (qn k / 10) with (qn k * (1 # 10)).
  change (qn dp / 5) with (qn dp * (1 # 5)).
  match goal with
  | |- context [Qmin 1 ?x / 2] => change (Qmin 1 x / 2) with (Qmin 1 x * (1 # 2))
  end.
  pose proof (qn_nonneg k) as Hk. pose proof (qn_nonneg dp) as Hd.
  pose proof (qn_le_iff 10 (k + 2 * dp)) as H10.
  pose proof (qn_le_iff k 0) as H0.
  assert (Hsum : qn (k + 2 * dp) == qn k + 2 * qn dp).
  { rewrite qn_plus. replace (2 * dp)%nat with (dp + dp)%nat by lia.
    rewrite qn_plus. ring. }
  rewrite Hsum in H10. change (qn 10) with 10 in H10.
  change (qn 0) with 0 in H0.
  split.
  - split.
    + intros H.
      assert (Hk0 : (k <= 0)%nat).
      { apply H0.
        destruct (Q.min_spec 1 (qn k * (1 # 10) + qn dp * (1 # 5)))
          as [[Hlt Hm] | [Hle Hm]]; rewrite Hm in H; lra. }
      destruct d; [reflexivity | cbn in Hk0; lia].
    + intros ->. reflexivity.
  - destruct (Q.min_spec 1 (qn k * (1 # 10) + qn dp * (1 # 5)))
      as [[Hlt ->] | [Hle ->]]; split; intros H.
    + apply H10. lra.
    + reflexivity.
    + apply H10. lra.
    + apply H10 in H. lra.
Qed.

(** X16. The branch of the scorers for a document that is neither a mapping
    nor a sequence is never taken on a submission that [score_submission]
    scores: what it parsed is a mapping or a sequence, and the completeness
    score is not the 0.5 of that branch. *)
Theorem minimal_structure_unreachable (content : pystr) (thr : Q)
  (r : ScoringResult) :
  score_submission content thr = Ok r ->
  (forall v, json_loads content = Ok v -> is_container v = true)
  /\ exists s fb,
       score_completeness content JSON = Ok (s, fb)
       /\ score_of (scores r) (py "completeness") = Some s
       /\ ~ s == 1 # 2
       /\ fb <> py "JSON structure is minimal".
Proof.
  intros Hr. destruct (score_submission_inv content thr r Hr) as [Hd Has].
  split; [intros v; apply parsed_is_container, Hd |].
  destruct (score_as_answers content JSON thr)
    as (s1 & s2 & s3 & s4 & s5 & f1 & f2 & f3 & f4 & f5
        & H1 & H2 & H3 & H4 & H5 & _).
  rewrite (score_as_record content JSON thr _ _ _ _ _ _ _ _ _ _
             H1 H2 H3 H4 H5) in Has.
  injection Has as <-. cbn [scores].
  exists s1, f1. split; [exact H1 |]. split; [reflexivity |].
  destruct (json_loads content) as [v | e] eqn:Hdoc.
  - pose proof (parsed_is_container content v Hd Hdoc) as Hc.
    destruct v as [| | | | | items | d]; try discriminate Hc.
    + unfold score_completeness in H1. rewrite Hdoc in H1.
      destruct items; injection H1 as <- <-; split; discriminate.
    + destruct (mapping_completeness_cases content d Hdoc)
        as (s & fb & H & _ & _ & _ & Hs & Hf).
      rewrite H1 in H. injection H as <- <-. split; assumption.
  - assert (Hfail : is_ok (json_loads content) = false)
      by (rewrite Hdoc; reflexivity).
    destruct (unparsed_scores content Hfail)
      as (g1 & g2 & g5 & G1 & _ & _ & _ & ->).
    rewrite H1 in G1. injection G1 as -> ->. split; discriminate.
Qed.

(** X17. [score_clarity] reads the format for code only: JSON, markdown and
    text get the same answer, and code gets that score or, with the
    penalty for missing comments, a lower one. *)
Theorem clarity_reads_code_only (content : pystr) :
  score_clarity content JSON = score_clarity content TEXT
  /\ score_clarity content MARKDOWN = score_clarity content TEXT
  /\ exists s fb s' fb',
       score_clarity content TEXT = Ok (s, fb)
       /\ score_clarity content CODE = Ok (s', fb')
       /\ s' <= s.
Proof.
  split; [reflexivity |]. split; [reflexivity |].
  unfold score_clarity.
  repeat match goal with
         | |- context [if ?c then (?a, ?b) else (?a', ?b')] =>
             destruct c
         end;
    cbv beta iota zeta; cbn [bind]; run_re; case_tests;
    cbv beta iota zeta; cbn [bind]; run_re; case_tests;
    eexists; eexists; eexists; eexists;
    (split; [reflexivity |]); (split; [reflexivity |]);
    apply round3_mono, pymax_mono; lra.
Qed.

End JsonScoring3.

(** ** The keys of a parsed mapping *)

Section Keys.

Lemma pystr_eqb_eq (a b : pystr) : eqb a b = true <-> a = b.
Proof.
  revert b. induction a as [| x a IH]; intros [| y b]; cbn [eqb];
    try (split; [discriminate | discriminate]); [split; reflexivity |].
  rewrite andb_true_iff, N.eqb_eq, IH. split.
  - intros [-> ->]. reflexivity.
  - intros [= -> ->]. split; reflexivity.
Qed.

Lemma pystr_eqb_refl (a : pystr) : eqb a a = true.
Proof. apply pystr_eqb_eq. reflexivity. Qed.

Lemma pystr_eqb_sym (a b : pystr) : eqb a b = eqb b a.
Proof.
  destruct (eqb a b) eqn:H1, (eqb b a) eqn:H2; try reflexivity.
  - apply pystr_eqb_eq in H1. subst. rewrite pystr_eqb_refl in H2. discriminate.
  - apply pystr_eqb_eq in H2. subst. rewrite pystr_eqb_refl in H1. discriminate.
Qed.

Lemma dict_has_keys {V : Type} (k : pystr) (d : list (pystr * V)) :
  dict_has k d = existsb (eqb k) (map fst d).
Proof.
  unfold dict_has. induction d as [| [k' v'] t IH]; cbn [existsb map fst];
    [reflexivity |].
  rewrite IH. reflexivity.
Qed.

(** [d[k] = v] keeps the keys and their order when [k] is one of them, and
    appends [k] otherwise. *)
Lemma dict_set_keys {V : Type} (k : pystr) (v : V) (d : list (pystr * V)) :
  map fst (dict_set k v d)
  = if dict_has k d then map fst d else map fst d ++ [k].
Proof.
  unfold dict_has.
  induction d as [| [k' v'] t IH]; cbn [dict_set existsb map fst app];
    [reflexivity |].
  destruct (eqb k k') eqn:Hk; cbn [orb map fst]; [reflexivity |].
  rewrite IH. destruct (existsb _ t); reflexivity.
Qed.

Lemma unique_keys_snoc (l : list pystr) (k : pystr) :
  unique_keys l = true -> existsb (eqb k) l = false ->
  unique_keys (l ++ [k]) = true.
Proof.
  induction l as [| x t IH]; cbn [unique_keys existsb app];
    [reflexivity |].
  intros Hu Hk. apply andb_true_iff in Hu. destruct Hu as [Hx Hu].
  apply orb_false_iff in Hk. destruct Hk as [Hkx Hk].
  rewrite (IH Hu Hk), andb_true_r.
  rewrite existsb_app. cbn [existsb].
  apply negb_true_iff in Hx. rewrite Hx, pystr_eqb_sym, Hkx. reflexivity.
Qed.

Lemma dict_set_unique {V : Type} (k : pystr) (v : V)
  (d : list (pystr * V)) :
  unique_keys (map fst d) = true ->
  unique_keys (map fst (dict_set k v d)) = true.
Proof.
  intros Hu. rewrite dict_set_keys, dict_has_keys.
  destruct (existsb (eqb k) (map fst d)) eqn:Hk; [exact Hu |].
  apply unique_keys_snoc; assumption.
Qed.

Lemma dict_set_values (P : json -> bool) (k : pystr) (v : json)
  (d : list (pystr * json)) :
  P v = true -> forallb (fun kv => P (snd kv)) d = true ->
  forallb (fun kv => P (snd kv)) (dict_set k v d) = true.
Proof.
  intros Hv. induction d as [| [k' v'] t IH]; cbn [dict_set forallb snd].
  - intros _. rewrite Hv. reflexivity.
  - intros H. apply andb_true_iff in H. destruct H as [H1 H2].
    destruct (eqb k k'); cbn [forallb snd].
    + rewrite Hv, H2. reflexivity.
    + rewrite H1, (IH H2). reflexivity.
Qed.

Lemma keyword_distinct (name : string) (v : json) (s : pystr) (pos : nat)
  (r : scan json) :
  keys_distinct v = true -> keyword name v s pos = Some r ->
  match r with inr (v', _, _) => keys_distinct v' = true | inl _ => True end.
Proof.
  intros Hv. unfold keyword. destruct (startswith _ s); [| discriminate].
  intros [= <-]. exact Hv.
Qed.

Lemma match_number_distinct (s : pystr) (pos : nat) (v : json)
  (rest : pystr) (p : nat) :
  match_number s pos = inr (v, rest, p) -> keys_distinct v = true.
Proof.
  unfold match_number. cbv zeta.
  match goal with
  | |- (let '(neg, s1) := ?X in _) = _ -> _ => destruct X as [neg s1]
  end.
  match goal with
  | |- match ?X with Some _ => _ | None => _ end = _ -> _ =>
      destruct X as [[ids s2] |]; [| discriminate]
  end.
  match goal with
  | |- (let '(fds, s3) := ?X in _) = _ -> _ => destruct X as [fds s3]
  end.
  match goal with
  | |- match ?X with (_, _) => _ end = _ -> _ =>
      destruct X as [[[has_exp eneg] eds] s4]
  end.
  destruct fds, has_exp; intros [= <- _ _]; reflexivity.
Qed.

Lemma scan_distinct (fuel : nat) :
  (forall s pos v rest p,
      scan_once fuel s pos = inr (v, rest, p) -> keys_distinct v = true)
  /\ (forall d s pos v rest p,
         keys_distinct (JDict d) = true ->
         object_loop fuel d s pos = inr (v, rest, p) ->
         keys_distinct v = true)
  /\ (forall acc s pos v rest p,
         forallb keys_distinct acc = true ->
         array_loop fuel acc s pos = inr (v, rest, p) ->
         keys_distinct v = true).
Proof.
  induction fuel as [| f (IHs & IHo & IHa)];
    [repeat split; intros; discriminate |].
  split; [| split].
  - intros s pos v rest p. cbn [scan_once].
    destruct s as [| c t]; [discriminate |].
    destruct (c =? 34)%N.
    { destruct (scanstring _ t _ pos []) as [e | [[str s1] p1]];
        [discriminate |].
      intros [= <- _ _]. reflexivity. }
    destruct (c =? 123)%N.
    { destruct (skip_ws t (S pos)) as [[| c1 t1] p1].
      - apply IHo. reflexivity.
      - destruct (c1 =? 125)%N; [intros [= <- _ _]; reflexivity |].
        apply IHo. reflexivity. }
    destruct (c =? 91)%N.
    { destruct (skip_ws t (S pos)) as [[| c1 t1] p1].
      - apply IHa. reflexivity.
      - destruct (c1 =? 93)%N; [intros [= <- _ _]; reflexivity |].
        apply IHa. reflexivity. }
    repeat match goal with
           | |- context [keyword ?n ?x ?y ?z] =>
               let Hk := fresh "Hk" in
               destruct (keyword n x y z) as [r |] eqn:Hk;
               [ intros ->;
                 exact (keyword_distinct n x y z _ eq_refl Hk) |]
           end.
    apply match_number_distinct.
  - intros d s pos v rest p Hd. cbn [object_loop].
    destruct s as [| c t]; [discriminate |].
    destruct (c =? 34)%N; [| discriminate].
    destruct (scanstring _ t _ pos []) as [e | [[key s1] p1]];
      [discriminate |].
    destruct (skip_ws s1 p1) as [[| c2 t2] p2]; [discriminate |].
    destruct (c2 =? 58)%N; [| discriminate].
    destruct (skip_ws t2 (S p2)) as [s3 p3].
    destruct (scan_once f s3 p3) as [e | [[v' s4] p4]] eqn:Hv;
      [discriminate |].
    apply IHs in Hv. cbv zeta.
    assert (Hd' : keys_distinct (JDict (dict_set key v' d)) = true).
    { cbn [keys_distinct] in *. apply andb_true_iff in Hd.
      destruct Hd as [Hu Hall].
      rewrite (dict_set_unique key v' d Hu).
      rewrite (dict_set_values keys_distinct key v' d Hv Hall).
      reflexivity. }
    destruct (skip_ws s4 p4) as [[| c5 t5] p5]; [discriminate |].
    destruct (c5 =? 125)%N; [intros [= <- _ _]; exact Hd' |].
    destruct (c5 =? 44)%N; [| discriminate].
    destruct (skip_ws t5 (S p5)) as [s6 p6]. apply IHo, Hd'.
  - intros acc s pos v rest p Hacc. cbn [array_loop].
    destruct (scan_once f s pos) as [e | [[v' s1] p1]] eqn:Hv;
      [discriminate |].
    apply IHs in Hv.
    destruct (skip_ws s1 p1) as [[| c2 t2] p2]; [discriminate |].
    destruct (c2 =? 93)%N.
    + intros [= <- _ _]. cbn [keys_distinct].
      apply forallb_forall. intros x Hx.
      change (In x (rev (v' :: acc))) in Hx. rewrite <- in_rev in Hx.
      destruct Hx as [<- | Hx]; [exact Hv |].
      rewrite forallb_forall in Hacc. apply Hacc, Hx.
    + destruct (c2 =? 44)%N; [| discriminate].
      destruct (skip_ws t2 (S p2)) as [s3 p3]. apply IHa.
      cbn [forallb]. rewrite Hv, Hacc. reflexivity.
Qed.

(** X18. No mapping of a parsed document holds a key twice: a key that the
    text repeats is stored once, so the number of keys the scorers count
    is the number of distinct keys. *)
Theorem parsed_keys_distinct (doc : pystr) (v : json) :
  json_loads doc = Ok v -> keys_distinct v = true.
Proof.
  unfold json_loads, json_loads_with.
  destruct (startswith _ doc); [discriminate |].
  destruct (skip_ws doc 0) as [s0 p0].
  destruct (scan_once _ s0 p0) as [[msg pos] | [[v' s1] p1]] eqn:Hscan;
    [discriminate |].
  destruct (skip_ws s1 p1) as [[| c s2] p2]; [| discriminate].
  intros [= <-]. apply (proj1 (scan_distinct _) _ _ _ _ _ Hscan).
Qed.

End Keys.

(** ** Batches *)

Section Batches.
Context {E : Engine}.
Local Open Scope Q_scope.
Local Open Scope py_scope.

(** [score_submission] returns on what [detect_format] classifies JSON and
    raises the error of the detector on everything else. *)
Lemma score_submission_cases (content : pystr) (thr : Q) :
  (detect_format content = Ok JSON
   /\ exists r, score_submission content thr = Ok r)
  \/ (detect_format content = Raise unterminated_group
      /\ score_submission content thr = Raise unterminated_group).
Proof.
  unfold score_submission.
  destruct (detect_format_cases content) as [H | H]; rewrite H; cbn [bind].
  - left. split; [reflexivity |].
    destruct (score_as_answers content JSON thr)
      as (s1 & s2 & s3 & s4 & s5 & f1 & f2 & f3 & f4 & f5
          & H1 & H2 & H3 & H4 & H5 & _).
    rewrite (score_as_record content JSON thr _ _ _ _ _ _ _ _ _ _
               H1 H2 H3 H4 H5).
    eexists; reflexivity.
  - right. split; reflexivity.
Qed.

(** X19. A batch of submissions within the limits of the interpreter is
    scored all or nothing: it returns one result for each submission, in
    order, when [detect_format] classifies every submission JSON, and
    raises [re.error] as soon as one submission is not; what the scorers
    parse is nested at most [NESTING_ROOM] deep.  (Past the limits a
    submission may make [json.loads] raise [RecursionError] or
    [ValueError] instead.) *)
Theorem batch_all_or_nothing (submissions : list pystr) (thr : Q) :
  forallb within_limits submissions = true ->
  (Forall (fun s => detect_format s = Ok JSON) submissions ->
   exists rs,
     score_batch submissions thr = Ok rs
     /\ List.length rs = List.length submissions
     /\ Forall2 (fun s r => score_submission s thr = Ok r) submissions rs)
  /\ (Exists (fun s => detect_format s <> Ok JSON) submissions ->
      score_batch submissions thr = Raise unterminated_group)
  /\ Forall (fun s => forall v, json_loads s = Ok v ->
                                (nesting v <= NESTING_ROOM)%nat) submissions.
Proof.
  intros Hlim.
  assert (Hroom : Forall (fun s => forall v, json_loads s = Ok v ->
                                             (nesting v <= NESTING_ROOM)%nat)
                    submissions).
  { apply Forall_forall. intros s Hs v Hdoc.
    rewrite forallb_forall in Hlim.
    apply (within_limits_nesting s v (Hlim s Hs) Hdoc). }
  clear Hlim. split; [| split; [| exact Hroom]]; clear Hroom.
  - induction submissions as [| s rest IH]; intros Hall.
    + exists []. repeat split. constructor.
    + inversion Hall as [| ? ? Hs Hrest]; subst.
      destruct (IH Hrest) as (rs & Hrs & Hlen & Hall2).
      destruct (score_submission_cases s thr) as [[_ [r Hr]] | [Hd _]];
        [| rewrite Hs in Hd; discriminate].
      exists (r :: rs). cbn [score_batch]. rewrite Hr, Hrs. cbn [bind].
      split; [reflexivity |]. split; [cbn [List.length]; lia |].
      constructor; assumption.
  - induction submissions as [| s rest IH]; intros Hex;
      [inversion Hex |].
    cbn [score_batch].
    destruct (score_submission_cases s thr) as [[Hd [r Hr]] | [Hd Hr]];
      rewrite Hr; cbn [bind]; [| reflexivity].
    inversion Hex as [? ? Hs | ? ? Hrest]; subst; [contradiction |].
    rewrite (IH Hrest). reflexivity.
Qed.

(** X20. Scoring a batch in two parts gives the results of the whole, and
    the whole raises when a part does. *)
Theorem score_batch_app (a b : list pystr) (thr : Q) :
  score_batch (a ++ b) thr
  = (ra <- score_batch a thr ;;
     rb <- score_batch b thr ;;
     Ok (ra ++ rb)).
Proof.
  induction a as [| s rest IH]; cbn [app score_batch bind].
  - destruct (score_batch b thr); reflexivity.
  - destruct (score_submission s thr) as [r | e]; cbn [bind];
      [| reflexivity].
    rewrite IH.
    destruct (score_batch rest thr) as [ra | e]; cbn [bind];
      [| reflexivity].
    destruct (score_batch b thr) as [rb | e]; reflexivity.
Qed.

End Batches.

(** ** Feedback and ratings *)

Section Completeness.
Context {E : Engine}.
Local Open Scope Q_scope.

(** X21. For JSON, markdown and code the completeness scorer answers
    "Complete" exactly when the score is 1. *)
Theorem complete_means_full_score (content : pystr) (ft : FormatType)
  (s : Q) (fb : pystr) :
  ft <> TEXT ->
  score_completeness content ft = Ok (s, fb) ->
  (fb = py "Complete" <-> s == 1).
Proof.
  intros Hft. destruct ft; [| | | contradiction]; clear Hft.
  - destruct (json_loads content) as [[| | | | | items | d] | e] eqn:Hdoc.
    1-5: unfold score_completeness; rewrite Hdoc; intros [= <- <-];
      split; discriminate.
    + unfold score_completeness. rewrite Hdoc.
      destruct items; intros [= <- <-]; split;
        first [discriminate | reflexivity].
    + intros H.
      destruct (mapping_completeness_cases content d Hdoc)
        as (s' & fb' & H' & _ & Hs & Hf & _).
      rewrite H in H'. injection H' as <- <-.
      rewrite Hs, Hf. reflexivity.
    + unfold score_completeness. rewrite Hdoc. intros [= <- <-].
      split; discriminate.
  - unfold score_completeness. run_re.
    repeat match goal with b : bool |- _ => destruct b end;
      destruct (0 <? _)%nat; vm_compute; intros [= <- <-];
      split; first [discriminate | reflexivity].
  - unfold score_completeness. run_re.
    repeat match goal with b : bool |- _ => destruct b end;
      destruct (5 <? _)%nat; vm_compute; intros [= <- <-];
      split; first [discriminate | reflexivity].
Qed.

(** A mapping scores 0.5 at most on coverage. *)
Lemma mapping_score_bound (k d : nat) :
  round3 (pymin 1 (qn k / 10 + qn d / 5) / 2) <= 1 # 2.
Proof.
  apply Qle_trans with (500 # 1000); [| discriminate].
  apply round3_le.
  pose proof (qn_div_nonneg k 10 eq_refl) as Hk.
  pose proof (qn_div_nonneg d 5 eq_refl) as Hd.
  match goal with
  | |- pymin 1 ?x / 2 <= _ =>
      assert (Hx : 0 <= x) by lra;
      destruct (half_unit _ (pymin_unit x Hx)) as [_ Hh]
  end.
  apply Qle_trans with (1 # 2); [exact Hh | discriminate].
Qed.

(** X22. A mapping is never rated "Excellent": its coverage is 0.5 at most,
    which keeps the weighted score at 0.875 or under; and a submission
    rated "Excellent" is a sequence. *)
Theorem excellent_needs_a_sequence (content : pystr) (thr : Q)
  (r : ScoringResult) :
  score_submission content thr = Ok r ->
  (forall d, json_loads content = Ok (JDict d) ->
             weighted_score r <= 0.875
             /\ quality_rating r <> py "Excellent")
  /\ (quality_rating r = py "Excellent" ->
      exists items, json_loads content = Ok (JList items)).
Proof.
  intros Hr. destruct (score_submission_inv content thr r Hr) as [Hd Has].
  destruct (score_as_answers content JSON thr)
    as (s1 & s2 & s3 & s4 & s5 & f1 & f2 & f3 & f4 & f5
        & H1 & H2 & H3 & H4 & H5 & U & _).
  rewrite (score_as_record content JSON thr _ _ _ _ _ _ _ _ _ _
             H1 H2 H3 H4 H5) in Has.
  injection Has as <-. cbn [weighted_score quality_rating].
  destruct U as (U1 & U2 & U3 & U4 & U5).
  set (w := round3 (weighted s1 s2 s3 s4 s5)).
  assert (Hmap : forall d, json_loads content = Ok (JDict d) ->
                           w <= 0.875 /\ get_quality_rating w <> py "Excellent").
  { intros d Hdoc.
    assert (Hc : s3 <= 1 # 2).
    { rewrite (coverage_mapping_value content d Hdoc) in H3.
      injection H3 as <- _.
      apply mapping_score_bound. }
    assert (Hw : w <= 0.875).
    { apply Qle_trans with (875 # 1000); [| discriminate].
      apply round3_le. unfold weighted.
      apply Qle_trans with (875 # 1000); [lra | discriminate]. }
    split; [exact Hw |].
    destruct (rating_bands w)
      as [[B R] | [[B R] | [[B R] | [[B R] | [[B R] | [B R]]]]]];
      rewrite R; try discriminate. exfalso. lra. }
  split; [exact Hmap |].
  intros Hex.
  destruct (json_loads content) as [v | e] eqn:Hdoc.
  - pose proof (parsed_is_container content v Hd Hdoc) as Hc.
    destruct v as [| | | | | items | d]; try discriminate Hc.
    + exists items. reflexivity.
    + destruct (Hmap d eq_refl) as [_ Hne]. contradiction.
  - exfalso.
    assert (Hfail : is_ok (json_loads content) = false)
      by (rewrite Hdoc; reflexivity).
    destruct (unparsed_scores content Hfail)
      as (g1 & g2 & g5 & G1 & G2 & G3 & G5 & _).
    rewrite H1 in G1. rewrite H2 in G2. rewrite H3 in G3. rewrite H5 in G5.
    injection G1 as -> _. injection G2 as -> _. injection G3 as -> _.
    injection G5 as -> _.
    assert (Hw : w <= 0.15).
    { apply Qle_trans with (150 # 1000); [| discriminate].
      apply round3_le. unfold weighted.
      apply Qle_trans with (15 # 100); [lra | discriminate]. }
    destruct (rating_bands w)
      as [[B R] | [[B R] | [[B R] | [[B R] | [[B R] | [B R]]]]]];
      rewrite R in Hex; try discriminate Hex. lra.
Qed.

End Completeness.

(** ** Examples of the further properties, on the reference engine *)

Section FurtherWitnesses.

Import RefEngine.

Local Open Scope Q_scope.

Lemma result_shape_witness :
  exists r,
    score_submission five_fields DEFAULT_PASS_THRESHOLD = Ok r
    /\ map fst (scores r) = dimension_names
    /\ format_detected r = py "json"
    /\ (1 <= List.length (feedback r) <= 5)%nat.
Proof.
  eexists.
  assert (H : score_submission five_fields DEFAULT_PASS_THRESHOLD = Ok _)
    by (vm_compute; reflexivity).
  split; [exact H |].
  destruct (result_shape five_fields DEFAULT_PASS_THRESHOLD _ H)
    as (_ & _ & Hn & Hl & Hf).
  split; [exact Hn |]. split; [exact Hl | exact Hf].
Defined.

Lemma threshold_only_sets_verdict_witness :
  exists r1 r2,
    score_submission five_fields 0.6 = Ok r1
    /\ score_submission five_fields 0.9 = Ok r2
    /\ weighted_score r2 = weighted_score r1
    /\ scores r2 = scores r1
    /\ feedback r2 = feedback r1.
Proof.
  eexists.
  assert (H : score_submission five_fields 0.6 = Ok _)
    by (vm_compute; reflexivity).
  destruct (threshold_only_sets_verdict five_fields 0.6 0.9 _ H)
    as (r2 & H2 & Hw & _ & Hs & Hf & _).
  exists r2. split; [exact H |]. split; [exact H2 |].
  split; [exact Hw |]. split; [exact Hs | exact Hf].
Defined.

Lemma weighted_between_extremes_witness :
  exists r,
    score_submission five_fields DEFAULT_PASS_THRESHOLD = Ok r
    /\ In (7 # 20) (map snd (scores r))
    /\ In 1 (map snd (scores r))
    /\ 7 # 20 <= weighted_score r <= 1.
Proof.
  eexists.
  assert (H : score_submission five_fields DEFAULT_PASS_THRESHOLD = Ok _)
    by (vm_compute; reflexivity).
  split; [exact H |].
  split; [vm_compute; right; right; left; reflexivity |].
  split; [vm_compute; left; reflexivity |].
  apply (weighted_between_extremes five_fields DEFAULT_PASS_THRESHOLD
           _ (7 # 20) 1 H).
  - vm_compute. right; right; left; reflexivity.
  - vm_compute. left. reflexivity.
  - intros s Hs. vm_compute in Hs.
    destruct Hs as [<- | [<- | [<- | [<- | [<- | []]]]]];
      split; discriminate.
Defined.

Lemma default_threshold_is_satisfactory_witness :
  exists r,
    score_submission five_fields DEFAULT_PASS_THRESHOLD = Ok r
    /\ (pass_threshold r = true <->
        (tier (py "Satisfactory") <= tier (quality_rating r))%nat).
Proof.
  eexists.
  assert (H : score_submission five_fields DEFAULT_PASS_THRESHOLD = Ok _)
    by (vm_compute; reflexivity).
  split; [exact H |].
  exact (default_threshold_is_satisfactory five_fields _ H).
Defined.

Lemma detect_format_ignores_margins_witness :
  forallb isspace left_margin = true
  /\ forallb isspace right_margin = true
  /\ detect_format (left_margin ++ five_fields ++ right_margin)
     = detect_format five_fields.
Proof.
  assert (H1 : forallb isspace left_margin = true)
    by (vm_compute; reflexivity).
  assert (H2 : forallb isspace right_margin = true)
    by (vm_compute; reflexivity).
  split; [exact H1 |]. split; [exact H2 |].
  exact (detect_format_ignores_margins left_margin five_fields right_margin
           H1 H2).
Defined.

Lemma penalties_are_bounded_witness :
  is_ok (json_loads five_fields) = true
  /\ exists s1 f1 s2 f2,
       score_format_compliance five_fields JSON = Ok (s1, f1)
       /\ score_validity five_fields JSON = Ok (s2, f2)
       /\ format_compliance_floor JSON <= s1
       /\ validity_floor JSON <= s2.
Proof.
  assert (H : is_ok (json_loads five_fields) = true)
    by (vm_compute; reflexivity).
  split; [exact H |].
  exact (penalties_are_bounded five_fields JSON (fun _ => H)).
Defined.

Lemma unparsed_payload_is_poor_witness :
  detect_format form_feed_mapping = Ok JSON
  /\ is_ok (json_loads form_feed_mapping) = false
  /\ exists r clarity,
       score_submission form_feed_mapping DEFAULT_PASS_THRESHOLD = Ok r
       /\ map snd (scores r) = [0; 0; 0; clarity; 0]
       /\ quality_rating r = py "Poor".
Proof.
  assert (H1 : detect_format form_feed_mapping = Ok JSON)
    by (vm_compute; reflexivity).
  assert (H2 : is_ok (json_loads form_feed_mapping) = false)
    by (vm_compute; reflexivity).
  split; [exact H1 |]. split; [exact H2 |].
  destruct (unparsed_payload_is_poor form_feed_mapping
              DEFAULT_PASS_THRESHOLD H1 H2)
    as (r & clarity & Hr & Hs & _ & Hq & _).
  exists r, clarity. split; [exact Hr |]. split; [exact Hs | exact Hq].
Defined.

Lemma mapping_completeness_witness :
  exists d,
    json_loads five_fields = Ok (JDict d)
    /\ exists s fb,
         score_completeness five_fields JSON = Ok (s, fb) /\ s == 1.
Proof.
  eexists.
  assert (H : json_loads five_fields = Ok (JDict _))
    by (vm_compute; reflexivity).
  split; [exact H |].
  destruct (mapping_completeness five_fields _ H)
    as (s & fb & Hs & _ & H1 & _).
  exists s, fb. split; [exact Hs |]. apply H1. vm_compute. reflexivity.
Defined.

Lemma sequence_scores_witness :
  exists items,
    json_loads three_items = Ok (JList items)
    /\ exists s1 f1 s3 f3,
         score_completeness three_items JSON = Ok (s1, f1)
         /\ score_coverage three_items JSON = Ok (s3, f3)
         /\ s1 == 1 /\ s3 == 3 # 10.
Proof.
  eexists.
  assert (H : json_loads three_items = Ok (JList _))
    by (vm_compute; reflexivity).
  split; [exact H |].
  destruct (sequence_scores three_items _ H)
    as (s1 & f1 & s3 & f3 & H1 & H3 & _ & Hfull & Hcov & _).
  exists s1, f1, s3, f3. split; [exact H1 |]. split; [exact H3 |].
  split; [apply Hfull; discriminate |].
  rewrite Hcov. vm_compute. reflexivity.
Defined.

Lemma validity_of_parsed_witness :
  exists data,
    json_loads null_value = Ok data
    /\ exists s fb,
         score_validity null_value JSON = Ok (s, fb) /\ s == 9 # 10.
Proof.
  eexists.
  assert (H : json_loads null_value = Ok _) by (vm_compute; reflexivity).
  split; [exact H |].
  destruct (validity_of_parsed null_value _ H) as (s & fb & Hv & Hs & _).
  exists s, fb. split; [exact Hv |]. rewrite Hs. vm_compute. reflexivity.
Defined.

Lemma mapping_coverage_extremes_witness :
  exists d,
    within_limits ten_keys = true
    /\ json_loads ten_keys = Ok (JDict d)
    /\ exists s fb, score_coverage ten_keys JSON = Ok (s, fb) /\ s == 1 # 2.
Proof.
  assert (H0 : within_limits ten_keys = true) by (vm_compute; reflexivity).
  eexists. split; [exact H0 |].
  assert (H : json_loads ten_keys = Ok (JDict _))
    by (vm_compute; reflexivity).
  split; [exact H |].
  destruct (mapping_coverage_extremes ten_keys _ H0 H)
    as (s & fb & Hs & _ & _ & Hmax).
  exists s, fb. split; [exact Hs |]. apply Hmax. vm_compute. lia.
Defined.

Lemma minimal_structure_unreachable_witness :
  exists r,
    score_submission five_fields DEFAULT_PASS_THRESHOLD = Ok r
    /\ exists s fb,
         score_completeness five_fields JSON = Ok (s, fb)
         /\ score_of (scores r) (py "completeness") = Some s
         /\ eqb fb (py "JSON structure is minimal") = false.
Proof.
  eexists.
  assert (H : score_submission five_fields DEFAULT_PASS_THRESHOLD = Ok _)
    by (vm_compute; reflexivity).
  split; [exact H |].
  destruct (minimal_structure_unreachable five_fields
              DEFAULT_PASS_THRESHOLD _ H) as (_ & s & fb & Hc & Hs & _ & Hf).
  exists s, fb. split; [exact Hc |]. split; [exact Hs |].
  destruct (eqb fb (py "JSON structure is minimal")) eqn:Heq;
    [| reflexivity].
  apply pystr_eqb_eq in Heq. contradiction.
Defined.

Lemma parsed_keys_distinct_witness :
  json_loads repeated_key = Ok (JDict [(py "a", JInt 2)])
  /\ keys_distinct (JDict [(py "a", JInt 2)]) = true.
Proof.
  assert (H : json_loads repeated_key = Ok (JDict [(py "a", JInt 2)]))
    by (vm_compute; reflexivity).
  split; [exact H |].
  exact (parsed_keys_distinct repeated_key _ H).
Defined.

Lemma complete_means_full_score_witness :
  JSON <> TEXT
  /\ score_completeness five_fields JSON = Ok (1, py "Complete")
  /\ (py "Complete" = py "Complete" <-> 1 == 1).
Proof.
  assert (H : score_completeness five_fields JSON = Ok (1, py "Complete"))
    by (vm_compute; reflexivity).
  assert (Hft : JSON <> TEXT) by discriminate.
  split; [exact Hft |]. split; [exact H |].
  exact (complete_means_full_score five_fields JSON 1 (py "Complete") Hft H).
Defined.

Lemma excellent_needs_a_sequence_witness :
  exists r items,
    score_submission ten_items DEFAULT_PASS_THRESHOLD = Ok r
    /\ quality_rating r = py "Excellent"
    /\ json_loads ten_items = Ok (JList items).
Proof.
  eexists.
  assert (H : score_submission ten_items DEFAULT_PASS_THRESHOLD = Ok _)
    by (vm_compute; reflexivity).
  destruct (excellent_needs_a_sequence ten_items DEFAULT_PASS_THRESHOLD _ H)
    as [_ Hseq].
  destruct (Hseq ltac:(vm_compute; reflexivity)) as [items Hitems].
  exists items. split; [exact H |].
  split; [vm_compute; reflexivity | exact Hitems].
Defined.

(** The submissions on which the program is known to leave the functions
    of this file are outside the limits: a thousand nested sequences and an
    integer of 4301 digits, on which [json.loads] raises [RecursionError]
    and [ValueError], and a mapping nested 400 levels deep, on which
    [get_dict_depth] raises [RecursionError]. *)
Example beyond_the_limits :
  within_limits (repeat 91%N 1000 ++ repeat 93%N 1000) = false
  /\ within_limits (py "[" ++ repeat 49%N 4301 ++ py "]") = false
  /\ within_limits
       (concat (repeat (jq "{'a':") 400) ++ py "1" ++ repeat 125%N 400)
     = false.
Proof. repeat split; vm_compute; reflexivity. Qed.

Lemma detect_format_answers_witness :
  within_limits hello_code = true
  /\ detect_format hello_code = Raise unterminated_group.
Proof.
  assert (H0 : within_limits hello_code = true)
    by (vm_compute; reflexivity).
  split; [exact H0 |].
  destruct (detect_format_answers hello_code) as (_ & _ & Hin).
  destruct (Hin H0) as (Hiff & Hraise & _).
  apply Hraise. intros Hjson. apply Hiff in Hjson.
  destruct Hjson as [Hstart _]. vm_compute in Hstart. discriminate Hstart.
Defined.

(** A batch of two JSON submissions returns two results, in order. *)
Lemma batch_all_or_nothing_witness :
  forallb within_limits [five_fields; three_items] = true
  /\ exists rs,
       score_batch [five_fields; three_items] DEFAULT_PASS_THRESHOLD = Ok rs
       /\ List.length rs = 2%nat.
Proof.
  assert (H0 : forallb within_limits [five_fields; three_items] = true)
    by (vm_compute; reflexivity).
  split; [exact H0 |].
  destruct (batch_all_or_nothing [five_fields; three_items]
              DEFAULT_PASS_THRESHOLD H0) as (Hall & _ & _).
  destruct Hall as (rs & Hrs & Hlen & _).
  - repeat (apply Forall_cons; [vm_compute; reflexivity |]).
    apply Forall_nil.
  - exists rs. split; [exact Hrs | exact Hlen].
Defined.

End FurtherWitnesses.
